(** * puppet-zoom: the Zoom runner prototype, embedded and verified

    A shallow embedding of [src/prototype.ts] (class [ZoomRunner]) and of
    the configuration module that accompanies it ([toWebClientUrl],
    [ConfigSchema]).

    The runner drives a browser page through Playwright.  Everything the
    page answers is an input of the model: each embedded method takes a
    record (its "world") that fixes what every query it makes will observe,
    and produces the ordered list of operations it performed together with
    either a value or the error it threw.  The logger is recorded and
    always completes.

    A wait ([waitForTimeout]) is recorded too.  The methods are embedded
    first for a surface on which every wait resolves.  The methods whose
    control flow depends on a wait are embedded a second time, in the
    module [Timed], with the outcome of each of their waits as one more
    input; the two embeddings agree when the waits resolve.

    The [URL] objects that [toWebClientUrl] builds belong to the engine:
    the function is embedded over an interface of the four operations it
    uses, and evaluated on an engine for addresses in normal form.

    The logger module ([Logger], [normalizeLevel], [createLogger]), the
    command-line overrides ([parseCliOverrides]), the raw object that
    [loadConfig] builds from overrides and environment, and [run] are
    embedded as well.  The two boolean fields of [ConfigSchema] are read
    as the schema library documents them: the default for an undefined
    entry, [Boolean(value)] otherwise. *)

From stdpp Require Import base decidable option list gmap strings.
From Stdlib Require Import String Ascii Arith NArith Lia.
From Stdlib Require PrimFloat.

Local Open Scope string_scope.
Local Open Scope list_scope.
Local Open Scope nat_scope.

(* ================================================================== *)
(** * JavaScript strings *)
(* ================================================================== *)

(** A JavaScript string is modelled by the sequence of bytes of its
    UTF-8 encoding; [===] is equality of the sequences, template
    concatenation is [+:+]. *)

Module JS.

(** [String.prototype.includes]. *)
Fixpoint includes (s sub : string) : bool :=
  if String.prefix sub s then true
  else match s with
       | EmptyString => false
       | String _ s' => includes s' sub
       end.

(** [s.slice(n)]: [s] without its first [n] characters. *)
Fixpoint slice (n : nat) (s : string) : string :=
  match n, s with
  | O, _ => s
  | S n', String _ s' => slice n' s'
  | S _, EmptyString => EmptyString
  end.

(** [String.prototype.replace] with a string pattern and a replacement
    free of [$]: only the first occurrence is replaced. *)
Fixpoint replace (s pattern replacement : string) : string :=
  if String.prefix pattern s
  then replacement +:+ slice (String.length pattern) s
  else match s with
       | EmptyString => EmptyString
       | String c s' => String c (replace s' pattern replacement)
       end.

(** [toLowerCase] and [trim] are the engine's Unicode-aware primitives.
    The development is parametric in them. *)
Class StringOps := {
  toLowerCase : string -> string;
  trim : string -> string
}.

(** Their restriction to ASCII, used to evaluate the model. *)
Definition lower_ascii (c : ascii) : ascii :=
  let n := nat_of_ascii c in
  if (65 <=? n) && (n <=? 90) then ascii_of_nat (n + 32) else c.

Fixpoint lower (s : string) : string :=
  match s with
  | EmptyString => EmptyString
  | String c s' => String (lower_ascii c) (lower s')
  end.

Definition is_space (c : ascii) : bool :=
  let n := nat_of_ascii c in
  ((9 <=? n) && (n <=? 13)) || (n =? 32).

Fixpoint trimStart (s : string) : string :=
  match s with
  | EmptyString => EmptyString
  | String c s' => if is_space c then trimStart s' else s
  end.

Fixpoint trimEnd (s : string) : string :=
  match s with
  | EmptyString => EmptyString
  | String c s' =>
      match trimEnd s' with
      | EmptyString => if is_space c then EmptyString else String c EmptyString
      | t => String c t
      end
  end.

#[export] Instance ascii_ops : StringOps := {|
  toLowerCase := lower;
  trim := fun s => trimEnd (trimStart s)
|}.

End JS.
Export JS.

(* ================================================================== *)
(** * Effects: operation traces and thrown errors *)
(* ================================================================== *)

(** The surface a locator is resolved against: the one chosen by
    [resolveSurface], or another frame of the page. *)
Inductive ZoomSurface :=
| surface
| otherFrame (label : string).

(** Playwright locators, as the runner builds them; the [.first()]
    narrowing is left implicit, [nthOf l i] is the [i]-th element of
    [l.all()]. Selectors and message texts are written without the double
    quotes they contain in the source. *)
Inductive Locator :=
| getByRole (host : ZoomSurface) (role name : string)
| locator (host : ZoomSurface) (selector : string)
| nthOf (l : Locator) (index : nat).

Inductive LogLevel := debug | info | warn | error.

Record ChatMessage := {
  name : string;
  text : string;
  fullText : string
}.

(** Operations performed by the runner, in program order. *)
Inductive Event :=
| Log (level : LogLevel) (message : string)
| LogAt (level : LogLevel) (message : string) (index : nat)
| Goto (url : string) (timeout : N)
| Query (selector : string)
| IsVisible (l : Locator)
| Click (l : Locator) (timeout : N)
| WaitFor (l : Locator) (timeout : N)
| Fill (l : Locator) (value : string)
| Press (l : Locator) (key : string)
| Count (l : Locator)
| Evaluate (script : string)
| EvaluateAll (l : Locator)
| LocatorAll (l : Locator)
| Screenshot (label : string)
| WaitForTimeout (ms : N).

(** What the runner can throw: one of its own [new Error(...)], or the
    rejection of the surface operation it awaited. *)
Inductive Error :=
| MeetingErrorState      (* 'Detected meeting error or termination state' *)
| LobbyTimeout (ms : N) (* 'Lobby timeout after ${ms}ms - not admitted to meeting' *)
| ChatInputMissing       (* 'Unable to locate or activate chat input after all attempts' *)
| ChatInputDisappeared   (* 'Chat input disappeared after activation' *)
| MonitoringFailed       (* 'Message monitoring failed after multiple attempts' *)
| Rejection (op : Event).

Inductive Res (A : Type) :=
| Ok (a : A)
| Err (e : Error).
Arguments Ok {A} a.
Arguments Err {A} e.

(** A settled promise of an awaited query. *)
Inductive Settled (A : Type) :=
| Fulfilled (a : A)
| Rejected.
Arguments Fulfilled {A} a.
Arguments Rejected {A}.

(** Computations: the trace of what was done, and how it ended. The
    trace type is a parameter: methods trace [Event]s, the workflow
    traces whole stages. *)
Definition M (E A : Type) : Type := (list E * Res A)%type.

Definition ret {E A} (a : A) : M E A := ([], Ok a).

Definition bind {E A B} (m : M E A) (k : A -> M E B) : M E B :=
  match m with
  | (t, Ok a) => let '(t', r) := k a in (t ++ t', r)
  | (t, Err e) => (t, Err e)
  end.

Definition throw {E A} (e : Error) : M E A := ([], Err e).

Definition emit {E} (ev : E) : M E unit := ([ev], Ok tt).

(** [try { m } catch (e) { h e }]. *)
Definition tryCatch {E A} (m : M E A) (h : Error -> M E A) : M E A :=
  match m with
  | (t, Ok a) => (t, Ok a)
  | (t, Err e) => let '(t', r) := h e in (t ++ t', r)
  end.

Declare Scope runner_scope.
Delimit Scope runner_scope with runner.
Notation "x <- m ;; k" := (bind m (fun x => k))
  (at level 100, m at next level, right associativity) : runner_scope.
Notation "m ;; k" := (bind m (fun _ => k))
  (at level 100, right associativity) : runner_scope.
Local Open Scope runner_scope.

Definition trace {E A} (m : M E A) : list E := fst m.
Definition result {E A} (m : M E A) : Res A := snd m.

(** An awaited operation [op] whose promise resolves iff [ok]. *)
Definition await (op : Event) (ok : bool) : M Event unit :=
  emit op ;; if ok then ret tt else throw (Rejection op).

(** An awaited query [op] yielding a value. *)
Definition awaitValue {A} (op : Event) (r : Settled A) : M Event A :=
  emit op ;;
  match r with
  | Fulfilled a => ret a
  | Rejected => throw (Rejection op)
  end.

(** [logger.level(message, context)]. Of the structured context only a
    [selectorIndex], [attempt] or [strategyIndex] is recorded. *)
Definition log (level : LogLevel) (message : string) : M Event unit :=
  emit (Log level message).

Definition logAt (level : LogLevel) (message : string) (index : nat)
  : M Event unit :=
  emit (LogAt level message index).

(** [surface.waitForTimeout(ms)] on a surface on which the wait resolves;
    [Timed.waitForTimeout] has both outcomes. *)
Definition waitForTimeout (ms : N) : M Event unit :=
  emit (WaitForTimeout ms).

(** [for (const x of l) { await f(x) }], also used for the bodies handed
    to [Promise.allSettled], which the model runs in list order. *)
Fixpoint forEach {A} (l : list A) (f : A -> M Event unit) : M Event unit :=
  match l with
  | [] => ret tt
  | x :: rest => f x ;; forEach rest f
  end.

(* ================================================================== *)
(** * Configuration *)
(* ================================================================== *)

(** The output of [ConfigSchema.parse]; the timeouts are the positive
    integers of milliseconds the schema admits. *)
Record ConfigValues := {
  zoomUrl : string;
  botName : string;
  messageText : string;
  monitorMessages : bool;
  headless : bool;
  navigationTimeoutMs : N;
  nameInputTimeoutMs : N;
  lobbyTimeoutMs : N;
  chatTimeoutMs : N;
  postLeaveDelayMs : N
}.

(** [AppConfig = z.infer<typeof ConfigSchema> & { webClientUrl: string }]. *)
Record AppConfig := {
  values :> ConfigValues;
  webClientUrl : string
}.

(* ================================================================== *)
(** * Candidate resolution *)
(* ================================================================== *)

Definition body : Locator := locator surface "body".

(** One entry of [visibilityChecks]: [{ index, locator, visible }]. *)
Record Check := {
  index : nat;
  checked : Locator;
  visible : bool
}.

(** [await locator.isVisible().catch(() => false)]. *)
Definition isVisibleOrFalse (isVisible : Locator -> Settled bool)
  (l : Locator) : M Event bool :=
  tryCatch (awaitValue (IsVisible l) (isVisible l)) (fun _ => ret false).

(** [Promise.allSettled(candidates.map(async (locator, index) => ...))]:
    every probe catches its own rejection, so all of them are fulfilled.
    [i] is the index of the head of [candidates]. *)
Fixpoint visibilityChecksFrom (isVisible : Locator -> Settled bool)
  (i : nat) (candidates : list Locator) : M Event (list Check) :=
  match candidates with
  | [] => ret []
  | l :: rest =>
      v <- isVisibleOrFalse isVisible l ;;
      checks <- visibilityChecksFrom isVisible (S i) rest ;;
      ret ({| index := i; checked := l; visible := v |} :: checks)
  end.

Definition visibilityChecks (isVisible : Locator -> Settled bool)
  (candidates : list Locator) : M Event (list Check) :=
  visibilityChecksFrom isVisible 0 candidates.

(** What a call of [findChatInputCandidates] observes. *)
Record InputWorld := {
  (** [locator.isVisible()] in the parallel check *)
  inputVisible : Locator -> Settled bool;
  (** [locator.waitFor({ timeout: 300, state: 'visible' })] resolves *)
  inputAppears : Locator -> bool
}.

(** The sequential fallback of [findChatInputCandidates]. *)
Fixpoint waitForEach (w : InputWorld) (i : nat) (candidates : list Locator)
  : M Event (option Locator) :=
  match candidates with
  | [] => ret None
  | inputLocator :: rest =>
      tryCatch
        (await (WaitFor inputLocator 300) (inputAppears w inputLocator) ;;
         logAt info "Resolved chat input (fallback)" i ;;
         ret (Some inputLocator))
        (fun _ => waitForEach w (S i) rest)
  end.

(** The body of [findChatInputCandidates] for a given candidate array. *)
Definition findAmong (w : InputWorld) (candidates : list Locator)
  : M Event (option Locator) :=
  checks <- visibilityChecks (inputVisible w) candidates ;;
  match List.find visible checks with
  | Some r =>
      logAt info "Resolved chat input" (index r) ;;
      ret (Some (checked r))
  | None => waitForEach w 0 candidates
  end.

Definition chatInputCandidates (host : ZoomSurface) : list Locator :=
  [ getByRole host "textbox" "/Chat Input/i";
    getByRole host "textbox" "/Message/i";
    getByRole host "textbox" "/Type.*message/i";
    locator host "[contenteditable=true][role=textbox]";
    locator host "[contenteditable=true][data-placeholder]";
    locator host "[contenteditable=true].chat-box__chat-textarea";
    locator host ".chat-box__chat-textarea";
    locator host "textarea[placeholder*=message i]";
    locator host "textarea[placeholder*=type i]";
    locator host "input[placeholder*=message i]";
    locator host "div[contenteditable=true]" ].

Definition findChatInputCandidates (w : InputWorld) (host : ZoomSurface)
  (context : string) : M Event (option Locator) :=
  findAmong w (chatInputCandidates host).

(* ================================================================== *)
(** * Modal dismissal *)
(* ================================================================== *)

(** What a call of [dismissBlockingModals] observes. *)
Record ModalWorld := {
  initialCount : Settled nat;       (* first [overlayLocator.count()] *)
  dismissClick : string -> bool;    (* click on a dismiss selector resolves *)
  escapePress : bool;               (* [press('Escape')] resolves *)
  remainingCount : Settled nat;     (* second [overlayLocator.count()] *)
  forceRemove : Settled nat         (* number of portals removed by the script *)
}.

Definition overlayLocator : Locator :=
  locator surface ".ReactModal__Overlay--after-open".

Definition dismissSelectors : list string :=
  [ "button:has-text(Got it)";
    "button:has-text(Got It)";
    "button:has-text(OK)";
    "button:has-text(Close)";
    "button:has-text(Continue)";
    "[aria-label=Close]";
    "[aria-label=close]";
    ".zm-modal__close";
    ".ReactModalPortal button[aria-label]" ].

Definition dismissBlockingModals (w : ModalWorld) (context : string)
  : M Event unit :=
  count0 <- awaitValue (Count overlayLocator) (initialCount w) ;;
  if count0 =? 0 then ret tt
  else
    log warn "Blocking overlay detected" ;;
    forEach dismissSelectors (fun selector =>
      tryCatch
        (await (Click (locator surface selector) 300) (dismissClick w selector) ;;
         log info "Clicked modal dismiss control")
        (fun _ => ret tt)) ;;
    tryCatch (await (Press body "Escape") (escapePress w)) (fun _ => ret tt) ;;
    waitForTimeout 200 ;;
    remaining <- awaitValue (Count overlayLocator) (remainingCount w) ;;
    if 0 <? remaining then
      log warn "Blocking overlay still present, force removing" ;;
      tryCatch
        (_ <- awaitValue (Evaluate "remove .ReactModalPortal") (forceRemove w) ;;
         log warn "Force removed ReactModal portals")
        (fun _ => log error "Failed to force-remove modal portals") ;;
      waitForTimeout 150
    else
      log info "Blocking overlay dismissed".

(* ================================================================== *)
(** * Join submission *)
(* ================================================================== *)

(** What a call of [submitJoin] observes. *)
Record JoinWorld := {
  joinModals : ModalWorld;
  joinVisible : Locator -> Settled bool;  (* parallel check *)
  joinClick : Locator -> bool;            (* click on a button seen visible *)
  joinClickFallback : Locator -> bool;    (* click in the fallback loop *)
  enterPress : bool                       (* [press('Enter')] on the body *)
}.

Definition joinCandidates : list Locator :=
  [ getByRole surface "button" "/^Join(?: Meeting)?$/i";
    locator surface "button:has-text(Join)";
    locator surface "[data-qa=join-meeting]" ].

(** The fallback loop of [submitJoin] and the Enter key after it. *)
Fixpoint clickEach (w : JoinWorld) (i : nat) (candidates : list Locator)
  : M Event unit :=
  match candidates with
  | [] =>
      log warn "Join button not found via selectors, sending Enter key fallback" ;;
      await (Press body "Enter") (enterPress w) ;;
      waitForTimeout 200
  | l :: rest =>
      tryCatch
        (await (Click l 1000) (joinClickFallback w l) ;;
         logAt info "Clicked Join button (fallback)" i ;;
         waitForTimeout 200)
        (fun _ => clickEach w (S i) rest)
  end.

(** The body of [submitJoin] for a given candidate array. *)
Definition submitJoinAmong (w : JoinWorld) (candidates : list Locator)
  : M Event unit :=
  dismissBlockingModals (joinModals w) "before-join" ;;
  checks <- visibilityChecks (joinVisible w) candidates ;;
  match List.find visible checks with
  | Some r =>
      await (Click (checked r) 1000) (joinClick w (checked r)) ;;
      logAt info "Clicked Join button" (index r) ;;
      waitForTimeout 200
  | None => clickEach w 0 candidates
  end.

Definition submitJoin (w : JoinWorld) : M Event unit :=
  submitJoinAmong w joinCandidates.

(* ================================================================== *)
(** * Diagnostics captured by the runner *)
(* ================================================================== *)

(** [captureDomSnapshot]: two [evaluateAll] previews under
    [Promise.all]; [ok] tells whether both resolve. Never throws. *)
Definition captureDomSnapshot (ok : bool) (reason : string) : M Event unit :=
  tryCatch
    (emit (EvaluateAll (locator surface "button")) ;;
     await (EvaluateAll (locator surface
              "[role=textbox], textarea, input[type=text], [contenteditable=true]")) ok ;;
     log debug "DOM snapshot")
    (fun _ => log debug "Failed to capture DOM snapshot").

(** [captureDebugScreenshot]: [page] is [None] when [this.currentPage]
    is unset, [Some ok] when the screenshot resolves iff [ok]. *)
Definition captureDebugScreenshot (page : option bool) (label : string)
  : M Event unit :=
  match page with
  | None => log debug "Skipping screenshot (no page available)"
  | Some ok =>
      tryCatch
        (await (Screenshot label) ok ;;
         log debug "Captured debug screenshot")
        (fun _ => log debug "Failed to capture screenshot")
  end.

(* ================================================================== *)
(** * Admission detection *)
(* ================================================================== *)

(** What a call of [waitForAdmission] observes. *)
Record AdmissionWorld := {
  indicatorVisible : Locator -> Settled bool; (* the six parallel probes *)
  leaveAppears : nat -> bool;   (* [leaveButton.waitFor] of an attempt resolves *)
  snapshotOk : nat -> bool;     (* DOM snapshot of an attempt *)
  errorVisible : nat -> Settled bool; (* terminal-state text after an attempt *)
  admissionPage : option bool   (* [this.currentPage] and its screenshot *)
}.

Definition leaveButton : Locator := getByRole surface "button" "/Leave/i".
Definition waitingText : Locator := locator surface "text=/waiting|lobby|admitted/i".
Definition joinAudioButton : Locator := locator surface "[aria-label*=join audio i]".
Definition participantsButton : Locator := locator surface "[aria-label*=participant i]".
Definition chatButton : Locator := locator surface "[aria-label*=chat i]".
Definition videoButton : Locator := locator surface "[aria-label*=video i]".
Definition errorText : Locator :=
  locator surface "text=/ended|closed|removed|invalid|error/i".

Definition stateIndicators : list (string * Locator) :=
  [ ("leaveButton", leaveButton);
    ("waitingText", waitingText);
    ("joinAudioButton", joinAudioButton);
    ("participantsButton", participantsButton);
    ("chatButton", chatButton);
    ("videoButton", videoButton) ].

(** [Promise.allSettled([... .isVisible().then(v => ({ name, visible: v }))])]
    followed by the filter on ['fulfilled']: a rejected probe leaves no
    entry in [visibilityState]. *)
Fixpoint probeIndicators (isVisible : Locator -> Settled bool)
  (indicators : list (string * Locator)) : M Event (list (string * bool)) :=
  match indicators with
  | [] => ret []
  | (n, l) :: rest =>
      emit (IsVisible l) ;;
      state <- probeIndicators isVisible rest ;;
      ret (match isVisible l with
           | Fulfilled v => (n, v) :: state
           | Rejected => state
           end)
  end.

Definition inMeetingNames : list string :=
  [ "joinAudioButton"; "participantsButton"; "chatButton"; "videoButton" ].

Definition isInMeetingButton (s : string * bool) : bool :=
  existsb (String.eqb (fst s)) inMeetingNames && snd s.

(** [Math.ceil(lobbyTimeoutMs / pollInterval)] on non-negative integers. *)
Definition pollInterval : N := 1000.
Definition maxAttempts (cfg : AppConfig) : nat :=
  N.to_nat ((lobbyTimeoutMs cfg + (pollInterval - 1)) / pollInterval)%N.

(** The lobby polling loop: [remaining] attempts are left, the next one
    is number [attempt]. *)
Fixpoint lobbyLoop (cfg : AppConfig) (w : AdmissionWorld)
  (remaining attempt : nat) : M Event unit :=
  match remaining with
  | 0 =>
      captureDebugScreenshot (admissionPage w) "lobby-timeout" ;;
      throw (LobbyTimeout (lobbyTimeoutMs cfg))
  | S remaining' =>
      joined <-
        tryCatch
          (await (WaitFor leaveButton pollInterval) (leaveAppears w attempt) ;;
           logAt info "Meeting joined successfully" attempt ;;
           ret true)
          (fun _ =>
             captureDomSnapshot (snapshotOk w attempt) "lobby-wait-attempt" ;;
             logAt debug "Still waiting for admission" attempt ;;
             hasError <- isVisibleOrFalse (fun _ => errorVisible w attempt) errorText ;;
             if (hasError : bool) then
               captureDebugScreenshot (admissionPage w) "meeting-error-state" ;;
               throw MeetingErrorState
             else ret false) ;;
      if (joined : bool) then ret tt
      else lobbyLoop cfg w remaining' (S attempt)
  end.

(** [waitForAdmission]; the value is what it stores in
    [this.leaveButton]. *)
Definition waitForAdmission (cfg : AppConfig) (w : AdmissionWorld)
  : M Event Locator :=
  log info "Waiting to be admitted to the meeting" ;;
  waitForTimeout 500 ;;
  log debug "Checking meeting state indicators" ;;
  visibilityState <- probeIndicators (indicatorVisible w) stateIndicators ;;
  log info "Meeting state after join" ;;
  let inMeetingButtons := List.filter isInMeetingButton visibilityState in
  if 2 <=? List.length inMeetingButtons then
    log info "Detected in-meeting UI, skipping lobby wait" ;;
    ret leaveButton
  else
    log info "Waiting for Leave button to appear (admission indicator)" ;;
    lobbyLoop cfg w (maxAttempts cfg) 1 ;;
    ret leaveButton.

(* ================================================================== *)
(** * Chat input resolution and activation *)
(* ================================================================== *)

(** What a call of [resolveChatInput] observes. *)
Record ResolveWorld := {
  inputs : InputWorld;
  otherFrames : list string;  (* labels of [page.frames()] but the primary *)
  analysisOk : bool           (* the chat panel analysis script resolves *)
}.

(** The loop of [resolveChatInput] over the other frames. *)
Fixpoint searchFrames (w : InputWorld) (frames : list string)
  : M Event (option Locator) :=
  match frames with
  | [] => ret None
  | frameLabel :: rest =>
      candidate <- findChatInputCandidates w (otherFrame frameLabel)
                     ("frame:" +:+ frameLabel) ;;
      match candidate with
      | Some c => ret (Some c)
      | None => searchFrames w rest
      end
  end.

Definition resolveChatInput (w : ResolveWorld) : M Event (option Locator) :=
  log debug "Searching for chat input in primary surface" ;;
  primary <- findChatInputCandidates (inputs w) surface "surface" ;;
  match primary with
  | Some p => ret (Some p)
  | None =>
      log debug "Chat input not in primary surface, searching all frames" ;;
      candidate <- searchFrames (inputs w) (otherFrames w) ;;
      match candidate with
      | Some c => ret (Some c)
      | None =>
          log debug "Analyzing chat panel structure" ;;
          tryCatch
            (await (Evaluate "chat panel analysis") (analysisOk w) ;;
             log debug "Chat panel analysis")
            (fun _ => log debug "Failed to analyze chat panel") ;;
          ret None
      end
  end.

(** A textarea met by strategy 6 of the activation ladder. *)
Record Textarea := {
  textareaVisible : Settled bool;
  (** [{ id, className }] of the element, [None] when the script fails *)
  textareaAttrs : option (string * string)
}.

(** What a call of [tryActivateChatInput] observes. *)
Record ActivationWorld := {
  panelClick : bool;
  afterPanelClick : InputWorld;
  tabPress : nat -> bool;
  afterTabKeys : InputWorld;
  toggleClick : nat -> bool;
  afterToggle : InputWorld;
  afterLongWait : InputWorld;
  editableVisible : Settled bool;
  textareas : Settled (list Textarea);
  controlT : bool;
  afterControlT : InputWorld
}.

(** One rung of the ladder: [try { ...; if (input) return true } catch
    { log }]. The value tells whether the method returned [true]. *)
Definition strategy (failed : string) (body : M Event bool) : M Event bool :=
  tryCatch body (fun _ => log debug failed ;; ret false).

Definition found (succeeded : string) (input : option Locator) : M Event bool :=
  match input with
  | Some _ => log info succeeded ;; ret true
  | None => ret false
  end.

(** The loop of strategy 6 over [allTextareas.entries()]. *)
Fixpoint scanTextareas (all : Locator) (i : nat) (l : list Textarea)
  : M Event bool :=
  match l with
  | [] => ret false
  | t :: rest =>
      isVisible <- isVisibleOrFalse (fun _ => textareaVisible t) (nthOf all i) ;;
      if (isVisible : bool) then
        emit (Evaluate "textarea attributes") ;;
        logAt debug "Visible textarea found" i ;;
        match textareaAttrs t with
        | Some (id, className) =>
            if negb (includes className "hideme") && negb (includes id "email")
            then logAt info "Strategy 6 found visible textarea" i ;; ret true
            else scanTextareas all (S i) rest
        | None => scanTextareas all (S i) rest
        end
      else scanTextareas all (S i) rest
  end.

(** Runs the rungs in order and stops at the first that returns [true]. *)
Fixpoint ladder (rungs : list (M Event bool)) : M Event bool :=
  match rungs with
  | [] => log warn "All activation strategies failed" ;; ret false
  | rung :: rest =>
      activated <- rung ;;
      if (activated : bool) then ret true else ladder rest
  end.

Definition tryActivateChatInput (w : ActivationWorld) : M Event bool :=
  ladder
    [ log info "Strategy 1: Clicking inside chat panel area" ;;
      strategy "Strategy 1 failed"
        (await (Click (locator surface "[id*=chat i], [class*=chat i]") 500)
               (panelClick w) ;;
         waitForTimeout 200 ;;
         input1 <- findChatInputCandidates (afterPanelClick w) surface
                     "after-panel-click" ;;
         found "Strategy 1 successful" input1);
      log info "Strategy 2: Using Tab key to focus chat input" ;;
      strategy "Strategy 2 failed"
        (await (Press body "Tab") (tabPress w 0) ;;
         waitForTimeout 100 ;;
         await (Press body "Tab") (tabPress w 1) ;;
         waitForTimeout 100 ;;
         await (Press body "Tab") (tabPress w 2) ;;
         waitForTimeout 200 ;;
         input2 <- findChatInputCandidates (afterTabKeys w) surface
                     "after-tab-keys" ;;
         found "Strategy 2 successful" input2);
      log info "Strategy 3: Clicking chat button again (toggle)" ;;
      strategy "Strategy 3 failed"
        (await (Click chatButton 500) (toggleClick w 0) ;;
         waitForTimeout 200 ;;
         await (Click chatButton 500) (toggleClick w 1) ;;
         waitForTimeout 300 ;;
         input3 <- findChatInputCandidates (afterToggle w) surface
                     "after-toggle" ;;
         found "Strategy 3 successful" input3);
      log info "Strategy 4: Waiting longer for lazy loading" ;;
      strategy "Strategy 4 failed"
        (waitForTimeout 1000 ;;
         input4 <- findChatInputCandidates (afterLongWait w) surface
                     "after-long-wait" ;;
         found "Strategy 4 successful" input4);
      log info "Strategy 5: Searching for ANY visible contenteditable" ;;
      strategy "Strategy 5 failed"
        (isVisible <- isVisibleOrFalse (fun _ => editableVisible w)
                        (locator surface "[contenteditable=true]") ;;
         if (isVisible : bool)
         then log info "Strategy 5 found contenteditable" ;; ret true
         else ret false);
      log info "Strategy 6: Checking all visible textareas" ;;
      strategy "Strategy 6 failed"
        (allTextareas <- awaitValue (LocatorAll (locator surface "textarea"))
                           (textareas w) ;;
         log debug "Found textareas" ;;
         scanTextareas (locator surface "textarea") 0 allTextareas);
      log info "Strategy 7: Trying keyboard shortcut Ctrl+T (chat focus)" ;;
      strategy "Strategy 7 failed"
        (await (Press body "Control+T") (controlT w) ;;
         waitForTimeout 300 ;;
         input7 <- findChatInputCandidates (afterControlT w) surface
                     "after-ctrl-t" ;;
         found "Strategy 7 successful" input7) ].

(* ================================================================== *)
(** * Sending the configured message *)
(* ================================================================== *)

(** What a call of [sendChatMessage] observes. *)
Record ChatSendWorld := {
  chatModals : ModalWorld;
  chatButtonVisible : Locator -> Settled bool;
  chatButtonClick : Locator -> bool;
  altH : bool;
  firstResolve : ResolveWorld;
  activation : ActivationWorld;
  missingSnapshotOk : bool;
  chatPage : option bool;
  secondResolve : ResolveWorld;
  messageFill : bool;
  messagePress : bool
}.

Definition chatButtons : list Locator :=
  [ getByRole surface "button" "/^Chat$/i";
    getByRole surface "button" "/Open Chat/i";
    getByRole surface "button" "/Chat Panel/i";
    locator surface "[aria-label*=chat i]";
    locator surface "[data-qa=chat-button]" ].

(** The loop over [chatVisibilityChecks]; the value is
    [clickedChatButton]. *)
Fixpoint clickVisible (click : Locator -> bool) (checks : list Check)
  : M Event bool :=
  match checks with
  | [] => ret false
  | r :: rest =>
      if visible r then
        tryCatch
          (await (Click (checked r) 500) (click (checked r)) ;;
           logAt info "Opened chat via button" (index r) ;;
           ret true)
          (fun _ => clickVisible click rest)
      else clickVisible click rest
  end.

Definition sendChatMessage (cfg : AppConfig) (w : ChatSendWorld)
  : M Event unit :=
  if String.eqb (messageText cfg) EmptyString then
    log info "MESSAGE_TEXT is empty, skipping chat"
  else
    log info "Sending chat message" ;;
    dismissBlockingModals (chatModals w) "before-chat-open" ;;
    chatVisibilityChecks <- visibilityChecks (chatButtonVisible w) chatButtons ;;
    clickedChatButton <- clickVisible (chatButtonClick w) chatVisibilityChecks ;;
    (if (clickedChatButton : bool) then waitForTimeout 300
     else
       log warn "Chat button not found, trying Alt+H shortcut" ;;
       await (Press body "Alt+H") (altH w) ;;
       waitForTimeout 300) ;;
    resolvedInput <- resolveChatInput (firstResolve w) ;;
    match resolvedInput with
    | Some _ => ret tt
    | None =>
        log warn "Chat input not found, trying activation strategies" ;;
        activated <- tryActivateChatInput (activation w) ;;
        if (activated : bool) then log info "Chat input successfully activated"
        else
          captureDomSnapshot (missingSnapshotOk w) "chat-input-missing" ;;
          captureDebugScreenshot (chatPage w) "chat-input-missing" ;;
          throw ChatInputMissing
    end ;;
    log info "Filling chat input" ;;
    finalInput <- match resolvedInput with
                  | Some i => ret (Some i)
                  | None => resolveChatInput (secondResolve w)
                  end ;;
    match finalInput with
    | None => throw ChatInputDisappeared
    | Some input =>
        await (Fill input (messageText cfg)) (messageFill w) ;;
        await (Press input "Enter") (messagePress w) ;;
        log info "Chat message sent"
    end.

(* ================================================================== *)
(** * The monitoring loop *)
(* ================================================================== *)

(** What a call of [sendQuickReply] observes. *)
Record ReplyWorld := {
  replyResolve : ResolveWorld;
  replyFill : bool;
  replyPress : bool
}.

Definition sendQuickReply (w : ReplyWorld) (message : string) : M Event unit :=
  tryCatch
    (input <- resolveChatInput (replyResolve w) ;;
     match input with
     | None => log warn "Chat input not found for reply"
     | Some input =>
         await (Fill input message) (replyFill w) ;;
         await (Press input "Enter") (replyPress w) ;;
         log debug "Reply sent successfully"
     end)
    (fun _ => log warn "Failed to send reply").

(** One iteration of [while (true)]: what the poll of the chat panel
    yields, and what the reply to its [i]-th message would observe. *)
Record PollStep := {
  polled : Settled (list ChatMessage);
  replyWorld : nat -> ReplyWorld
}.

Definition messageKey (msg : ChatMessage) : string :=
  name msg +:+ ":" +:+ text msg.

Definition isBotOwnMessage (cfg : AppConfig) (msg : ChatMessage) : bool :=
  String.eqb (name msg) (botName cfg)
  || String.eqb (text msg) "roger"
  || String.eqb (text msg) "dong"
  || String.eqb (text msg) "I'm in.".

Definition maxConsecutiveErrors : nat := 10.

(** The trace of the monitoring loop keeps each reply apart: [Reply msg
    token ops] is the call [sendQuickReply(surface, token)] made while
    [msg] is being processed, with the operations [ops] it performed. *)
Inductive MonitorEvent :=
| Did (op : Event)
| Reply (msg : ChatMessage) (token : string) (ops : list Event).

Definition did {A} (m : M Event A) : M MonitorEvent A :=
  (List.map Did (trace m), result m).

Definition reply (msg : ChatMessage) (token : string) (m : M Event unit)
  : M MonitorEvent unit :=
  ([Reply msg token (trace m)], result m).

(** The operations of a monitoring trace, in order. *)
Definition operations (t : list MonitorEvent) : list Event :=
  List.concat (List.map (fun ev => match ev with
                                   | Did op => [op]
                                   | Reply _ _ ops => ops
                                   end) t).

(** The replies of a monitoring trace: which message, which token. *)
Fixpoint replies (t : list MonitorEvent) : list (ChatMessage * string) :=
  match t with
  | [] => []
  | Did _ :: rest => replies rest
  | Reply msg token _ :: rest => (msg, token) :: replies rest
  end.

(** How a run of the loop over a finite script of polls ends: the
    method returned, or the script is exhausted and the loop is about
    to poll again with this state. *)
Inductive MonitorEnd :=
| Returned
| Polling (seenMessages : gset string) (consecutiveErrors : nat).

Section Monitor.
Context `{StringOps}.
Variable cfg : AppConfig.

(** [for (const msg of messages) { ... }] from the [i]-th message on.
    The value is [None] when the method returned on a quit command,
    and [seenMessages] after the loop otherwise. *)
Fixpoint processMessages (rw : nat -> ReplyWorld) (i : nat)
  (seenMessages : gset string) (messages : list ChatMessage)
  : M MonitorEvent (option (gset string)) :=
  match messages with
  | [] => ret (Some seenMessages)
  | msg :: rest =>
      if bool_decide (messageKey msg ∈ seenMessages) then
        processMessages rw (S i) seenMessages rest
      else
        let seenMessages := {[ messageKey msg ]} ∪ seenMessages in
        if isBotOwnMessage cfg msg then
          did (log debug "Skipping bot's own message") ;;
          processMessages rw (S i) seenMessages rest
        else
          did (log info "New message received") ;;
          let textLower := trim (toLowerCase (text msg)) in
          if String.eqb textLower "quit" then
            did (log info "Received quit command, exiting") ;;
            ret None
          else
            let botNameLower := toLowerCase (botName cfg) in
            let mentionsBot := includes textLower botNameLower in
            (if mentionsBot then
               did (log info "Bot was mentioned, replying with dong") ;;
               reply msg "dong" (sendQuickReply (rw i) "dong")
             else
               did (log info "Replying with roger") ;;
               reply msg "roger" (sendQuickReply (rw i) "roger")) ;;
            processMessages rw (S i) seenMessages rest
  end.

(** [while (true) { try { ... } catch (error) { ... } }]. With waits that
    resolve, the only operation of the [try] block that can throw is the
    poll itself, so the handler finds [seenMessages] as the iteration
    found it. *)
Fixpoint monitorLoop (polls : list PollStep) (seenMessages : gset string)
  (consecutiveErrors : nat) : M MonitorEvent MonitorEnd :=
  match polls with
  | [] => ret (Polling seenMessages consecutiveErrors)
  | p :: rest =>
      next <-
        tryCatch
          (messages <- did (awaitValue (Evaluate "chat messages") (polled p)) ;;
           seen <- processMessages (replyWorld p) 0 seenMessages messages ;;
           match seen with
           | None => ret Returned
           | Some seenMessages =>
               let consecutiveErrors := 0 in
               did (waitForTimeout 500) ;;
               ret (Polling seenMessages consecutiveErrors)
           end)
          (fun _ =>
             let consecutiveErrors := S consecutiveErrors in
             did (log debug "Error monitoring messages") ;;
             if maxConsecutiveErrors <=? consecutiveErrors then
               did (log error "Too many consecutive errors, stopping monitoring") ;;
               throw MonitoringFailed
             else
               did (waitForTimeout 1000) ;;
               ret (Polling seenMessages consecutiveErrors)) ;;
      match next with
      | Returned => ret Returned
      | Polling seenMessages consecutiveErrors =>
          monitorLoop rest seenMessages consecutiveErrors
      end
  end.

Definition monitorChatMessages (polls : list PollStep)
  : M MonitorEvent MonitorEnd :=
  did (log info "Starting continuous message monitoring") ;;
  monitorLoop polls ∅ 0.

End Monitor.

(* ================================================================== *)
(** * Leaving the meeting *)
(* ================================================================== *)

(** What a call of [leaveMeeting] observes. *)
Record LeaveWorld := {
  leaveStrategy : nat -> bool;     (* the action of a strategy resolves *)
  confirmClick : Locator -> bool   (* click on a confirmation button resolves *)
}.

(** [for (const [index, strategy] of leaveStrategies.entries())]; the
    value is [leftSuccessfully]. *)
Fixpoint tryLeave (i : nat) (strategies : list (M Event unit)) : M Event bool :=
  match strategies with
  | [] => ret false
  | strategy :: rest =>
      tryCatch
        (strategy ;;
         waitForTimeout 300 ;;
         ret true)
        (fun _ =>
           logAt debug "Leave strategy failed" i ;;
           tryLeave (S i) rest)
  end.

Definition confirmButtons : list Locator :=
  [ getByRole surface "button" "/Leave Meeting/i";
    locator surface "button:has-text(Leave Meeting)";
    locator surface "button:has-text(Leave)" ].

Fixpoint confirmLeave (w : LeaveWorld) (buttons : list Locator) : M Event unit :=
  match buttons with
  | [] => log debug "No leave confirmation dialog found"
  | btn :: rest =>
      tryCatch
        (await (Click btn 1000) (confirmClick w btn) ;;
         log info "Confirmed leave meeting")
        (fun _ => confirmLeave w rest)
  end.

(** [leaveMeeting]; [stored] is [this.leaveButton]. *)
Definition leaveMeeting (cfg : AppConfig) (w : LeaveWorld)
  (stored : option Locator) : M Event unit :=
  log info "Leaving meeting" ;;
  waitForTimeout (postLeaveDelayMs cfg) ;;
  let leaveButton := default (getByRole surface "button" "/Leave/i") stored in
  let leaveStrategies :=
    [ await (Click leaveButton 1000) (leaveStrategy w 0) ;;
      log debug "Clicked Leave button";
      await (Click (locator surface "button:has-text(End)") 1000)
            (leaveStrategy w 1) ;;
      log debug "Clicked End button";
      await (Click (locator surface "[aria-label*=leave i], [aria-label*=end i]")
                   1000) (leaveStrategy w 2) ;;
      log debug "Clicked leave/end via aria-label";
      await (Press body "Alt+Q") (leaveStrategy w 3) ;;
      log debug "Pressed Alt+Q shortcut" ] in
  leftSuccessfully <- tryLeave 0 leaveStrategies ;;
  if (leftSuccessfully : bool) then
    tryCatch
      (confirmLeave w confirmButtons)
      (fun _ => log debug "Leave confirmation attempt failed")
  else
    log warn "All leave strategies failed, meeting may not be exited cleanly".

(* ================================================================== *)
(** * The workflow *)
(* ================================================================== *)

Definition acceptCookies (clickOk : bool) : M Event unit :=
  tryCatch
    (await (Click (locator surface "button:has-text(Accept Cookies)") 1000) clickOk ;;
     log debug "Accepted cookie dialog")
    (fun _ => log debug "No cookie dialog detected").

(** What [resolveSurface] observes, and what it returns. *)
Record SurfaceWorld := {
  iframeHandle : Settled bool;   (* [page.$('iframe#webclient')] is non-null *)
  contentFrame : Settled bool;   (* [iframeHandle.contentFrame()] is non-null *)
  namedFrame : bool              (* [page.frame({ name: 'webclient' })] is non-null *)
}.

Inductive Resolved := IframeContent | NamedFrame | ThePage.

Definition resolveSurface (w : SurfaceWorld) : M Event Resolved :=
  iframeHandle <- awaitValue (Query "iframe#webclient") (iframeHandle w) ;;
  frame <- (if (iframeHandle : bool)
            then awaitValue (Query "contentFrame") (contentFrame w)
            else ret false) ;;
  if (frame : bool) then ret IframeContent
  else if namedFrame w then ret NamedFrame else ret ThePage.

Definition nameInput : Locator := locator surface "input[type=text]".

Definition fillDisplayName (cfg : AppConfig) (waitOk fillOk : bool)
  : M Event unit :=
  await (WaitFor nameInput (nameInputTimeoutMs cfg)) waitOk ;;
  await (Fill nameInput (botName cfg)) fillOk ;;
  log info "Filled display name".

(** Everything a session observes, stage by stage. *)
Record SessionWorld := {
  gotoOk : bool;
  cookieClick : bool;
  surfaces : SurfaceWorld;
  nameWaitOk : bool;
  nameFillOk : bool;
  join : JoinWorld;
  admission : AdmissionWorld;
  chat : ChatSendWorld;
  polls : list PollStep;
  leave : LeaveWorld;
  pageIsClosed : bool;         (* [page.isClosed()] in the handler *)
  failureScreenshot : bool     (* the failure screenshot resolves *)
}.

(** The methods [joinAndChat] calls, and its own last steps. *)
Inductive Stage :=
| Navigate
| AcceptCookies
| ResolveSurface
| FillDisplayName
| SubmitJoin
| WaitForAdmission
| SendChatMessage
| MonitorChatMessages
| LeaveMeeting
| WorkflowCompleted
| FailureCapture.

(** The trace of the workflow lists the stages entered, each with the
    operations it performed. *)
Definition stage {A} (s : Stage) (m : M Event A) : M (Stage * list Event) A :=
  ([(s, trace m)], result m).

Definition flat {A} (m : M MonitorEvent A) : M Event A :=
  (operations (trace m), result m).

(** How the modelled part of [joinAndChat] ends when it does not throw:
    it completed, or the monitoring loop is still polling. *)
Inductive WorkflowEnd := Completed | StillMonitoring.

Section Workflow.
Context `{StringOps}.

Definition joinAndChat (cfg : AppConfig) (w : SessionWorld)
  : M (Stage * list Event) WorkflowEnd :=
  tryCatch
    (stage Navigate
       (await (Goto (webClientUrl cfg) (navigationTimeoutMs cfg)) (gotoOk w)) ;;
     stage AcceptCookies (acceptCookies (cookieClick w)) ;;
     _ <- stage ResolveSurface (resolveSurface (surfaces w)) ;;
     stage FillDisplayName (fillDisplayName cfg (nameWaitOk w) (nameFillOk w)) ;;
     stage SubmitJoin (submitJoin (join w)) ;;
     stored <- stage WaitForAdmission (waitForAdmission cfg (admission w)) ;;
     stage SendChatMessage (sendChatMessage cfg (chat w)) ;;
     monitored <- (if monitorMessages cfg
                   then stage MonitorChatMessages
                          (flat (monitorChatMessages cfg (polls w)))
                   else ret Returned) ;;
     match monitored with
     | Polling _ _ => ret StillMonitoring
     | Returned =>
         stage LeaveMeeting (leaveMeeting cfg (leave w) (Some stored)) ;;
         stage WorkflowCompleted (log info "Workflow completed") ;;
         ret Completed
     end)
    (fun error =>
       if pageIsClosed w then throw error
       else
         stage FailureCapture
           (tryCatch (await (Screenshot "zoom-runner-failure") (failureScreenshot w))
                     (fun _ => ret tt)) ;;
         throw error).

End Workflow.

(* ================================================================== *)
(** * The web-client address *)
(* ================================================================== *)

(** The [URL] objects of the engine: [new URL(s)], where [None] stands
    for the [TypeError] it throws, the getter and the setter of
    [pathname], and [toString].  They are the engine's, not the
    repository's: the development is parametric in them. *)
Class UrlEngine := {
  URL : Type;
  newURL : string -> option URL;
  pathname : URL -> string;
  setPathname : URL -> string -> URL;
  toString : URL -> string
}.



(** An engine to evaluate the model on.  It covers the addresses that are
    already in the engine's normal form, of two shapes: a special scheme
    ([http], [https], [ws], [wss], [ftp]) followed by [//], a host of
    lower-case letters and dots, a path of letters, digits, [/], [_], [~]
    and [-], a query and a fragment; and another scheme (but [file])
    followed by a non-empty opaque path, which does not start with a
    slash.  On
    these the engine's parser changes nothing but an empty path of the
    first shape, which becomes [/].  For every other string [parse]
    returns [None], whether the engine would throw or not. *)
Module Url.

Record URL := {
  scheme : string;    (* [protocol] without its colon *)
  opaque : bool;      (* the URL has an opaque path *)
  host : string;      (* empty when the path is opaque *)
  pathname : string;
  search : string;
  hash : string
}.

Fixpoint all (p : ascii -> bool) (s : string) : bool :=
  match s with
  | EmptyString => true
  | String c s' => p c && all p s'
  end.

Definition nonempty (s : string) : bool :=
  match s with EmptyString => false | _ => true end.

Definition is_lower (c : ascii) : bool :=
  let n := nat_of_ascii c in (97 <=? n) && (n <=? 122).
Definition is_upper (c : ascii) : bool :=
  let n := nat_of_ascii c in (65 <=? n) && (n <=? 90).
Definition is_digit (c : ascii) : bool :=
  let n := nat_of_ascii c in (48 <=? n) && (n <=? 57).

Definition is_scheme_char (c : ascii) : bool :=
  is_lower c || is_digit c
  || Ascii.eqb c "+" || Ascii.eqb c "-" || Ascii.eqb c ".".
Definition is_host_char (c : ascii) : bool :=
  is_lower c || Ascii.eqb c ".".
Definition is_path_char (c : ascii) : bool :=
  is_lower c || is_upper c || is_digit c
  || Ascii.eqb c "/" || Ascii.eqb c "_" || Ascii.eqb c "~" || Ascii.eqb c "-".
Definition is_opaque_char (c : ascii) : bool :=
  is_path_char c || Ascii.eqb c ".".
Definition is_query_char (c : ascii) : bool :=
  is_lower c || is_upper c || is_digit c
  || Ascii.eqb c "=" || Ascii.eqb c "&" || Ascii.eqb c "_"
  || Ascii.eqb c "~" || Ascii.eqb c "." || Ascii.eqb c "-".

Definition is_slash (c : ascii) : bool := Ascii.eqb c "/".
Definition is_hash (c : ascii) : bool := Ascii.eqb c "#".
Definition is_query_or_hash (c : ascii) : bool :=
  Ascii.eqb c "?" || Ascii.eqb c "#".

Definition special (sch : string) : bool :=
  existsb (String.eqb sch) ["http"; "https"; "ws"; "wss"; "ftp"].

(** Splits [s] before its first character that satisfies [stop]. *)
Fixpoint break (stop : ascii -> bool) (s : string) : string * string :=
  match s with
  | EmptyString => (EmptyString, EmptyString)
  | String c s' =>
      if stop c then (EmptyString, s)
      else let '(a, b) := break stop s' in (String c a, b)
  end.

Fixpoint endsWithDot (s : string) : bool :=
  match s with
  | EmptyString => false
  | String c EmptyString => Ascii.eqb c "."
  | String _ s' => endsWithDot s'
  end.

Definition wellScheme (sch : string) : bool :=
  match sch with
  | String c _ => is_lower c
  | EmptyString => false
  end.

Definition wellHost (h : string) : bool :=
  match h with
  | String c _ =>
      is_lower c && all is_host_char h && negb (endsWithDot h)
      && negb (includes h "..")
  | EmptyString => false
  end.

(** A query or a fragment: empty, or its [mark] and at least one
    character. *)
Definition wellPart (mark : ascii) (part : string) : bool :=
  match part with
  | EmptyString => true
  | String c rest => Ascii.eqb c mark && nonempty rest && all is_query_char rest
  end.

(** [s] starts with the character [c]. *)
Definition startsWith (c : ascii) (s : string) : bool :=
  match s with
  | String x _ => Ascii.eqb x c
  | EmptyString => false
  end.

Definition parse (s : string) : option URL :=
  let '(sch, r1) := break (fun c => negb (is_scheme_char c)) s in
  if negb (startsWith ":" r1) then None
  else
    let '(body, r3) := break is_query_or_hash (slice 1 r1) in
    let '(q, f) := break is_hash r3 in
    if negb (wellScheme sch && wellPart "?" q && wellPart "#" f) then None
    else if special sch then
      if String.prefix "//" body then
        let '(h, p) := break is_slash (slice 2 body) in
        if wellHost h && all is_path_char p then
          Some {| scheme := sch; opaque := false; host := h;
                  pathname := if nonempty p then p else "/";
                  search := q; hash := f |}
        else None
      else None
    else if String.eqb sch "file" then None
    else if startsWith "/" body then None
    else if nonempty body && all is_opaque_char body then
      Some {| scheme := sch; opaque := true; host := EmptyString;
              pathname := body; search := q; hash := f |}
    else None.

Definition toString (u : URL) : string :=
  if opaque u
  then scheme u +:+ ":" +:+ pathname u +:+ search u +:+ hash u
  else scheme u +:+ "://" +:+ host u +:+ pathname u +:+ search u +:+ hash u.

(** [url.pathname = p] does nothing to a URL with an opaque path.
    Otherwise the engine parses [p] as a path; for a [p] of path
    characters that starts with a slash, as the rewrite of a path of this
    fragment is, that leaves [p] as it is. *)
Definition setPathname (u : URL) (p : string) : URL :=
  if opaque u then u
  else {| scheme := scheme u; opaque := false; host := host u; pathname := p;
          search := search u; hash := hash u |}.

End Url.

#[export] Instance referenceEngine : UrlEngine := {|
  URL := Url.URL;
  newURL := Url.parse;
  pathname := Url.pathname;
  setPathname := Url.setPathname;
  toString := Url.toString
|}.

(* ================================================================== *)
(** * The logger *)
(* ================================================================== *)

(** The values a log context or an entry of the raw configuration can
    hold; a JavaScript number is a binary64 float. *)
Inductive JsValue :=
| JUndefined
| JString (s : string)
| JBoolean (b : bool)
| JNumber (x : PrimFloat.float).

(** [Boolean(v)]: the empty string, zero and [NaN] are falsy. *)
Definition toBoolean (v : JsValue) : bool :=
  match v with
  | JUndefined => false
  | JString s => negb (String.eqb s EmptyString)
  | JBoolean b => b
  | JNumber x => negb (PrimFloat.eqb x PrimFloat.zero
                       || negb (PrimFloat.eqb x x))
  end.

(** An [Error] object as the logger reads it. *)
Record JsError := {
  errorName : string;
  errorMessage : string;
  errorStack : option string
}.

Module Logger.

Definition levelWeight (level : LogLevel) : nat :=
  match level with
  | debug => 10
  | info => 20
  | warn => 30
  | error => 40
  end.

Definition levelName (level : LogLevel) : string :=
  match level with
  | debug => "debug"
  | info => "info"
  | warn => "warn"
  | error => "error"
  end.

(** The own keys of the object [levelWeight]. *)
Definition ownLevel (key : string) : option LogLevel :=
  if String.eqb key "debug" then Some debug
  else if String.eqb key "info" then Some info
  else if String.eqb key "warn" then Some warn
  else if String.eqb key "error" then Some error
  else None.

(** The properties an object literal inherits from [Object.prototype]. *)
Definition inherited : list string :=
  [ "constructor"; "hasOwnProperty"; "isPrototypeOf"; "propertyIsEnumerable";
    "toLocaleString"; "toString"; "valueOf"; "__proto__";
    "__defineGetter__"; "__defineSetter__"; "__lookupGetter__";
    "__lookupSetter__" ].

(** [key in levelWeight]: own and inherited properties alike. *)
Definition inLevelWeight (key : string) : bool :=
  match ownLevel key with
  | Some _ => true
  | None => existsb (String.eqb key) inherited
  end.

(** The result is typed [LogLevel] by a cast: it is the lower-cased
    input whenever that is non-empty and [in levelWeight]. *)
Definition normalizeLevel `{StringOps} (input : option string) : string :=
  match input with
  | None => "info"
  | Some s =>
      let candidate := toLowerCase s in
      if negb (String.eqb candidate EmptyString) && inLevelWeight candidate
      then candidate
      else "info"
  end.

Record Logger := {
  scope : string;
  minLevel : string
}.

Definition child (l : Logger) (childScope : string) : Logger :=
  {| scope := scope l +:+ ":" +:+ childScope; minLevel := minLevel l |}.

(** One line written to the console: the method called and the payload
    whose [JSON.stringify] is written. *)
Inductive ConsoleEvent :=
| Console (method : LogLevel) (payload : gmap string JsValue).

(** [levelWeight[level] < levelWeight[minLevel]]: for a [minLevel] that is
    no own key the right operand is no number and the comparison is
    false. *)
Definition belowThreshold (level : LogLevel) (minLevel : string) : bool :=
  match ownLevel minLevel with
  | Some m => levelWeight level <? levelWeight m
  | None => false
  end.

(** [now] is what [new Date().toISOString()] returns. *)
Definition emit (l : Logger) (now : string) (level : LogLevel)
  (message : string) (context : option (gmap string JsValue))
  : list ConsoleEvent :=
  if belowThreshold level (minLevel l) then []
  else
    let payload : gmap string JsValue :=
      default ∅ context
        ∪ <["scope" := JString (scope l)]>
            (<["level" := JString (levelName level)]>
               (<["message" := JString message]>
                  (<["timestamp" := JString now]> ∅))) in
    [Console level payload].

Definition debug (l : Logger) (now message : string)
  (context : option (gmap string JsValue)) : list ConsoleEvent :=
  emit l now debug message context.

Definition info (l : Logger) (now message : string)
  (context : option (gmap string JsValue)) : list ConsoleEvent :=
  emit l now info message context.

Definition warn (l : Logger) (now message : string)
  (context : option (gmap string JsValue)) : list ConsoleEvent :=
  emit l now warn message context.

Definition error (l : Logger) (now message : string)
  (context : option (gmap string JsValue + JsError)) : list ConsoleEvent :=
  match context with
  | Some (inr e) =>
      emit l now error message
        (Some (<["name" := JString (errorName e)]>
                 (<["message" := JString (errorMessage e)]>
                    (<["stack" := match errorStack e with
                                  | Some s => JString s
                                  | None => JUndefined
                                  end]> ∅))))
  | Some (inl c) => emit l now error message (Some c)
  | None => emit l now error message None
  end.

(** [logLevel] is [process.env.LOG_LEVEL]. *)
Definition rootLogger `{StringOps} (logLevel : option string) : Logger :=
  {| scope := "zoom-runner"; minLevel := normalizeLevel logLevel |}.

Definition createLogger `{StringOps} (logLevel : option string)
  (childScope : string) : Logger :=
  child (rootLogger logLevel) childScope.

End Logger.

(* ================================================================== *)
(** * Command line and environment *)
(* ================================================================== *)

(** [ConfigOverrides]: every field is optional. *)
Module ConfigOverrides.
Record t := {
  zoomUrl : option string;
  botName : option string;
  messageText : option string;
  monitorMessages : option bool;
  headless : option bool;
  navigationTimeoutMs : option PrimFloat.float;
  nameInputTimeoutMs : option PrimFloat.float;
  lobbyTimeoutMs : option PrimFloat.float;
  chatTimeoutMs : option PrimFloat.float;
  postLeaveDelayMs : option PrimFloat.float
}.
End ConfigOverrides.

(** [CliOptions], as the option parser returns them. *)
Module CliOptions.
Record t := {
  url : option string;
  botName : option string;
  message : option string;
  noMonitor : option bool;
  headless : option bool;
  headed : option bool;
  navTimeout : option PrimFloat.float;
  nameTimeout : option PrimFloat.float;
  lobbyTimeout : option PrimFloat.float;
  chatTimeout : option PrimFloat.float;
  leaveDelay : option PrimFloat.float
}.
End CliOptions.

(** The truthiness of an optional flag. *)
Definition truthy (flag : option bool) : bool := default false flag.

(** The record [parseCliOverrides] returns for parsed options. *)
Definition parseCliOverrides (opts : CliOptions.t) : ConfigOverrides.t :=
  let headlessOverride :=
    if truthy (CliOptions.headed opts) then Some false
    else if truthy (CliOptions.headless opts) then Some true
    else None in
  {| ConfigOverrides.zoomUrl := CliOptions.url opts;
     ConfigOverrides.botName := CliOptions.botName opts;
     ConfigOverrides.messageText := CliOptions.message opts;
     ConfigOverrides.monitorMessages :=
       if truthy (CliOptions.noMonitor opts) then Some false else None;
     ConfigOverrides.headless := headlessOverride;
     ConfigOverrides.navigationTimeoutMs := CliOptions.navTimeout opts;
     ConfigOverrides.nameInputTimeoutMs := CliOptions.nameTimeout opts;
     ConfigOverrides.lobbyTimeoutMs := CliOptions.lobbyTimeout opts;
     ConfigOverrides.chatTimeoutMs := CliOptions.chatTimeout opts;
     ConfigOverrides.postLeaveDelayMs := CliOptions.leaveDelay opts |}.

(** [override ?? process.env[variable]]. *)
Definition orEnv (override : option JsValue) (env : gmap string string)
  (variable : string) : JsValue :=
  match override with
  | Some v => v
  | None =>
      match env !! variable with
      | Some s => JString s
      | None => JUndefined
      end
  end.

(** The object [raw] that [loadConfig] hands to the schema. *)
Definition rawConfig (overrides : ConfigOverrides.t) (env : gmap string string)
  : gmap string JsValue :=
  <["zoomUrl" :=
      orEnv (JString <$> ConfigOverrides.zoomUrl overrides) env "ZOOM_URL"]>
  (<["botName" :=
      orEnv (JString <$> ConfigOverrides.botName overrides) env "BOT_NAME"]>
  (<["messageText" :=
      orEnv (JString <$> ConfigOverrides.messageText overrides) env
        "MESSAGE_TEXT"]>
  (<["headless" :=
      orEnv (JBoolean <$> ConfigOverrides.headless overrides) env "HEADLESS"]>
  (<["navigationTimeoutMs" :=
      orEnv (JNumber <$> ConfigOverrides.navigationTimeoutMs overrides) env
        "NAVIGATION_TIMEOUT_MS"]>
  (<["nameInputTimeoutMs" :=
      orEnv (JNumber <$> ConfigOverrides.nameInputTimeoutMs overrides) env
        "NAME_INPUT_TIMEOUT_MS"]>
  (<["lobbyTimeoutMs" :=
      orEnv (JNumber <$> ConfigOverrides.lobbyTimeoutMs overrides) env
        "LOBBY_TIMEOUT_MS"]>
  (<["chatTimeoutMs" :=
      orEnv (JNumber <$> ConfigOverrides.chatTimeoutMs overrides) env
        "CHAT_TIMEOUT_MS"]>
  (<["postLeaveDelayMs" :=
      orEnv (JNumber <$> ConfigOverrides.postLeaveDelayMs overrides) env
        "POST_LEAVE_DELAY_MS"]> ∅)))))))).

(** A field [z.coerce.boolean().default(d)] of the schema, on the entry
    of its key in the parsed object: the default when the entry is
    missing or undefined, [Boolean(value)] otherwise. *)
Definition coerceBooleanDefault (d : bool) (entry : option JsValue) : bool :=
  match entry with
  | None | Some JUndefined => d
  | Some v => toBoolean v
  end.

(** The two flags of [ConfigSchema.parse(raw)]. *)
Definition parsedMonitorMessages (raw : gmap string JsValue) : bool :=
  coerceBooleanDefault true (raw !! "monitorMessages").

Definition parsedHeadless (raw : gmap string JsValue) : bool :=
  coerceBooleanDefault true (raw !! "headless").

(* ================================================================== *)
(** * The run *)
(* ================================================================== *)

(** What [run] observes of the browser, around the session. *)
Record RunWorld := {
  launchOk : bool;       (* [chromium.launch] resolves *)
  newContextOk : bool;   (* [browser.newContext] resolves *)
  newPageOk : bool;      (* [context.newPage] resolves *)
  session : SessionWorld;
  closeOk : bool         (* [browser.close] resolves *)
}.

Inductive RunEvent :=
| RunLog (level : LogLevel) (message : string)
| Launch (headlessMode : bool)
| RegisterSignalHandlers
| NewContext
| SetDefaultTimeout (ms : N)
| NewPage
| JoinAndChat (performed : list (Stage * list Event))
| RemoveSignalHandlers
| CloseBrowser.

(** What [run] can throw: the rejection of a browser operation, or what
    the workflow threw. *)
Inductive RunError :=
| BrowserRejected (op : RunEvent)
| WorkflowThrew (e : Error).

Definition Run (A : Type) : Type := list RunEvent * (RunError + A).

Definition runRet {A} (a : A) : Run A := ([], inr a).

Definition runBind {A B} (m : Run A) (k : A -> Run B) : Run B :=
  match m with
  | (t, inl e) => (t, inl e)
  | (t, inr a) => let '(t', r) := k a in (t ++ t', r)
  end.

Definition runStep (op : RunEvent) : Run unit := ([op], inr tt).

Definition runAwait (op : RunEvent) (ok : bool) : Run unit :=
  ([op], if ok then inr tt else inl (BrowserRejected op)).

Definition runCatch {A} (m : Run A) (h : RunError -> Run A) : Run A :=
  match m with
  | (t, inl e) => let '(t', r) := h e in (t ++ t', r)
  | (t, inr a) => (t, inr a)
  end.

(** [try { body } finally { finalizer }]: the finalizer runs when the
    block is left, and what the block returned or threw stands unless the
    finalizer throws.  A block whose workflow is still monitoring has not
    been left. *)
Definition tryFinally (block : Run WorkflowEnd) (finalizer : Run unit)
  : Run WorkflowEnd :=
  match block with
  | (t, inr StillMonitoring) => (t, inr StillMonitoring)
  | (t, r) =>
      match finalizer with
      | (t', inl e) => (t ++ t', inl e)
      | (t', inr _) => (t ++ t', r)
      end
  end.

Section Run.
Context `{StringOps}.

(** The configuration of a runner comes from [loadConfig], which has
    parsed [zoomUrl] already: the [new URL(zoomUrl)] in the arguments of
    the first log does not throw. *)
Definition run (cfg : AppConfig) (w : RunWorld) : Run WorkflowEnd :=
  runBind (runStep (RunLog info "Launching Chromium")) (fun _ =>
  runBind (runAwait (Launch (headless cfg)) (launchOk w)) (fun _ =>
  runBind (runStep RegisterSignalHandlers) (fun _ =>
  tryFinally
    (runBind (runAwait NewContext (newContextOk w)) (fun _ =>
     runBind (runStep (SetDefaultTimeout
                         (N.max (navigationTimeoutMs cfg) (lobbyTimeoutMs cfg))))
       (fun _ =>
     runBind (runAwait NewPage (newPageOk w)) (fun _ =>
     let workflow := joinAndChat cfg (session w) in
     ([JoinAndChat (trace workflow)],
      match result workflow with
      | Ok done => inr done
      | Err e => inl (WorkflowThrew e)
      end)))))
    (runBind (runStep RemoveSignalHandlers) (fun _ =>
     runCatch (runAwait CloseBrowser (closeOk w))
       (fun _ => runStep (RunLog warn "Failed to close browser cleanly"))))))).

End Run.

(* ================================================================== *)
(** * Waits that can be rejected *)
(* ================================================================== *)

(** [surface.waitForTimeout] is awaited like every other operation of the
    surface, and on a surface that is closed or detached its promise is
    rejected.  The module [Timed] embeds the methods whose control flow
    depends on a wait, with the outcome of each wait an input beside the
    world of the method.  The definitions of the same name above are
    their instances at waits that resolve. *)
Module Timed.

(** [surface.waitForTimeout(ms)], resolving iff [resolves]. *)
Definition waitForTimeout (ms : N) (resolves : bool) : M Event unit :=
  await (WaitForTimeout ms) resolves.

(** The outcome of [m] as a value: what a [try] block hands to the code
    after it, with the state it has reached. *)
Definition settle {E A} (m : M E A) : M E (Res A) :=
  (trace m, Ok (result m)).

(** ** Modal dismissal *)

Record ModalWaits := {
  afterEscape : bool;    (* the 200 ms wait after the Escape key *)
  afterRemoval : bool    (* the 150 ms wait after the forced removal *)
}.

Definition dismissBlockingModals (w : ModalWorld) (t : ModalWaits)
  (context : string) : M Event unit :=
  count0 <- awaitValue (Count overlayLocator) (initialCount w) ;;
  if count0 =? 0 then ret tt
  else
    log warn "Blocking overlay detected" ;;
    forEach dismissSelectors (fun selector =>
      tryCatch
        (await (Click (locator surface selector) 300) (dismissClick w selector) ;;
         log info "Clicked modal dismiss control")
        (fun _ => ret tt)) ;;
    tryCatch (await (Press body "Escape") (escapePress w)) (fun _ => ret tt) ;;
    waitForTimeout 200 (afterEscape t) ;;
    remaining <- awaitValue (Count overlayLocator) (remainingCount w) ;;
    if 0 <? remaining then
      log warn "Blocking overlay still present, force removing" ;;
      tryCatch
        (_ <- awaitValue (Evaluate "remove .ReactModalPortal") (forceRemove w) ;;
         log warn "Force removed ReactModal portals")
        (fun _ => log error "Failed to force-remove modal portals") ;;
      waitForTimeout 150 (afterRemoval t)
    else
      log info "Blocking overlay dismissed".

(** ** Join submission *)

Record JoinWaits := {
  joinModalWaits : ModalWaits;
  afterJoinClick : bool;                 (* after the click on a visible button *)
  afterFallbackClick : Locator -> bool;  (* after a click of the fallback loop *)
  afterEnter : bool                      (* after the Enter key *)
}.

(** The fallback loop: the wait that follows a click is inside the [try],
    so its rejection sends the loop on to the next candidate. *)
Fixpoint clickEach (w : JoinWorld) (t : JoinWaits) (i : nat)
  (candidates : list Locator) : M Event unit :=
  match candidates with
  | [] =>
      log warn "Join button not found via selectors, sending Enter key fallback" ;;
      await (Press body "Enter") (enterPress w) ;;
      waitForTimeout 200 (afterEnter t)
  | l :: rest =>
      tryCatch
        (await (Click l 1000) (joinClickFallback w l) ;;
         logAt info "Clicked Join button (fallback)" i ;;
         waitForTimeout 200 (afterFallbackClick t l))
        (fun _ => clickEach w t (S i) rest)
  end.

Definition submitJoinAmong (w : JoinWorld) (t : JoinWaits)
  (candidates : list Locator) : M Event unit :=
  dismissBlockingModals (joinModals w) (joinModalWaits t) "before-join" ;;
  checks <- visibilityChecks (joinVisible w) candidates ;;
  match List.find visible checks with
  | Some r =>
      await (Click (checked r) 1000) (joinClick w (checked r)) ;;
      logAt info "Clicked Join button" (index r) ;;
      waitForTimeout 200 (afterJoinClick t)
  | None => clickEach w t 0 candidates
  end.

Definition submitJoin (w : JoinWorld) (t : JoinWaits) : M Event unit :=
  submitJoinAmong w t joinCandidates.

(** ** Admission *)

(** [settles] is the outcome of the 500 ms wait before the probes. *)
Definition waitForAdmission (cfg : AppConfig) (w : AdmissionWorld)
  (settles : bool) : M Event Locator :=
  log info "Waiting to be admitted to the meeting" ;;
  waitForTimeout 500 settles ;;
  log debug "Checking meeting state indicators" ;;
  visibilityState <- probeIndicators (indicatorVisible w) stateIndicators ;;
  log info "Meeting state after join" ;;
  let inMeetingButtons := List.filter isInMeetingButton visibilityState in
  if 2 <=? List.length inMeetingButtons then
    log info "Detected in-meeting UI, skipping lobby wait" ;;
    ret leaveButton
  else
    log info "Waiting for Leave button to appear (admission indicator)" ;;
    lobbyLoop cfg w (maxAttempts cfg) 1 ;;
    ret leaveButton.

(** ** The chat message *)

Record ChatWaits := {
  chatModalWaits : ModalWaits;
  afterOpen : bool    (* the 300 ms wait after the chat panel was opened *)
}.

Definition sendChatMessage (cfg : AppConfig) (w : ChatSendWorld)
  (t : ChatWaits) : M Event unit :=
  if String.eqb (messageText cfg) EmptyString then
    log info "MESSAGE_TEXT is empty, skipping chat"
  else
    log info "Sending chat message" ;;
    dismissBlockingModals (chatModals w) (chatModalWaits t) "before-chat-open" ;;
    chatVisibilityChecks <- visibilityChecks (chatButtonVisible w) chatButtons ;;
    clickedChatButton <- clickVisible (chatButtonClick w) chatVisibilityChecks ;;
    (if (clickedChatButton : bool) then waitForTimeout 300 (afterOpen t)
     else
       log warn "Chat button not found, trying Alt+H shortcut" ;;
       await (Press body "Alt+H") (altH w) ;;
       waitForTimeout 300 (afterOpen t)) ;;
    resolvedInput <- resolveChatInput (firstResolve w) ;;
    match resolvedInput with
    | Some _ => ret tt
    | None =>
        log warn "Chat input not found, trying activation strategies" ;;
        activated <- tryActivateChatInput (activation w) ;;
        if (activated : bool) then log info "Chat input successfully activated"
        else
          captureDomSnapshot (missingSnapshotOk w) "chat-input-missing" ;;
          captureDebugScreenshot (chatPage w) "chat-input-missing" ;;
          throw ChatInputMissing
    end ;;
    log info "Filling chat input" ;;
    finalInput <- match resolvedInput with
                  | Some i => ret (Some i)
                  | None => resolveChatInput (secondResolve w)
                  end ;;
    match finalInput with
    | None => throw ChatInputDisappeared
    | Some input =>
        await (Fill input (messageText cfg)) (messageFill w) ;;
        await (Press input "Enter") (messagePress w) ;;
        log info "Chat message sent"
    end.

(** ** The monitoring loop *)

(** One iteration of the loop: what its poll observes, and the outcomes
    of the 500 ms wait that ends the [try] block and of the 1 s wait that
    ends the handler. *)
Record Poll := {
  observed : PollStep;
  afterBatch : bool;
  afterError : bool
}.

Section Monitor.
Context `{StringOps}.
Variable cfg : AppConfig.

(** The [catch] block, entered with the state the [try] block left. *)
Definition onError (p : Poll) (seenMessages : gset string)
  (consecutiveErrors : nat) : M MonitorEvent MonitorEnd :=
  let consecutiveErrors := S consecutiveErrors in
  did (log debug "Error monitoring messages") ;;
  if maxConsecutiveErrors <=? consecutiveErrors then
    did (log error "Too many consecutive errors, stopping monitoring") ;;
    throw MonitoringFailed
  else
    did (waitForTimeout 1000 (afterError p)) ;;
    ret (Polling seenMessages consecutiveErrors).

(** [while (true) { try { ... } catch (error) { ... } }].  The loop over
    the batch does not throw, so the [try] block is left by the rejection
    of the poll, with the state the iteration found, or by that of the
    wait at its end, with the set the batch left and the counter at
    zero. *)
Fixpoint monitorLoop (polls : list Poll) (seenMessages : gset string)
  (consecutiveErrors : nat) : M MonitorEvent MonitorEnd :=
  match polls with
  | [] => ret (Polling seenMessages consecutiveErrors)
  | p :: rest =>
      next <-
        (polledMessages <-
           settle (did (awaitValue (Evaluate "chat messages")
                          (polled (observed p)))) ;;
         match polledMessages with
         | Err _ => onError p seenMessages consecutiveErrors
         | Ok messages =>
             seen <- processMessages cfg (replyWorld (observed p)) 0
                       seenMessages messages ;;
             match seen with
             | None => ret Returned
             | Some seenMessages =>
                 let consecutiveErrors := 0 in
                 waited <- settle (did (waitForTimeout 500 (afterBatch p))) ;;
                 match waited with
                 | Ok _ => ret (Polling seenMessages consecutiveErrors)
                 | Err _ => onError p seenMessages consecutiveErrors
                 end
             end
         end) ;;
      match next with
      | Returned => ret Returned
      | Polling seenMessages consecutiveErrors =>
          monitorLoop rest seenMessages consecutiveErrors
      end
  end.

Definition monitorChatMessages (polls : list Poll)
  : M MonitorEvent MonitorEnd :=
  did (log info "Starting continuous message monitoring") ;;
  monitorLoop polls ∅ 0.

End Monitor.

(** ** Leaving *)

Record LeaveWaits := {
  afterDelay : bool;             (* the wait of [postLeaveDelayMs] *)
  afterStrategy : nat -> bool    (* the 300 ms wait after a strategy *)
}.

(** The loop over the strategies; [leftSuccessfully] is set before the
    wait, so a strategy whose wait is rejected is logged as failed and
    the loop goes on with the flag set. *)
Fixpoint tryLeave (t : LeaveWaits) (i : nat) (leftSuccessfully : bool)
  (strategies : list (M Event unit)) : M Event bool :=
  match strategies with
  | [] => ret leftSuccessfully
  | strategy :: rest =>
      done <- settle strategy ;;
      match done with
      | Err _ =>
          logAt debug "Leave strategy failed" i ;;
          tryLeave t (S i) leftSuccessfully rest
      | Ok _ =>
          let leftSuccessfully := true in
          waited <- settle (waitForTimeout 300 (afterStrategy t i)) ;;
          match waited with
          | Ok _ => ret leftSuccessfully
          | Err _ =>
              logAt debug "Leave strategy failed" i ;;
              tryLeave t (S i) leftSuccessfully rest
          end
      end
  end.

Definition leaveMeeting (cfg : AppConfig) (w : LeaveWorld) (t : LeaveWaits)
  (stored : option Locator) : M Event unit :=
  log info "Leaving meeting" ;;
  waitForTimeout (postLeaveDelayMs cfg) (afterDelay t) ;;
  let leaveButton := default (getByRole surface "button" "/Leave/i") stored in
  let leaveStrategies :=
    [ await (Click leaveButton 1000) (leaveStrategy w 0) ;;
      log debug "Clicked Leave button";
      await (Click (locator surface "button:has-text(End)") 1000)
            (leaveStrategy w 1) ;;
      log debug "Clicked End button";
      await (Click (locator surface "[aria-label*=leave i], [aria-label*=end i]")
                   1000) (leaveStrategy w 2) ;;
      log debug "Clicked leave/end via aria-label";
      await (Press body "Alt+Q") (leaveStrategy w 3) ;;
      log debug "Pressed Alt+Q shortcut" ] in
  leftSuccessfully <- tryLeave t 0 false leaveStrategies ;;
  if (leftSuccessfully : bool) then
    tryCatch
      (confirmLeave w confirmButtons)
      (fun _ => log debug "Leave confirmation attempt failed")
  else
    log warn "All leave strategies failed, meeting may not be exited cleanly".

End Timed.

(* ================================================================== *)
(** * Vocabulary of the statements *)
(* ================================================================== *)

(** The keys of the messages replied to along a trace. *)
Definition repliedKeys (t : list MonitorEvent) : list string :=
  List.map (fun r => messageKey (fst r)) (replies t).

(** The replies of a trace to the messages of a given sender and text. *)
Definition repliesTo (sender txt : string) (t : list MonitorEvent)
  : list (ChatMessage * string) :=
  List.filter (fun r => String.eqb (name (fst r)) sender
                        && String.eqb (text (fst r)) txt)
              (replies t).

(** A poll that throws. *)
Definition rejected (p : PollStep) : Prop := polled p = Rejected.

(** What the parallel check records for a candidate: visible only if the
    probe is fulfilled with [true]. *)
Definition probed (isVisible : Locator -> Settled bool) (l : Locator) : bool :=
  match isVisible l with
  | Fulfilled true => true
  | _ => false
  end.

Fixpoint checksFrom (isVisible : Locator -> Settled bool) (i : nat)
  (candidates : list Locator) : list Check :=
  match candidates with
  | [] => []
  | l :: rest =>
      {| index := i; checked := l; visible := probed isVisible l |}
        :: checksFrom isVisible (S i) rest
  end.

(** [none p l]: no element of [l] satisfies [p]. *)
Definition none {A} (p : A -> bool) (l : list A) : bool :=
  forallb (fun x => negb (p x)) l.

Fixpoint stateOf (isVisible : Locator -> Settled bool)
  (indicators : list (string * Locator)) : list (string * bool) :=
  match indicators with
  | [] => []
  | (n, l) :: rest =>
      match isVisible l with
      | Fulfilled v => (n, v) :: stateOf isVisible rest
      | Rejected => stateOf isVisible rest
      end
  end.

(** The stages a run of the workflow entered, in order. *)
Definition stages {A} (m : M (Stage * list Event) A) : list Stage :=
  List.map fst (trace m).

(** The candidate a resolution settles on: the first one seen visible by
    the parallel check, else the first one that appears during the
    fallback. *)
Definition pick (w : InputWorld) (candidates : list Locator) : option Locator :=
  match List.find (probed (inputVisible w)) candidates with
  | Some c => Some c
  | None => List.find (inputAppears w) candidates
  end.

(** The first of the frames in which a chat input is resolved. *)
Fixpoint pickFrame (w : InputWorld) (frames : list string) : option Locator :=
  match frames with
  | [] => None
  | frameLabel :: rest =>
      match pick w (chatInputCandidates (otherFrame frameLabel)) with
      | Some c => Some c
      | None => pickFrame w rest
      end
  end.

(** Operations that only look at the page, or log. *)
Definition observes (ev : Event) : bool :=
  match ev with
  | Log _ _ | LogAt _ _ _ | IsVisible _ | WaitFor _ _ | Evaluate _ => true
  | _ => false
  end.

(** Whether strategy 6 of the activation ladder accepts a textarea: it
    is seen visible, its attributes could be read, and neither its class
    contains [hideme] nor its id contains [email]. *)
Definition usableTextarea (t : Textarea) : bool :=
  probed (fun _ => textareaVisible t) (locator surface "textarea")
  && match textareaAttrs t with
     | Some (id, className) =>
         negb (includes className "hideme") && negb (includes id "email")
     | None => false
     end.

Definition resolved (input : option Locator) : bool :=
  match input with
  | Some _ => true
  | None => false
  end.

(** Whether one of the seven strategies of the activation ladder
    succeeds. *)
Definition activates (w : ActivationWorld) : bool :=
  let inputAfter w' := resolved (pick w' (chatInputCandidates surface)) in
  (panelClick w && inputAfter (afterPanelClick w))
  || (tabPress w 0 && tabPress w 1 && tabPress w 2 && inputAfter (afterTabKeys w))
  || (toggleClick w 0 && toggleClick w 1 && inputAfter (afterToggle w))
  || inputAfter (afterLongWait w)
  || probed (fun _ => editableVisible w) (locator surface "[contenteditable=true]")
  || match textareas w with
     | Fulfilled all => existsb usableTextarea all
     | Rejected => false
     end
  || (controlT w && inputAfter (afterControlT w)).

(** Whether a computation returned [true]. *)
Definition succeeded {E} (m : M E bool) : bool :=
  match result m with
  | Ok b => b
  | Err _ => false
  end.

(** The action of the [k]-th leave strategy and what it logs when it
    succeeds; [stored] is [this.leaveButton]. *)
Definition leaveAction (stored : option Locator) (k : nat) : Event :=
  match k with
  | 0 => Click (default (getByRole surface "button" "/Leave/i") stored) 1000
  | 1 => Click (locator surface "button:has-text(End)") 1000
  | 2 => Click (locator surface "[aria-label*=leave i], [aria-label*=end i]") 1000
  | _ => Press body "Alt+Q"
  end.

Definition leaveDone (k : nat) : string :=
  match k with
  | 0 => "Clicked Leave button"
  | 1 => "Clicked End button"
  | 2 => "Clicked leave/end via aria-label"
  | _ => "Pressed Alt+Q shortcut"
  end.

(** A failed attempt of each of the strategies [0 .. k-1]. *)
Definition failedLeaves (stored : option Locator) (k : nat) : list Event :=
  List.flat_map (fun j => [leaveAction stored j;
                           LogAt debug "Leave strategy failed" j])
                (List.seq 0 k).

(** The number of waits for an element along a trace. *)
Definition waits (t : list Event) : nat :=
  List.length (List.filter (fun ev => match ev with
                                      | WaitFor _ _ => true
                                      | _ => false
                                      end) t).

(** Whether the terminal-state text is seen after a lobby attempt. *)
Definition errorSeen (w : AdmissionWorld) (attempt : nat) : bool :=
  probed (fun _ => errorVisible w attempt) errorText.

(** The number of in-meeting indicators the initial probe sees visible. *)
Definition inMeetingSeen (w : AdmissionWorld) : nat :=
  List.length
    (List.filter (probed (indicatorVisible w))
       [joinAudioButton; participantsButton; chatButton; videoButton]).

(** The locators clicked along a trace, in order. *)
Fixpoint clicked (t : list Event) : list Locator :=
  match t with
  | [] => []
  | Click l _ :: rest => l :: clicked rest
  | _ :: rest => clicked rest
  end.

(** How often a message is logged along a trace. *)
Definition logged (message : string) (t : list Event) : nat :=
  List.length (List.filter (fun ev => match ev with
                                      | Log _ m => String.eqb m message
                                      | _ => false
                                      end) t).

(** Whether a script is evaluated in the page along a trace. *)
Definition evaluates (script : string) (t : list Event) : bool :=
  existsb (fun ev => match ev with
                     | Evaluate s => String.eqb s script
                     | _ => false
                     end) t.

(** The input [resolveChatInput] settles on: the one of the primary
    surface, else the one of the first other frame that has one. *)
Definition resolution (w : ResolveWorld) : option Locator :=
  match pick (inputs w) (chatInputCandidates surface) with
  | Some p => Some p
  | None => pickFrame (inputs w) (otherFrames w)
  end.

(** Whether some chat button is seen visible and its click succeeds. *)
Definition clicksChatButton (w : ChatSendWorld) : bool :=
  existsb (fun c => probed (chatButtonVisible w) c && chatButtonClick w c)
    chatButtons.

(** How the fill of the message and the Enter key end. *)
Definition typed (cfg : AppConfig) (w : ChatSendWorld) (input : Locator)
  : Res unit :=
  if messageFill w then
    if messagePress w then Ok tt else Err (Rejection (Press input "Enter"))
  else Err (Rejection (Fill input (messageText cfg))).

(** Whether a message is the quit command, and the token the loop
    answers a message with. *)
Definition isQuit `{StringOps} (msg : ChatMessage) : bool :=
  String.eqb (trim (toLowerCase (text msg))) "quit".

Definition answer `{StringOps} (cfg : AppConfig) (msg : ChatMessage) : string :=
  if includes (trim (toLowerCase (text msg))) (toLowerCase (botName cfg))
  then "dong" else "roger".

(** The messages the polls of a script yield. *)
Definition polledMessages (polls : list PollStep) : list ChatMessage :=
  List.concat (List.map (fun p => match polled p with
                                  | Fulfilled messages => messages
                                  | Rejected => []
                                  end) polls).

(** The stages of a complete run, in the order of [joinAndChat]. *)
Definition pipeline (cfg : AppConfig) : list Stage :=
  [Navigate; AcceptCookies; ResolveSurface; FillDisplayName; SubmitJoin;
   WaitForAdmission; SendChatMessage]
    ++ (if monitorMessages cfg then [MonitorChatMessages] else [])
    ++ [LeaveMeeting; WorkflowCompleted].

(** What the handler of [joinAndChat] adds to a run that ends with [r]. *)
Definition captured {A} (w : SessionWorld) (r : Res A) : list Stage :=
  match r with
  | Err _ => if pageIsClosed w then [] else [FailureCapture]
  | Ok _ => []
  end.

(** The same session with another end of the handler. *)
Definition withHandler (w : SessionWorld) (closed screenshotOk : bool)
  : SessionWorld := {|
  gotoOk := gotoOk w;
  cookieClick := cookieClick w;
  surfaces := surfaces w;
  nameWaitOk := nameWaitOk w;
  nameFillOk := nameFillOk w;
  join := join w;
  admission := admission w;
  chat := chat w;
  polls := polls w;
  leave := leave w;
  pageIsClosed := closed;
  failureScreenshot := screenshotOk
|}.

(** How often the browser is closed along a run. *)
Definition closes (t : list RunEvent) : nat :=
  List.length (List.filter (fun ev => match ev with
                                      | CloseBrowser => true
                                      | _ => false
                                      end) t).

(** What the block of [run] returns or throws: the rejection of the
    context or of the page, else what the workflow does. *)
Definition blockEnd `{StringOps} (cfg : AppConfig) (w : RunWorld)
  : RunError + WorkflowEnd :=
  if negb (newContextOk w) then inl (BrowserRejected NewContext)
  else if negb (newPageOk w) then inl (BrowserRejected NewPage)
  else match result (joinAndChat cfg (session w)) with
       | Ok done => inr done
       | Err e => inl (WorkflowThrew e)
       end.

(** A poll of the timed loop that throws. *)
Definition pollRejected (p : Timed.Poll) : Prop :=
  polled (Timed.observed p) = Rejected.

(** How the loop goes on from its handler, once the counter stands at
    [errors]: it throws at the ceiling, else it waits one second. *)
Definition resumes `{StringOps} (cfg : AppConfig) (p : Timed.Poll)
  (rest : list Timed.Poll) (seen : gset string) (errors : nat)
  : Res MonitorEnd :=
  if maxConsecutiveErrors <=? errors then Err MonitoringFailed
  else if Timed.afterError p
       then result (Timed.monitorLoop cfg rest seen errors)
       else Err (Rejection (WaitForTimeout 1000)).

(** Whether the action of one of the four leave strategies succeeds. *)
Definition anyLeaves (w : LeaveWorld) : bool :=
  existsb (leaveStrategy w) [0; 1; 2; 3].

(* ================================================================== *)
(** * Sessions to evaluate the model on *)
(* ================================================================== *)

Section Sessions.
Definition chatMessage (sender content : string) : ChatMessage :=
  {| name := sender; text := content; fullText := sender +:+ content |}.

(** The configuration of the end-to-end scenario, with a message other
    than the default one. *)
Definition fridayValues : ConfigValues := {|
  zoomUrl := "https://x.zoom.us/j/123";
  botName := "Friday BOT";
  messageText := "Hello everyone";
  monitorMessages := true;
  headless := true;
  navigationTimeoutMs := 30000;
  nameInputTimeoutMs := 5000;
  lobbyTimeoutMs := 60000;
  chatTimeoutMs := 1000;
  postLeaveDelayMs := 500
|}.

Definition friday : AppConfig := {|
  values := fridayValues;
  webClientUrl := "https://x.zoom.us/wc/join/123"
|}.

(** A page without overlays on which every control is visible and every
    action succeeds. *)
Definition noModals : ModalWorld := {|
  initialCount := Fulfilled 0;
  dismissClick := fun _ => true;
  escapePress := true;
  remainingCount := Fulfilled 0;
  forceRemove := Fulfilled 0
|}.

Definition inputReady : InputWorld := {|
  inputVisible := fun _ => Fulfilled true;
  inputAppears := fun _ => true
|}.

(** Only the structural candidates are visible, not the role-based ones. *)
Definition structuralOnly : InputWorld := {|
  inputVisible := fun l => match l with
                           | locator _ _ => Fulfilled true
                           | _ => Fulfilled false
                           end;
  inputAppears := fun _ => false
|}.

(** Nothing is visible at the parallel check; the structural candidates
    appear during the fallback. *)
Definition structuralLate : InputWorld := {|
  inputVisible := fun _ => Rejected;
  inputAppears := fun l => match l with
                           | locator _ _ => true
                           | _ => false
                           end
|}.

Definition chatReady : ResolveWorld := {|
  inputs := inputReady;
  otherFrames := [];
  analysisOk := true
|}.

Definition replyReady : ReplyWorld := {|
  replyResolve := chatReady;
  replyFill := true;
  replyPress := true
|}.

Definition joinReady : JoinWorld := {|
  joinModals := noModals;
  joinVisible := fun _ => Fulfilled true;
  joinClick := fun _ => true;
  joinClickFallback := fun _ => true;
  enterPress := true
|}.

(** Only the data-qa Join button is visible. *)
Definition joinByDataQa : JoinWorld := {|
  joinModals := noModals;
  joinVisible := fun l => match l with
                          | locator _ "[data-qa=join-meeting]" => Fulfilled true
                          | _ => Fulfilled false
                          end;
  joinClick := fun _ => true;
  joinClickFallback := fun _ => false;
  enterPress := true
|}.

(** No Join button is visible; only a click on the data-qa one succeeds. *)
Definition joinLate : JoinWorld := {|
  joinModals := noModals;
  joinVisible := fun _ => Fulfilled false;
  joinClick := fun _ => false;
  joinClickFallback := fun l => match l with
                                | locator _ "[data-qa=join-meeting]" => true
                                | _ => false
                                end;
  enterPress := true
|}.

Definition admitted : AdmissionWorld := {|
  indicatorVisible := fun _ => Fulfilled true;
  leaveAppears := fun _ => false;
  snapshotOk := fun _ => false;
  errorVisible := fun _ => Rejected;
  admissionPage := Some true
|}.

Definition activationReady : ActivationWorld := {|
  panelClick := true;
  afterPanelClick := inputReady;
  tabPress := fun _ => true;
  afterTabKeys := inputReady;
  toggleClick := fun _ => true;
  afterToggle := inputReady;
  afterLongWait := inputReady;
  editableVisible := Fulfilled true;
  textareas := Fulfilled [];
  controlT := true;
  afterControlT := inputReady
|}.

Definition chatSendReady : ChatSendWorld := {|
  chatModals := noModals;
  chatButtonVisible := fun _ => Fulfilled true;
  chatButtonClick := fun _ => true;
  altH := true;
  firstResolve := chatReady;
  activation := activationReady;
  missingSnapshotOk := true;
  chatPage := Some true;
  secondResolve := chatReady;
  messageFill := true;
  messagePress := true
|}.

Definition leaveReady : LeaveWorld := {|
  leaveStrategy := fun _ => true;
  confirmClick := fun _ => true
|}.

Definition rejectedPoll : PollStep := {|
  polled := Rejected;
  replyWorld := fun _ => replyReady
|}.

Definition poll (messages : list ChatMessage) : PollStep := {|
  polled := Fulfilled messages;
  replyWorld := fun _ => replyReady
|}.

(** A session in which everything succeeds up to the monitoring, and
    then every poll of the chat is rejected. *)
Definition pollsRejected : SessionWorld := {|
  gotoOk := true;
  cookieClick := false;
  surfaces := {| iframeHandle := Fulfilled false;
                 contentFrame := Fulfilled false;
                 namedFrame := false |};
  nameWaitOk := true;
  nameFillOk := true;
  join := joinReady;
  admission := admitted;
  chat := chatSendReady;
  polls := List.repeat rejectedPoll 10;
  leave := leaveReady;
  pageIsClosed := false;
  failureScreenshot := true
|}.

(** A surface that rejects every query, as a closed page does. *)
Definition closedSurface : ModalWorld := {|
  initialCount := Rejected;
  dismissClick := fun _ => false;
  escapePress := false;
  remainingCount := Rejected;
  forceRemove := Rejected
|}.

(** The join lands in the lobby: no in-meeting control is visible, and
    the Leave button appears at the third attempt. *)
Definition lobbyThenAdmitted : AdmissionWorld := {|
  indicatorVisible := fun _ => Fulfilled false;
  leaveAppears := fun attempt => 3 <=? attempt;
  snapshotOk := fun _ => true;
  errorVisible := fun _ => Fulfilled false;
  admissionPage := Some true
|}.

(** The meeting is ended by the host while the bot waits in the lobby. *)
Definition lobbyThenEnded : AdmissionWorld := {|
  indicatorVisible := fun _ => Fulfilled false;
  leaveAppears := fun _ => false;
  snapshotOk := fun _ => true;
  errorVisible := fun attempt => Fulfilled (2 <=? attempt);
  admissionPage := Some true
|}.

(** The bot is never admitted: the page stays in the lobby, alive. *)
Definition lobbyForever : AdmissionWorld := {|
  indicatorVisible := fun l => match l with
                               | locator _ "text=/waiting|lobby|admitted/i" =>
                                   Fulfilled true
                               | _ => Fulfilled false
                               end;
  leaveAppears := fun _ => false;
  snapshotOk := fun _ => true;
  errorVisible := fun _ => Fulfilled false;
  admissionPage := Some true
|}.

(** No chat input is ever found. *)
Definition inputAbsent : InputWorld := {|
  inputVisible := fun _ => Fulfilled false;
  inputAppears := fun _ => false
|}.

(** A page on which no activation strategy finds an input. *)
Definition activationStuck : ActivationWorld := {|
  panelClick := false;
  afterPanelClick := inputAbsent;
  tabPress := fun _ => true;
  afterTabKeys := inputAbsent;
  toggleClick := fun _ => false;
  afterToggle := inputAbsent;
  afterLongWait := inputAbsent;
  editableVisible := Fulfilled false;
  textareas := Rejected;
  controlT := true;
  afterControlT := inputAbsent
|}.

(** Two overlays, of which one resists the dismiss controls. *)
Definition overlayStuck : ModalWorld := {|
  initialCount := Fulfilled 2;
  dismissClick := fun selector => String.eqb selector "[aria-label=Close]";
  escapePress := true;
  remainingCount := Fulfilled 1;
  forceRemove := Fulfilled 1
|}.

(** No Join button can be seen or clicked. *)
Definition joinStuck : JoinWorld := {|
  joinModals := noModals;
  joinVisible := fun _ => Fulfilled false;
  joinClick := fun _ => false;
  joinClickFallback := fun _ => false;
  enterPress := true
|}.

(** The Join button is seen but its click is rejected. *)
Definition joinBlocked : JoinWorld := {|
  joinModals := noModals;
  joinVisible := fun _ => Fulfilled true;
  joinClick := fun _ => false;
  joinClickFallback := fun _ => true;
  enterPress := true
|}.

(** Only the fourth leave strategy, the keyboard shortcut, works. *)
Definition leaveByShortcut : LeaveWorld := {|
  leaveStrategy := fun k => 3 <=? k;
  confirmClick := fun _ => false
|}.

(** A browser that launches and closes, around the session in which
    every poll is rejected. *)
Definition browserReady : RunWorld := {|
  launchOk := true;
  newContextOk := true;
  newPageOk := true;
  session := pollsRejected;
  closeOk := false
|}.

(** Waits on a surface that stays alive, and on one that is closed. *)
Definition modalWaitsResolve : Timed.ModalWaits := {|
  Timed.afterEscape := true;
  Timed.afterRemoval := true
|}.

Definition modalWaitsRejected : Timed.ModalWaits := {|
  Timed.afterEscape := false;
  Timed.afterRemoval := false
|}.

Definition joinWaitsResolve : Timed.JoinWaits := {|
  Timed.joinModalWaits := modalWaitsResolve;
  Timed.afterJoinClick := true;
  Timed.afterFallbackClick := fun _ => true;
  Timed.afterEnter := true
|}.

(** Polls of the timed loop: one that is rejected, one that yields
    [messages], both followed by waits that resolve, and one that yields
    no message and is followed by a rejected wait. *)
Definition rejectedThenWaits : Timed.Poll := {|
  Timed.observed := rejectedPoll;
  Timed.afterBatch := true;
  Timed.afterError := true
|}.

Definition polledThenWaits (messages : list ChatMessage) : Timed.Poll := {|
  Timed.observed := poll messages;
  Timed.afterBatch := true;
  Timed.afterError := true
|}.

Definition polledThenInterrupted : Timed.Poll := {|
  Timed.observed := poll [];
  Timed.afterBatch := false;
  Timed.afterError := true
|}.

(** A poll that yields no message on a surface that is closed while the
    iteration waits: this wait and the one of the handler are rejected. *)
Definition polledThenClosed : Timed.Poll := {|
  Timed.observed := poll [];
  Timed.afterBatch := false;
  Timed.afterError := false
|}.

Definition leaveWaitsResolve : Timed.LeaveWaits := {|
  Timed.afterDelay := true;
  Timed.afterStrategy := fun _ => true
|}.

Definition chatWaitsResolve : Timed.ChatWaits := {|
  Timed.chatModalWaits := modalWaitsResolve;
  Timed.afterOpen := true
|}.

End Sessions.

(* ================================================================== *)
(** * Facts about computations *)
(* ================================================================== *)

Section Computations.
Context {E A B : Type}.


Lemma bind_err (m : M E A) (k : A -> M E B) t e :
  m = (t, Err e) -> bind m k = (t, Err e).
Proof. intros ->. reflexivity. Qed.

Lemma tryCatch_ok (m : M E A) h t a :
  m = (t, Ok a) -> tryCatch m h = (t, Ok a).
Proof. intros ->. reflexivity. Qed.

Lemma tryCatch_err (m : M E A) h t e :
  m = (t, Err e) -> tryCatch m h = (t ++ trace (h e), result (h e)).
Proof. intros ->. unfold tryCatch, trace, result. destruct (h e); reflexivity. Qed.

Lemma surjective_run (m : M E A) : m = (trace m, result m).
Proof. destruct m; reflexivity. Qed.

Lemma trace_bind (m : M E A) (k : A -> M E B) :
  trace (bind m k) =
  match result m with
  | Ok a => trace m ++ trace (k a)
  | Err _ => trace m
  end.
Proof. destruct m as [t [a|e]]; simpl; [destruct (k a)|]; reflexivity. Qed.

Lemma result_bind (m : M E A) (k : A -> M E B) :
  result (bind m k) =
  match result m with
  | Ok a => result (k a)
  | Err e => Err e
  end.
Proof. destruct m as [t [a|e]]; simpl; [destruct (k a)|]; reflexivity. Qed.

Lemma trace_tryCatch (m : M E A) (h : Error -> M E A) :
  trace (tryCatch m h) =
  match result m with
  | Ok _ => trace m
  | Err e => trace m ++ trace (h e)
  end.
Proof. destruct m as [t [a|e]]; simpl; [|destruct (h e)]; reflexivity. Qed.

Lemma result_tryCatch (m : M E A) (h : Error -> M E A) :
  result (tryCatch m h) =
  match result m with
  | Ok a => Ok a
  | Err e => result (h e)
  end.
Proof. destruct m as [t [a|e]]; simpl; [|destruct (h e)]; reflexivity. Qed.

Lemma trace_ret (a : A) : trace (ret a : M E A) = [].
Proof. reflexivity. Qed.

Lemma result_ret (a : A) : result (ret a : M E A) = Ok a.
Proof. reflexivity. Qed.

End Computations.

Create Rewrite HintDb run.
#[global] Hint Rewrite @trace_bind @result_bind @trace_tryCatch @result_tryCatch
  @trace_ret @result_ret : run.

(** A handler that cannot throw makes the whole [try] total. *)
Lemma tryCatch_total {E A} (m : M E A) (h : Error -> M E A) :
  (forall e, exists a, result (h e) = Ok a) ->
  exists a, result (tryCatch m h) = Ok a.
Proof.
  intros Hh. destruct m as [t [a|e]]; simpl.
  - eauto.
  - destruct (Hh e) as [a Ha]. unfold result in *.
    destruct (h e) as [t' r]. simpl in *. eauto.
Qed.

(* ================================================================== *)
(** * Facts about the monitoring loop *)
(* ================================================================== *)

Lemma sendQuickReply_ok (w : ReplyWorld) (message : string) :
  result (sendQuickReply w message) = Ok tt.
Proof.
  unfold sendQuickReply.
  destruct (tryCatch_total
              (input <- resolveChatInput (replyResolve w) ;;
               match input with
               | Some input0 =>
                   await (Fill input0 message) (replyFill w) ;;
                   await (Press input0 "Enter") (replyPress w) ;;
                   log debug "Reply sent successfully"
               | None => log warn "Chat input not found for reply"
               end)
              (fun _ => log warn "Failed to send reply")) as [[] Hu].
  - intros _. exists tt. reflexivity.
  - exact Hu.
Qed.

Lemma trace_did {A} (m : M Event A) : trace (did m) = List.map Did (trace m).
Proof. reflexivity. Qed.

Lemma result_did {A} (m : M Event A) : result (did m) = result m.
Proof. reflexivity. Qed.

Lemma trace_reply msg token (m : M Event unit) :
  trace (reply msg token m) = [Reply msg token (trace m)].
Proof. reflexivity. Qed.

Lemma result_reply msg token (m : M Event unit) :
  result (reply msg token m) = result m.
Proof. reflexivity. Qed.

Lemma trace_log level message : trace (log level message) = [Log level message].
Proof. reflexivity. Qed.

Lemma result_log level message : result (log level message) = Ok tt.
Proof. reflexivity. Qed.

Lemma trace_waitForTimeout ms : trace (waitForTimeout ms) = [WaitForTimeout ms].
Proof. reflexivity. Qed.

Lemma result_waitForTimeout ms : result (waitForTimeout ms) = Ok tt.
Proof. reflexivity. Qed.

Lemma trace_await op ok : trace (await op ok) = [op].
Proof. destruct ok; reflexivity. Qed.

Lemma result_await op ok :
  result (await op ok) = if ok then Ok tt else Err (Rejection op).
Proof. destruct ok; reflexivity. Qed.

Lemma trace_awaitValue {A} op (r : Settled A) : trace (awaitValue op r) = [op].
Proof. destruct r; reflexivity. Qed.

Lemma result_awaitValue {A} op (r : Settled A) :
  result (awaitValue op r) =
  match r with
  | Fulfilled a => Ok a
  | Rejected => Err (Rejection op)
  end.
Proof. destruct r; reflexivity. Qed.

Lemma trace_throw {E A} e : trace (throw e : M E A) = [].
Proof. reflexivity. Qed.

Lemma result_throw {E A} e : result (throw e : M E A) = Err e.
Proof. reflexivity. Qed.

#[global] Hint Rewrite trace_await result_await @trace_awaitValue
  @result_awaitValue @trace_throw @result_throw : run.

#[global] Hint Rewrite @trace_did @result_did trace_reply result_reply
  trace_log result_log trace_waitForTimeout result_waitForTimeout
  sendQuickReply_ok : run.

Lemma replies_app (t1 t2 : list MonitorEvent) :
  replies (t1 ++ t2) = replies t1 ++ replies t2.
Proof.
  induction t1 as [|[op|msg token ops] t1 IH]; simpl; [reflexivity|exact IH|].
  f_equal. exact IH.
Qed.

Lemma replies_did (l : list Event) : replies (List.map Did l) = [].
Proof. induction l; simpl; auto. Qed.

Lemma repliedKeys_app t1 t2 :
  repliedKeys (t1 ++ t2) = repliedKeys t1 ++ repliedKeys t2.
Proof. unfold repliedKeys. rewrite replies_app. apply List.map_app. Qed.

Lemma repliedKeys_did l : repliedKeys (List.map Did l) = [].
Proof. unfold repliedKeys. rewrite replies_did. reflexivity. Qed.

#[global] Hint Rewrite repliedKeys_app repliedKeys_did : run.

(** The reply branch of the loop body, whichever way [mentionsBot]
    goes: one log, one call of [sendQuickReply], and the loop goes on. *)
Lemma reply_branch (mentionsBot : bool) (w : ReplyWorld) (msg : ChatMessage)
  {A} (k : M MonitorEvent A) :
  let token := if mentionsBot then "dong" else "roger" in
  let note := if mentionsBot then "Bot was mentioned, replying with dong"
              else "Replying with roger" in
  bind (if mentionsBot then
          did (log info "Bot was mentioned, replying with dong") ;;
          reply msg "dong" (sendQuickReply w "dong")
        else
          did (log info "Replying with roger") ;;
          reply msg "roger" (sendQuickReply w "roger"))
       (fun _ => k)
  = (Did (Log info note)
       :: Reply msg token (trace (sendQuickReply w token)) :: trace k,
     result k).
Proof.
  destruct mentionsBot; cbn zeta;
    rewrite (surjective_run (bind _ _)); autorewrite with run;
    reflexivity.
Qed.

Section MonitorFacts.
Context `{StringOps}.
Variable cfg : AppConfig.

(** The loop over a batch never throws; it replies at most once per key,
    never to a key already seen, and every key it replies to is seen
    afterwards. *)
Lemma processMessages_keys (messages : list ChatMessage) :
  forall rw i seen,
  exists o,
    result (processMessages cfg rw i seen messages) = Ok o /\
    NoDup (repliedKeys (trace (processMessages cfg rw i seen messages))) /\
    (forall k, k ∈ repliedKeys (trace (processMessages cfg rw i seen messages)) ->
       k ∉ seen) /\
    (forall seen', o = Some seen' ->
       seen ⊆ seen' /\
       forall k, k ∈ repliedKeys (trace (processMessages cfg rw i seen messages)) ->
         k ∈ seen').
Proof.
  induction messages as [|msg rest IH]; intros rw i seen.
  - exists (Some seen). simpl. split; [reflexivity|].
    split; [constructor|]. split; [intros k Hk; inversion Hk|].
    intros seen' [= <-]. split; [reflexivity|intros k Hk; inversion Hk].
  - cbn [processMessages]. case_bool_decide as Hseen.
    + destruct (IH rw (S i) seen) as (o & Hrun & Hnd & Hfresh & Hseen').
      exists o. auto.
    + destruct (IH rw (S i) ({[messageKey msg]} ∪ seen))
        as (o & Hrun & Hnd & Hfresh & Hseen').
      destruct (isBotOwnMessage cfg msg).
      * exists o. autorewrite with run. cbn [List.map app repliedKeys replies].
        split; [exact Hrun|]. split; [exact Hnd|]. split.
        -- intros k Hk Hin. apply (Hfresh k Hk), elem_of_union_r, Hin.
        -- intros seen' ->. destruct (Hseen' seen' eq_refl) as [Hsub Hin].
           split; [|exact Hin].
           intros k Hk. apply Hsub, elem_of_union_r, Hk.
      * destruct (String.eqb (trim (toLowerCase (text msg))) "quit").
        -- exists None. autorewrite with run. cbn. split; [reflexivity|].
           split; [constructor|]. split; [intros k Hk; inversion Hk|].
           intros seen' [=].
        -- exists o. rewrite reply_branch.
           rewrite trace_bind, result_bind. autorewrite with run.
           cbn [List.map app trace result fst snd].
           change (repliedKeys (Did ?e :: Did ?e' :: Reply ?m ?tk ?ops :: ?t))
             with (messageKey m :: repliedKeys t).
           split; [exact Hrun|]. split; [|split].
           ++ constructor; [|exact Hnd].
              intros Hin. apply (Hfresh _ Hin), elem_of_union_l, elem_of_singleton.
              reflexivity.
           ++ intros k Hk. apply elem_of_cons in Hk as [->|Hk]; [exact Hseen|].
              intros Hin. apply (Hfresh k Hk), elem_of_union_r, Hin.
           ++ intros seen' ->. destruct (Hseen' seen' eq_refl) as [Hsub Hin].
              split; [intros k Hk; apply Hsub, elem_of_union_r, Hk|].
              intros k Hk. apply elem_of_cons in Hk as [->|Hk]; [|auto].
              apply Hsub, elem_of_union_l, elem_of_singleton. reflexivity.
Qed.

Lemma processMessages_total rw i seen messages :
  exists o, result (processMessages cfg rw i seen messages) = Ok o.
Proof.
  destruct (processMessages_keys messages rw i seen) as (o & Ho & _). eauto.
Qed.

(** One iteration whose poll is rejected. *)
Lemma monitorLoop_rejected p rest seen e :
  polled p = Rejected ->
  monitorLoop cfg (p :: rest) seen e =
  if maxConsecutiveErrors <=? S e then
    ([Did (Evaluate "chat messages");
      Did (Log debug "Error monitoring messages");
      Did (Log error "Too many consecutive errors, stopping monitoring")],
     Err MonitoringFailed)
  else
    (Did (Evaluate "chat messages")
       :: Did (Log debug "Error monitoring messages")
       :: Did (WaitForTimeout 1000)
       :: trace (monitorLoop cfg rest seen (S e)),
     result (monitorLoop cfg rest seen (S e))).
Proof.
  intros Hp. cbn [monitorLoop]. rewrite Hp.
  destruct (maxConsecutiveErrors <=? S e); cbn; [reflexivity|].
  destruct (monitorLoop cfg rest seen (S e)); reflexivity.
Qed.

(** One iteration whose poll yields [messages]. *)
Lemma monitorLoop_fulfilled p rest seen e messages o :
  polled p = Fulfilled messages ->
  result (processMessages cfg (replyWorld p) 0 seen messages) = Ok o ->
  monitorLoop cfg (p :: rest) seen e =
  match o with
  | None =>
      (Did (Evaluate "chat messages")
         :: trace (processMessages cfg (replyWorld p) 0 seen messages),
       Ok Returned)
  | Some seen' =>
      (Did (Evaluate "chat messages")
         :: trace (processMessages cfg (replyWorld p) 0 seen messages)
         ++ Did (WaitForTimeout 500) :: trace (monitorLoop cfg rest seen' 0),
       result (monitorLoop cfg rest seen' 0))
  end.
Proof.
  intros Hp Ho.
  rewrite (surjective_run (monitorLoop cfg (p :: rest) seen e)).
  cbn [monitorLoop]. autorewrite with run. rewrite Hp. cbn beta iota.
  autorewrite with run. rewrite Ho. cbn beta iota.
  destruct o as [seen'|]; autorewrite with run; cbn beta iota;
    autorewrite with run; cbn [List.map app].
  - rewrite <- app_assoc. reflexivity.
  - rewrite !app_nil_r. reflexivity.
Qed.

(** Every message of a batch that was processed to its end is seen. *)
Lemma processMessages_marks (messages : list ChatMessage) :
  forall rw i seen seen',
    result (processMessages cfg rw i seen messages) = Ok (Some seen') ->
    seen ⊆ seen' /\ forall msg, msg ∈ messages -> messageKey msg ∈ seen'.
Proof.
  induction messages as [|msg rest IH]; intros rw i seen seen'.
  - cbn. intros [= <-]. split; [reflexivity|]. intros msg Hin. inversion Hin.
  - cbn [processMessages]. case_bool_decide as Hseen.
    + intros Hrun. destruct (IH _ _ _ _ Hrun) as [Hsub Hall].
      split; [exact Hsub|]. intros m Hm.
      apply elem_of_cons in Hm as [->|Hm]; [apply Hsub, Hseen|apply Hall, Hm].
    + assert (Hcont :
        result (processMessages cfg rw (S i) ({[messageKey msg]} ∪ seen) rest)
        = Ok (Some seen') ->
        seen ⊆ seen' /\ forall m, m ∈ msg :: rest -> messageKey m ∈ seen').
      { intros Hrun. destruct (IH _ _ _ _ Hrun) as [Hsub Hall].
        assert (messageKey msg ∈ seen') by (apply Hsub, elem_of_union_l,
                                             elem_of_singleton; reflexivity).
        split.
        - intros k Hk. apply Hsub, elem_of_union_r, Hk.
        - intros m Hm. apply elem_of_cons in Hm as [->|Hm]; auto. }
      destruct (isBotOwnMessage cfg msg).
      * autorewrite with run. cbn beta iota. exact Hcont.
      * destruct (String.eqb (trim (toLowerCase (text msg))) "quit").
        -- autorewrite with run. cbn. discriminate.
        -- rewrite reply_branch. rewrite result_bind. cbn. exact Hcont.
Qed.

(** Along a whole run the keys replied to are pairwise distinct, and
    none of them was seen before the run. *)
Lemma monitorLoop_keys (polls : list PollStep) :
  forall seen e,
    NoDup (repliedKeys (trace (monitorLoop cfg polls seen e))) /\
    forall k, k ∈ repliedKeys (trace (monitorLoop cfg polls seen e)) -> k ∉ seen.
Proof.
  induction polls as [|p rest IH]; intros seen e.
  - cbn. split; [constructor|]. intros k Hk. inversion Hk.
  - destruct (polled p) as [messages|] eqn:Hp.
    + destruct (processMessages_keys messages (replyWorld p) 0 seen)
        as (o & Ho & Hnd & Hfresh & Hseen').
      rewrite (monitorLoop_fulfilled _ _ _ _ _ _ Hp Ho).
      destruct o as [seen'|]; cbn [trace fst].
      * destruct (IH seen' 0) as [Hnd' Hfresh'].
        destruct (Hseen' seen' eq_refl) as [Hsub Hin].
        change (Did ?x :: ?t ++ Did ?y :: ?t')
          with (List.map Did [x] ++ t ++ List.map Did [y] ++ t').
        autorewrite with run. cbn [app]. split.
        -- apply NoDup_app. split; [exact Hnd|]. split; [|exact Hnd'].
           intros k Hk Hk'. apply (Hfresh' k Hk'), Hin, Hk.
        -- intros k Hk. apply elem_of_app in Hk as [Hk|Hk]; [auto|].
           intros Hseen. apply (Hfresh' k Hk), Hsub, Hseen.
      * change (Did ?x :: ?t) with (List.map Did [x] ++ t).
        autorewrite with run. cbn [app]. auto.
    + rewrite (monitorLoop_rejected _ _ _ _ Hp).
      destruct (maxConsecutiveErrors <=? S e); cbn [trace fst].
      * cbn. split; [constructor|]. intros k Hk. inversion Hk.
      * change (repliedKeys (Did ?x :: Did ?y :: Did ?z :: ?t))
          with (repliedKeys t).
        apply IH.
Qed.

End MonitorFacts.

Lemma filter_same_key {A} (key : A -> string) (P : A -> bool) (k : string)
  (l : list A) :
  (forall x, P x = true -> key x = k) ->
  NoDup (List.map key l) ->
  List.length (List.filter P l) <= 1.
Proof.
  intros HP. induction l as [|x l IH]; cbn; [lia|].
  intros Hnd. apply NoDup_cons in Hnd as [Hx Hnd].
  destruct (P x) eqn:Hpx; [|auto].
  cbn. destruct (List.filter P l) as [|y l'] eqn:Hf; [cbn; lia|].
  exfalso. apply Hx.
  assert (Hy : List.In y (List.filter P l)) by (rewrite Hf; left; reflexivity).
  apply List.filter_In in Hy as [Hyl Hpy].
  rewrite (HP x Hpx), <- (HP y Hpy).
  apply list_elem_of_In, List.in_map, Hyl.
Qed.

(** ** Deduplication *)

(** C4. Within one monitoring session the replies to the messages of a
    given sender and text are at most one, however often and in however
    many polls the pair is presented; a message whose key is in
    [seenMessages] is skipped without a trace, the set only grows and
    holds every message of a processed batch, and no later poll of the
    session replies to a message whose key it holds. *)
Theorem dedup_idempotence `{StringOps} (cfg : AppConfig) :
  (forall polls sender txt,
     List.length (repliesTo sender txt (trace (monitorChatMessages cfg polls)))
     <= 1) /\
  (forall rw i seen msg rest,
     messageKey msg ∈ seen ->
     processMessages cfg rw i seen (msg :: rest)
     = processMessages cfg rw (S i) seen rest) /\
  (forall rw i seen messages seen',
     result (processMessages cfg rw i seen messages) = Ok (Some seen') ->
     seen ⊆ seen' /\ forall msg, msg ∈ messages -> messageKey msg ∈ seen') /\
  (forall polls seen e msg token,
     messageKey msg ∈ seen ->
     (msg, token) ∉ replies (trace (monitorLoop cfg polls seen e))).
Proof.
  split; [|split; [|split]].
  - intros polls sender txt. unfold repliesTo.
    apply (filter_same_key (fun r => messageKey (fst r)) _
             (sender +:+ ":" +:+ txt)).
    + intros [msg token]. cbn. intros Hp.
      apply andb_true_iff in Hp as [Hn Ht].
      apply String.eqb_eq in Hn, Ht. unfold messageKey. congruence.
    + unfold monitorChatMessages. rewrite trace_bind. cbn [result did log emit snd].
      rewrite replies_app. cbn [trace did log emit fst List.map replies app].
      apply (monitorLoop_keys cfg polls ∅ 0).
  - intros rw i seen msg rest Hseen. cbn [processMessages].
    rewrite bool_decide_eq_true_2 by exact Hseen. reflexivity.
  - intros rw i seen messages seen'. apply processMessages_marks.
  - intros polls seen e msg token Hseen Hin.
    destruct (monitorLoop_keys cfg polls seen e) as [_ Hfresh].
    apply (Hfresh (messageKey msg)); [|exact Hseen].
    unfold repliedKeys.
    apply (list_elem_of_fmap_2 (fun r => messageKey (fst r)) _ _ Hin).
Qed.

(** ** Processing a batch up to one of its messages *)

Section BatchFacts.
Context `{StringOps}.
Variable cfg : AppConfig.


End BatchFacts.

(** ** Quit command *)


(** ** Mention and default replies *)


(** ** The ceiling on consecutive errors *)

Section CeilingFacts.
Context `{StringOps}.
Variable cfg : AppConfig.

Lemma result_monitorChatMessages polls :
  result (monitorChatMessages cfg polls) = result (monitorLoop cfg polls ∅ 0).
Proof. unfold monitorChatMessages. rewrite result_bind. reflexivity. Qed.

(** The value of the batch loop does not depend on what the replies
    observe. *)
Lemma processMessages_result_replies (messages : list ChatMessage) :
  forall rw rw' i i' seen,
    result (processMessages cfg rw i seen messages)
    = result (processMessages cfg rw' i' seen messages).
Proof.
  induction messages as [|msg rest IH]; intros rw rw' i i' seen; [reflexivity|].
  cbn [processMessages]. case_bool_decide; [apply IH|].
  destruct (isBotOwnMessage cfg msg).
  - rewrite !result_bind. cbn [result did log emit snd]. apply IH.
  - rewrite !result_bind. cbn [result did log emit snd].
    destruct (String.eqb _ _); [reflexivity|].
    rewrite !reply_branch. cbn [result snd]. apply IH.
Qed.

End CeilingFacts.

Section TimedCeiling.
Context `{StringOps}.
Variable cfg : AppConfig.

Lemma result_timed_monitorChatMessages polls :
  result (Timed.monitorChatMessages cfg polls)
  = result (Timed.monitorLoop cfg polls ∅ 0).
Proof. unfold Timed.monitorChatMessages. rewrite result_bind. reflexivity. Qed.

(** One iteration whose poll is rejected. *)
Lemma timed_monitorLoop_rejected p rest seen e :
  pollRejected p ->
  result (Timed.monitorLoop cfg (p :: rest) seen e)
  = resumes cfg p rest seen (S e).
Proof.
  unfold pollRejected, resumes. intros Hp. cbn [Timed.monitorLoop].
  rewrite Hp. unfold Timed.onError, Timed.waitForTimeout.
  destruct (maxConsecutiveErrors <=? S e); [reflexivity|].
  destruct (Timed.afterError p); cbn; [|reflexivity].
  destruct (Timed.monitorLoop cfg rest seen (S e)); reflexivity.
Qed.

(** One iteration whose poll yields [messages]. *)
Lemma timed_monitorLoop_fulfilled p rest seen e messages o :
  polled (Timed.observed p) = Fulfilled messages ->
  result (processMessages cfg (replyWorld (Timed.observed p)) 0 seen messages)
  = Ok o ->
  result (Timed.monitorLoop cfg (p :: rest) seen e) =
  match o with
  | None => Ok Returned
  | Some seen' =>
      if Timed.afterBatch p
      then result (Timed.monitorLoop cfg rest seen' 0)
      else resumes cfg p rest seen' 1
  end.
Proof.
  intros Hp Ho. cbn [Timed.monitorLoop]. rewrite Hp.
  rewrite result_bind, result_bind.
  change (result (Timed.settle ?m)) with (Ok (result m)). cbn beta iota.
  rewrite result_did, result_awaitValue. cbn beta iota.
  rewrite result_bind, Ho. cbn beta iota.
  destruct o as [seen'|]; [|reflexivity].
  rewrite result_bind.
  change (result (Timed.settle ?m)) with (Ok (result m)). cbn beta iota.
  unfold Timed.waitForTimeout. rewrite result_did, result_await.
  destruct (Timed.afterBatch p); cbn beta iota; [reflexivity|].
  unfold Timed.onError, Timed.waitForTimeout, resumes.
  rewrite result_bind, result_did, result_log. cbn beta iota.
  destruct (maxConsecutiveErrors <=? 1); [reflexivity|].
  rewrite result_bind, result_did, result_await.
  destruct (Timed.afterError p); reflexivity.
Qed.

(** Running a script in two parts. *)
Lemma timed_monitorLoop_app (l1 l2 : list Timed.Poll) :
  forall seen e,
    result (Timed.monitorLoop cfg (l1 ++ l2) seen e) =
    match result (Timed.monitorLoop cfg l1 seen e) with
    | Ok (Polling seen' e') => result (Timed.monitorLoop cfg l2 seen' e')
    | r => r
    end.
Proof.
  induction l1 as [|p l1 IH]; intros seen e; [reflexivity|].
  cbn [app]. destruct (polled (Timed.observed p)) as [messages|] eqn:Hp.
  - destruct (processMessages_total cfg (replyWorld (Timed.observed p)) 0 seen
                messages) as [o Ho].
    rewrite !(timed_monitorLoop_fulfilled _ _ _ _ _ _ Hp Ho).
    destruct o as [seen'|]; [|reflexivity].
    unfold resumes.
    destruct (Timed.afterBatch p); [apply IH|].
    destruct (maxConsecutiveErrors <=? 1); [reflexivity|].
    destruct (Timed.afterError p); [apply IH|reflexivity].
  - rewrite !(timed_monitorLoop_rejected _ _ _ _ Hp). unfold resumes.
    destruct (maxConsecutiveErrors <=? S e); [reflexivity|].
    destruct (Timed.afterError p); [apply IH|reflexivity].
Qed.

(** The loop keeps its counter below the ceiling, and throws nothing but
    [MonitoringFailed] and the rejection of the wait of its handler. *)
Lemma timed_monitorLoop_bound (polls : list Timed.Poll) :
  forall seen e,
    e < maxConsecutiveErrors ->
    match result (Timed.monitorLoop cfg polls seen e) with
    | Ok (Polling _ e') => e' < maxConsecutiveErrors
    | Ok Returned => True
    | Err err => err = MonitoringFailed \/ err = Rejection (WaitForTimeout 1000)
    end.
Proof.
  induction polls as [|p polls IH]; intros seen e He; [exact He|].
  destruct (polled (Timed.observed p)) as [messages|] eqn:Hp.
  - destruct (processMessages_total cfg (replyWorld (Timed.observed p)) 0 seen
                messages) as [o Ho].
    rewrite (timed_monitorLoop_fulfilled _ _ _ _ _ _ Hp Ho).
    destruct o as [seen'|]; [|exact I]. unfold resumes.
    destruct (Timed.afterBatch p);
      [apply IH; unfold maxConsecutiveErrors; lia|].
    destruct (maxConsecutiveErrors <=? 1); [left; reflexivity|].
    destruct (Timed.afterError p);
      [apply IH; unfold maxConsecutiveErrors; lia|right; reflexivity].
  - rewrite (timed_monitorLoop_rejected _ _ _ _ Hp). unfold resumes.
    destruct (maxConsecutiveErrors <=? S e) eqn:Hc; [left; reflexivity|].
    apply Nat.leb_gt in Hc.
    destruct (Timed.afterError p); [apply IH, Hc|right; reflexivity].
Qed.

(** Rejected polls in a row, with the waits between them resolving,
    reach the ceiling. *)
Lemma timed_monitorLoop_failures (failures : list Timed.Poll) :
  forall seen e post,
    Forall pollRejected failures ->
    Forall (fun p => Timed.afterError p = true) failures ->
    e < maxConsecutiveErrors ->
    maxConsecutiveErrors <= e + List.length failures ->
    result (Timed.monitorLoop cfg (failures ++ post) seen e)
    = Err MonitoringFailed.
Proof.
  induction failures as [|p failures IH]; intros seen e post Hall Hwaits He Hlen.
  - cbn in Hlen. lia.
  - apply Forall_cons in Hall as [Hp Hall].
    apply Forall_cons in Hwaits as [Hw Hwaits]. cbn [app].
    rewrite (timed_monitorLoop_rejected _ _ _ _ Hp). unfold resumes.
    destruct (maxConsecutiveErrors <=? S e) eqn:Hc; [reflexivity|].
    apply Nat.leb_gt in Hc. rewrite Hw.
    apply IH; [exact Hall|exact Hwaits|exact Hc|cbn in Hlen; lia].
Qed.

(** A run that throws [MonitoringFailed] does so at a rejected poll met
    with the counter one below the ceiling. *)
Lemma timed_monitorLoop_throws (polls : list Timed.Poll) :
  forall seen e,
    e < maxConsecutiveErrors ->
    result (Timed.monitorLoop cfg polls seen e) = Err MonitoringFailed ->
    exists pre p post seen',
      polls = pre ++ p :: post /\
      result (Timed.monitorLoop cfg pre seen e)
      = Ok (Polling seen' (pred maxConsecutiveErrors)) /\
      pollRejected p.
Proof.
  induction polls as [|p polls IH]; intros seen e He; [discriminate|].
  assert (Hnext : forall seen' e',
    e' < maxConsecutiveErrors ->
    result (Timed.monitorLoop cfg [p] seen e) = Ok (Polling seen' e') ->
    result (Timed.monitorLoop cfg polls seen' e') = Err MonitoringFailed ->
    exists pre q post seen'',
      p :: polls = pre ++ q :: post /\
      result (Timed.monitorLoop cfg pre seen e)
      = Ok (Polling seen'' (pred maxConsecutiveErrors)) /\
      pollRejected q).
  { intros seen' e' He' Hone Hthrow.
    destruct (IH seen' e' He' Hthrow) as (pre & q & post & s & -> & Hpre & Hq).
    exists (p :: pre), q, post, s. split; [reflexivity|]. split; [|exact Hq].
    change (p :: pre) with ([p] ++ pre).
    rewrite timed_monitorLoop_app, Hone. exact Hpre. }
  destruct (polled (Timed.observed p)) as [messages|] eqn:Hp.
  - destruct (processMessages_total cfg (replyWorld (Timed.observed p)) 0 seen
                messages) as [o Ho].
    rewrite (timed_monitorLoop_fulfilled _ _ _ _ _ _ Hp Ho).
    pose proof (timed_monitorLoop_fulfilled p [] seen e _ _ Hp Ho) as Hone.
    destruct o as [seen'|]; [|discriminate]. unfold resumes in *.
    destruct (Timed.afterBatch p).
    + apply (Hnext seen' 0); [unfold maxConsecutiveErrors; lia|exact Hone].
    + destruct (maxConsecutiveErrors <=? 1) eqn:Hc; [discriminate Hc|].
      destruct (Timed.afterError p); [|discriminate].
      apply (Hnext seen' 1); [unfold maxConsecutiveErrors; lia|exact Hone].
  - rewrite (timed_monitorLoop_rejected _ _ _ _ Hp).
    pose proof (timed_monitorLoop_rejected p [] seen e Hp) as Hone.
    unfold resumes in *.
    destruct (maxConsecutiveErrors <=? S e) eqn:Hc.
    + intros _. apply Nat.leb_le in Hc.
      exists [], p, polls, seen. split; [reflexivity|]. split; [|exact Hp].
      unfold maxConsecutiveErrors in *. cbn. f_equal. f_equal. lia.
    + apply Nat.leb_gt in Hc.
      destruct (Timed.afterError p); [|discriminate].
      apply (Hnext seen (S e)); [exact Hc|exact Hone].
Qed.

(** The value of a run does not depend on what the replies observe. *)
Lemma timed_monitorLoop_result_replies (polls : list Timed.Poll) :
  forall polls' seen e,
    Forall2 (fun p p' =>
               polled (Timed.observed p) = polled (Timed.observed p') /\
               Timed.afterBatch p = Timed.afterBatch p' /\
               Timed.afterError p = Timed.afterError p') polls polls' ->
    result (Timed.monitorLoop cfg polls seen e)
    = result (Timed.monitorLoop cfg polls' seen e).
Proof.
  induction polls as [|p polls IH]; intros polls' seen e Hsame;
    inversion Hsame as [|? p' ? polls'' (Hp & Hb & He) Hrest]; subst;
    [reflexivity|].
  destruct (polled (Timed.observed p)) as [messages|] eqn:Hpp; symmetry in Hp.
  - destruct (processMessages_total cfg (replyWorld (Timed.observed p)) 0 seen
                messages) as [o Ho].
    rewrite (timed_monitorLoop_fulfilled _ _ _ _ _ _ Hpp Ho).
    rewrite (processMessages_result_replies cfg messages _
               (replyWorld (Timed.observed p')) 0 0) in Ho.
    rewrite (timed_monitorLoop_fulfilled _ _ _ _ _ _ Hp Ho).
    destruct o as [seen'|]; [|reflexivity]. unfold resumes.
    rewrite <- Hb, <- He.
    destruct (Timed.afterBatch p); [apply IH, Hrest|].
    destruct (maxConsecutiveErrors <=? 1); [reflexivity|].
    destruct (Timed.afterError p); [apply IH, Hrest|reflexivity].
  - rewrite (timed_monitorLoop_rejected _ _ _ _ Hpp),
            (timed_monitorLoop_rejected p' _ _ _ Hp).
    unfold resumes. rewrite <- He.
    destruct (maxConsecutiveErrors <=? S e); [reflexivity|].
    destruct (Timed.afterError p); [apply IH, Hrest|reflexivity].
Qed.

End TimedCeiling.

(** Ten iterations in a row can fail without the method throwing
    [MonitoringFailed].  In the first session the tenth poll is fulfilled
    and the surface is closed during the wait that follows: the handler
    counts one error and its own wait is rejected, which is what the
    method throws.  In the second the fifth poll is fulfilled and only the
    wait after it is rejected, which restarts the count at one, so the
    loop is still polling after the tenth failure.  And the method can
    throw [MonitoringFailed] after nine rejected polls only: in the third
    session the rejected wait of the first iteration was the first
    error. *)
Lemma error_ceiling_restarts :
  result (Timed.monitorChatMessages friday
            (List.repeat rejectedThenWaits 9 ++ [polledThenClosed]))
  = Err (Rejection (WaitForTimeout 1000)) /\
  result (Timed.monitorChatMessages friday
            (List.repeat rejectedThenWaits 4
               ++ polledThenInterrupted :: List.repeat rejectedThenWaits 5))
  = Ok (Polling ∅ 6) /\
  result (Timed.monitorChatMessages friday
            (polledThenInterrupted :: List.repeat rejectedThenWaits 9))
  = Err MonitoringFailed.
Proof. repeat split. Qed.

(** C8, amended. The monitoring method throws [MonitoringFailed] exactly
    when its counter reaches [maxConsecutiveErrors], that is when a poll
    is rejected while the counter is one below it.  A rejected poll adds
    one to the counter.  A poll that is processed resets it to zero, and
    when the wait that follows is rejected that rejection is the first
    error of a new count.  After an error below the ceiling the loop
    waits one second, and the rejection of that wait is thrown instead.
    Neither the counter nor the outcome depends on what the replies
    observe, so a reply that fails counts for nothing.  Ten rejected polls
    in a row, the waits between them resolving, make the method throw
    [MonitoringFailed]. *)
Theorem error_ceiling `{StringOps} (cfg : AppConfig) :
  maxConsecutiveErrors = 10 /\
  (forall polls,
     result (Timed.monitorChatMessages cfg polls) = Err MonitoringFailed <->
     exists pre p post seen,
       polls = pre ++ p :: post /\
       result (Timed.monitorChatMessages cfg pre) = Ok (Polling seen 9) /\
       pollRejected p) /\
  (forall polls p seen e,
     pollRejected p ->
     result (Timed.monitorChatMessages cfg polls) = Ok (Polling seen e) ->
     result (Timed.monitorChatMessages cfg (polls ++ [p])) =
     if maxConsecutiveErrors <=? S e then Err MonitoringFailed
     else if Timed.afterError p then Ok (Polling seen (S e))
          else Err (Rejection (WaitForTimeout 1000))) /\
  (forall polls p seen e,
     ~ pollRejected p ->
     result (Timed.monitorChatMessages cfg (polls ++ [p])) = Ok (Polling seen e) ->
     e = if Timed.afterBatch p then 0 else 1) /\
  (forall polls polls',
     Forall2 (fun p p' =>
                polled (Timed.observed p) = polled (Timed.observed p') /\
                Timed.afterBatch p = Timed.afterBatch p' /\
                Timed.afterError p = Timed.afterError p') polls polls' ->
     result (Timed.monitorChatMessages cfg polls)
     = result (Timed.monitorChatMessages cfg polls')) /\
  (forall polls err,
     result (Timed.monitorChatMessages cfg polls) = Err err ->
     err = MonitoringFailed \/ err = Rejection (WaitForTimeout 1000)) /\
  (forall pre failures post seen e,
     result (Timed.monitorChatMessages cfg pre) = Ok (Polling seen e) ->
     List.length failures = maxConsecutiveErrors ->
     Forall pollRejected failures ->
     Forall (fun p => Timed.afterError p = true) failures ->
     result (Timed.monitorChatMessages cfg (pre ++ failures ++ post))
     = Err MonitoringFailed).
Proof.
  assert (H0 : 0 < maxConsecutiveErrors) by (unfold maxConsecutiveErrors; lia).
  split; [reflexivity|]. split; [|split; [|split; [|split; [|split]]]].
  - intros polls. rewrite result_timed_monitorChatMessages. split.
    + intros Hthrow.
      destruct (timed_monitorLoop_throws cfg polls ∅ 0 H0 Hthrow)
        as (pre & p & post & seen & -> & Hpre & Hp).
      exists pre, p, post, seen. rewrite result_timed_monitorChatMessages.
      auto.
    + intros (pre & p & post & seen & -> & Hpre & Hp).
      rewrite result_timed_monitorChatMessages in Hpre.
      rewrite timed_monitorLoop_app, Hpre.
      rewrite (timed_monitorLoop_rejected cfg _ _ _ _ Hp). reflexivity.
  - intros polls p seen e Hp. rewrite !result_timed_monitorChatMessages.
    intros Hr.
    rewrite timed_monitorLoop_app, Hr, (timed_monitorLoop_rejected cfg _ _ _ _ Hp).
    unfold resumes.
    destruct (maxConsecutiveErrors <=? S e), (Timed.afterError p); reflexivity.
  - intros polls p seen e Hp.
    rewrite result_timed_monitorChatMessages, timed_monitorLoop_app.
    destruct (result (Timed.monitorLoop cfg polls ∅ 0)) as [[|seen' e']|err];
      try discriminate.
    destruct (polled (Timed.observed p)) as [messages|] eqn:Hpp;
      [|contradiction].
    destruct (processMessages_total cfg (replyWorld (Timed.observed p)) 0 seen'
                messages) as [o Ho].
    rewrite (timed_monitorLoop_fulfilled cfg _ _ _ _ _ _ Hpp Ho).
    destruct o; [|discriminate]. unfold resumes.
    destruct (Timed.afterBatch p); cbn; [intros [= _ <-]; reflexivity|].
    destruct (Timed.afterError p); cbn; [|discriminate].
    intros [= _ <-]. reflexivity.
  - intros polls polls' Hsame. rewrite !result_timed_monitorChatMessages.
    apply timed_monitorLoop_result_replies, Hsame.
  - intros polls err. rewrite result_timed_monitorChatMessages.
    pose proof (timed_monitorLoop_bound cfg polls ∅ 0 H0) as Hb.
    intros Herr. rewrite Herr in Hb. exact Hb.
  - intros pre failures post seen e Hpre Hlen Hall Hwaits.
    rewrite result_timed_monitorChatMessages in *.
    rewrite timed_monitorLoop_app, Hpre.
    pose proof (timed_monitorLoop_bound cfg pre ∅ 0 H0) as Hb.
    rewrite Hpre in Hb.
    apply timed_monitorLoop_failures; [exact Hall|exact Hwaits|exact Hb|lia].
Qed.

(* ================================================================== *)
(** * Facts about candidate resolution *)
(* ================================================================== *)

Lemma isVisibleOrFalse_run isVisible l :
  isVisibleOrFalse isVisible l = ([IsVisible l], Ok (probed isVisible l)).
Proof.
  unfold isVisibleOrFalse, probed. destruct (isVisible l) as [[]|]; reflexivity.
Qed.

Lemma visibilityChecksFrom_run isVisible (candidates : list Locator) :
  forall i,
    visibilityChecksFrom isVisible i candidates =
    (List.map IsVisible candidates, Ok (checksFrom isVisible i candidates)).
Proof.
  induction candidates as [|l rest IH]; intros i; [reflexivity|].
  cbn [visibilityChecksFrom checksFrom List.map].
  rewrite isVisibleOrFalse_run, (IH (S i)). cbn [bind ret app].
  rewrite app_nil_r. reflexivity.
Qed.

Lemma find_checksFrom_at isVisible (candidates : list Locator) :
  forall i k c,
    candidates !! k = Some c ->
    probed isVisible c = true ->
    none (probed isVisible) (take k candidates) = true ->
    List.find visible (checksFrom isVisible i candidates)
    = Some {| index := i + k; checked := c; visible := true |}.
Proof.
  induction candidates as [|l rest IH]; intros i k c Hk Hc Hnone;
    [discriminate|].
  destruct k as [|k]; cbn in Hk.
  - injection Hk as ->. cbn. rewrite Hc, Nat.add_0_r. reflexivity.
  - cbn in Hnone. apply andb_true_iff in Hnone as [Hl Hnone].
    apply negb_true_iff in Hl. cbn. rewrite Hl.
    rewrite (IH (S i) k c Hk Hc Hnone).
    replace (S i + k) with (i + S k) by lia. reflexivity.
Qed.

Lemma find_checksFrom_none isVisible (candidates : list Locator) :
  forall i,
    none (probed isVisible) candidates = true ->
    List.find visible (checksFrom isVisible i candidates) = None.
Proof.
  induction candidates as [|l rest IH]; intros i Hnone; [reflexivity|].
  cbn in Hnone. apply andb_true_iff in Hnone as [Hl Hnone].
  apply negb_true_iff in Hl. cbn. rewrite Hl. apply IH, Hnone.
Qed.

Lemma waitForEach_at (w : InputWorld) (candidates : list Locator) :
  forall i k c,
    candidates !! k = Some c ->
    inputAppears w c = true ->
    none (inputAppears w) (take k candidates) = true ->
    waitForEach w i candidates =
    (List.map (fun l => WaitFor l 300) (take (S k) candidates)
       ++ [LogAt info "Resolved chat input (fallback)" (i + k)],
     Ok (Some c)).
Proof.
  induction candidates as [|l rest IH]; intros i k c Hk Hc Hnone;
    [discriminate|].
  destruct k as [|k]; cbn in Hk.
  - injection Hk as ->. cbn [waitForEach]. rewrite Hc, Nat.add_0_r. reflexivity.
  - cbn in Hnone. apply andb_true_iff in Hnone as [Hl Hnone].
    apply negb_true_iff in Hl. cbn [waitForEach]. rewrite Hl.
    cbn [await emit bind throw tryCatch app].
    rewrite (IH (S i) k c Hk Hc Hnone).
    replace (S i + k) with (i + S k) by lia. reflexivity.
Qed.

(** The fallback loop up to the first click that succeeds, and the wait
    that decides whether the loop goes on. *)
Lemma timed_clickEach_at (w : JoinWorld) (t : Timed.JoinWaits)
  (candidates : list Locator) :
  forall i k c,
    candidates !! k = Some c ->
    joinClickFallback w c = true ->
    none (joinClickFallback w) (take k candidates) = true ->
    let next :=
      tryCatch (Timed.waitForTimeout 200 (Timed.afterFallbackClick t c))
        (fun _ => Timed.clickEach w t (S (i + k)) (drop (S k) candidates)) in
    Timed.clickEach w t i candidates =
    (List.map (fun l => Click l 1000) (take (S k) candidates)
       ++ LogAt info "Clicked Join button (fallback)" (i + k) :: trace next,
     result next).
Proof.
  induction candidates as [|l rest IH]; intros i k c Hk Hc Hnone;
    [discriminate|].
  destruct k as [|k]; cbn in Hk.
  - injection Hk as ->. cbn zeta. rewrite Nat.add_0_r.
    cbn [Timed.clickEach]. rewrite Hc. unfold Timed.waitForTimeout.
    change (take 1 (c :: rest)) with (c :: take 0 rest).
    change (drop 1 (c :: rest)) with (drop 0 rest).
    rewrite take_0, drop_0.
    destruct (Timed.afterFallbackClick t c); cbn; [reflexivity|].
    destruct (Timed.clickEach w t (S i) rest); reflexivity.
  - cbn in Hnone. apply andb_true_iff in Hnone as [Hl Hnone].
    apply negb_true_iff in Hl. cbn zeta.
    cbn [Timed.clickEach]. rewrite Hl.
    cbn [await emit bind throw tryCatch app].
    rewrite (IH (S i) k c Hk Hc Hnone). cbn zeta.
    replace (S i + k) with (i + S k) by lia. reflexivity.
Qed.

(** ** Priority of the candidates *)

(** C3. Let [c] be the candidate at index [k]. In the parallel check, if
    [c] is seen visible and no candidate before it is (whether or not
    later ones are), [findChatInputCandidates] returns [c] after the
    probes and logs index [k], and [submitJoin] clicks [c] and nothing
    else. In the sequential fallback, entered when the check saw no
    candidate visible, the first candidate for which the wait (the click,
    in [submitJoin]) succeeds is the one returned (clicked), after one
    attempt on each candidate before it in list order. In [submitJoin]
    the click on the visible candidate is followed by a wait whose
    rejection the method throws, and the click of the fallback by a wait
    inside the same [try]: the method returns when that wait resolves,
    and the loop goes on with the candidates after [c] when it is
    rejected. *)
Theorem resolver_priority (w : InputWorld) (jw : JoinWorld)
  (candidates : list Locator) (k : nat) (c : Locator) :
  candidates !! k = Some c ->
  (probed (inputVisible w) c = true ->
   none (probed (inputVisible w)) (take k candidates) = true ->
   findAmong w candidates =
   (List.map IsVisible candidates ++ [LogAt info "Resolved chat input" k],
    Ok (Some c))) /\
  (none (probed (inputVisible w)) candidates = true ->
   inputAppears w c = true ->
   none (inputAppears w) (take k candidates) = true ->
   findAmong w candidates =
   (List.map IsVisible candidates
      ++ List.map (fun l => WaitFor l 300) (take (S k) candidates)
      ++ [LogAt info "Resolved chat input (fallback)" k],
    Ok (Some c))) /\
  (forall t : Timed.JoinWaits,
     probed (joinVisible jw) c = true ->
     none (probed (joinVisible jw)) (take k candidates) = true ->
     Timed.submitJoinAmong jw t candidates =
     (Timed.dismissBlockingModals (joinModals jw) (Timed.joinModalWaits t)
        "before-join" ;;
      forEach candidates (fun l => emit (IsVisible l)) ;;
      await (Click c 1000) (joinClick jw c) ;;
      logAt info "Clicked Join button" k ;;
      Timed.waitForTimeout 200 (Timed.afterJoinClick t))) /\
  (forall t : Timed.JoinWaits,
     none (probed (joinVisible jw)) candidates = true ->
     joinClickFallback jw c = true ->
     none (joinClickFallback jw) (take k candidates) = true ->
     Timed.submitJoinAmong jw t candidates =
     (Timed.dismissBlockingModals (joinModals jw) (Timed.joinModalWaits t)
        "before-join" ;;
      forEach candidates (fun l => emit (IsVisible l)) ;;
      forEach (take (S k) candidates) (fun l => emit (Click l 1000)) ;;
      logAt info "Clicked Join button (fallback)" k ;;
      tryCatch (Timed.waitForTimeout 200 (Timed.afterFallbackClick t c))
        (fun _ => Timed.clickEach jw t (S k) (drop (S k) candidates)))).
Proof.
  intros Hk.
  assert (Hprobes : forall l : list Locator,
            forEach l (fun l => emit (IsVisible l))
            = (List.map IsVisible l, Ok tt)).
  { induction l as [|x l IH]; [reflexivity|]. cbn [forEach List.map].
    rewrite IH. reflexivity. }
  assert (Hclicks : forall l : list Locator,
            forEach l (fun l => emit (Click l 1000))
            = (List.map (fun l => Click l 1000) l, Ok tt)).
  { induction l as [|x l IH]; [reflexivity|]. cbn [forEach List.map].
    rewrite IH. reflexivity. }
  split; [|split; [|split]].
  - intros Hc Hnone. unfold findAmong, visibilityChecks.
    rewrite visibilityChecksFrom_run. cbn [bind].
    rewrite (find_checksFrom_at _ _ 0 k c Hk Hc Hnone). reflexivity.
  - intros Hnone Hc Hbefore. unfold findAmong, visibilityChecks.
    rewrite visibilityChecksFrom_run. cbn [bind].
    rewrite (find_checksFrom_none _ _ 0 Hnone).
    rewrite (waitForEach_at w _ 0 k c Hk Hc Hbefore). reflexivity.
  - intros t Hc Hnone. unfold Timed.submitJoinAmong, visibilityChecks.
    rewrite visibilityChecksFrom_run, Hprobes.
    destruct (Timed.dismissBlockingModals _ _ _) as [tm [[]|e]]; [|reflexivity].
    cbn [bind]. rewrite (find_checksFrom_at _ _ 0 k c Hk Hc Hnone).
    reflexivity.
  - intros t Hnone Hc Hbefore. unfold Timed.submitJoinAmong, visibilityChecks.
    rewrite visibilityChecksFrom_run, Hprobes, Hclicks.
    destruct (Timed.dismissBlockingModals _ _ _) as [tm [[]|e]]; [|reflexivity].
    cbn [bind]. rewrite (find_checksFrom_none _ _ 0 Hnone).
    rewrite (timed_clickEach_at jw t _ 0 k c Hk Hc Hbefore). cbn zeta.
    cbn [Nat.add logAt emit].
    destruct (tryCatch _ _) as [tn rn]. cbn [trace result fst snd].
    reflexivity.
Qed.

(* ================================================================== *)
(** * Facts about modal dismissal *)
(* ================================================================== *)

Lemma result_forEach_caught {A} (l : list A) (f : A -> M Event unit) :
  result (forEach l (fun x => tryCatch (f x) (fun _ => ret tt))) = Ok tt.
Proof.
  induction l as [|x l IH]; [reflexivity|].
  cbn [forEach]. rewrite result_bind, result_tryCatch.
  destruct (result (f x)) as [[]|e]; exact IH.
Qed.

(** Where [dismissBlockingModals] ends, whatever the dismiss clicks, the
    Escape key and the forced removal do. *)
Lemma result_dismissBlockingModals (w : ModalWorld) (t : Timed.ModalWaits)
  (context : string) :
  result (Timed.dismissBlockingModals w t context) =
  match initialCount w with
  | Rejected => Err (Rejection (Count overlayLocator))
  | Fulfilled 0 => Ok tt
  | Fulfilled (S _) =>
      if Timed.afterEscape t then
        match remainingCount w with
        | Rejected => Err (Rejection (Count overlayLocator))
        | Fulfilled 0 => Ok tt
        | Fulfilled (S _) =>
            if Timed.afterRemoval t then Ok tt
            else Err (Rejection (WaitForTimeout 150))
        end
      else Err (Rejection (WaitForTimeout 200))
  end.
Proof.
  unfold Timed.dismissBlockingModals, Timed.waitForTimeout.
  rewrite result_bind, result_awaitValue.
  destruct (initialCount w) as [[|n]|]; [reflexivity| |reflexivity].
  cbn [Nat.eqb].
  pose proof (result_forEach_caught dismissSelectors
             (fun selector =>
                await (Click (locator surface selector) 300)
                      (dismissClick w selector) ;;
                log info "Clicked modal dismiss control")) as Hclicks.
  rewrite result_bind, result_log. cbn beta iota.
  rewrite result_bind, Hclicks. cbn beta iota.
  rewrite result_bind, result_tryCatch, result_await.
  assert (Hescape :
    match (if escapePress w then Ok tt
           else Err (Rejection (Press body "Escape"))) with
    | Ok a => Ok a
    | Err e => result (ret tt : M Event unit)
    end = Ok tt) by (destruct (escapePress w); reflexivity).
  rewrite Hescape. cbn beta iota.
  rewrite result_bind, result_await.
  destruct (Timed.afterEscape t); [|reflexivity]. cbn beta iota.
  rewrite result_bind, result_awaitValue.
  destruct (remainingCount w) as [[|remaining]|]; [reflexivity| |reflexivity].
  cbn [Nat.ltb Nat.leb]. cbn beta iota.
  rewrite result_bind, result_log. cbn beta iota.
  rewrite result_bind, result_tryCatch, result_bind, result_awaitValue.
  destruct (forceRemove w); cbn beta iota;
    rewrite ?result_log; cbn beta iota; rewrite result_await;
    destruct (Timed.afterRemoval t); reflexivity.
Qed.

(** On a closed surface the first overlay count is rejected and
    [dismissBlockingModals] throws that rejection to its caller. *)
Lemma dismissBlockingModals_raises :
  result (Timed.dismissBlockingModals closedSurface modalWaitsRejected
            "before-join")
  = Err (Rejection (Count overlayLocator)).
Proof. reflexivity. Qed.

(** C9, amended. When the first count is zero [dismissBlockingModals]
    returns at once, having done nothing but that count.  Otherwise it
    throws only the rejection of one of the four operations it awaits
    unguarded: its two overlay counts, the wait after the Escape key, and
    the wait after the forced removal when overlays remain; whether the
    dismiss clicks, the Escape key or the forced removal fail has no
    effect on how it ends. *)
Theorem dismissBlockingModals_best_effort (w : ModalWorld)
  (t : Timed.ModalWaits) (context : string) :
  (initialCount w = Fulfilled 0 ->
   Timed.dismissBlockingModals w t context = ([Count overlayLocator], Ok tt)) /\
  result (Timed.dismissBlockingModals w t context) =
  match initialCount w with
  | Rejected => Err (Rejection (Count overlayLocator))
  | Fulfilled 0 => Ok tt
  | Fulfilled (S _) =>
      if Timed.afterEscape t then
        match remainingCount w with
        | Rejected => Err (Rejection (Count overlayLocator))
        | Fulfilled 0 => Ok tt
        | Fulfilled (S _) =>
            if Timed.afterRemoval t then Ok tt
            else Err (Rejection (WaitForTimeout 150))
        end
      else Err (Rejection (WaitForTimeout 200))
  end.
Proof.
  split; [|apply result_dismissBlockingModals].
  intros H0. unfold Timed.dismissBlockingModals. rewrite H0. reflexivity.
Qed.

(* ================================================================== *)
(** * Facts about admission detection *)
(* ================================================================== *)

Lemma probeIndicators_run isVisible (indicators : list (string * Locator)) :
  probeIndicators isVisible indicators =
  (List.map (fun i => IsVisible (snd i)) indicators,
   Ok (stateOf isVisible indicators)).
Proof.
  induction indicators as [|[n l] rest IH]; [reflexivity|].
  cbn [probeIndicators stateOf List.map snd]. rewrite IH.
  cbn [bind emit ret app]. rewrite app_nil_r. reflexivity.
Qed.

(** The in-meeting buttons of [visibilityState] are the in-meeting
    indicators whose probe was fulfilled with [true]. *)
Lemma inMeetingButtons_length isVisible (indicators : list (string * Locator)) :
  List.length (List.filter isInMeetingButton (stateOf isVisible indicators)) =
  List.length
    (List.filter (fun i => existsb (String.eqb (fst i)) inMeetingNames
                           && probed isVisible (snd i))
                 indicators).
Proof.
  induction indicators as [|[n l] rest IH]; [reflexivity|].
  cbn [stateOf List.filter fst snd]. unfold probed at 1.
  destruct (isVisible l) as [v|].
  - cbn [List.filter]. unfold isInMeetingButton at 1. cbn [fst snd].
    destruct (existsb (String.eqb n) inMeetingNames), v; cbn; rewrite IH;
      reflexivity.
  - rewrite andb_false_r. exact IH.
Qed.

(** ** The admission shortcut *)

(** C7. If at least two of the four in-meeting indicators (join audio,
    participants, chat, video) are seen visible by the initial parallel
    probe, [waitForAdmission] returns normally right after it: its trace
    is the settle delay, the six probes and the logs, with no wait on
    the Leave button, whatever the lobby would have shown and whatever
    the lobby timeout. *)
Theorem admission_shortcut (cfg : AppConfig) (w : AdmissionWorld) :
  2 <= List.length
         (List.filter (probed (indicatorVisible w))
            [joinAudioButton; participantsButton; chatButton; videoButton]) ->
  waitForAdmission cfg w =
  ([Log info "Waiting to be admitted to the meeting";
    WaitForTimeout 500;
    Log debug "Checking meeting state indicators";
    IsVisible leaveButton;
    IsVisible waitingText;
    IsVisible joinAudioButton;
    IsVisible participantsButton;
    IsVisible chatButton;
    IsVisible videoButton;
    Log info "Meeting state after join";
    Log info "Detected in-meeting UI, skipping lobby wait"],
   Ok leaveButton) /\
  forall l timeout, ~ List.In (WaitFor l timeout) (trace (waitForAdmission cfg w)).
Proof.
  intros Hvisible.
  assert (Hrun : waitForAdmission cfg w =
    ([Log info "Waiting to be admitted to the meeting";
      WaitForTimeout 500;
      Log debug "Checking meeting state indicators";
      IsVisible leaveButton;
      IsVisible waitingText;
      IsVisible joinAudioButton;
      IsVisible participantsButton;
      IsVisible chatButton;
      IsVisible videoButton;
      Log info "Meeting state after join";
      Log info "Detected in-meeting UI, skipping lobby wait"],
     Ok leaveButton)).
  { unfold waitForAdmission. rewrite probeIndicators_run.
    cbn [bind log emit waitForTimeout app List.map snd stateIndicators].
    rewrite inMeetingButtons_length.
    cbn [List.filter stateIndicators fst snd existsb inMeetingNames
         String.eqb Ascii.eqb Bool.eqb orb andb].
    assert (Hle : (2 <=? List.length
              (if probed (indicatorVisible w) joinAudioButton
               then ("joinAudioButton", joinAudioButton)
                    :: (if probed (indicatorVisible w) participantsButton
                        then ("participantsButton", participantsButton)
                             :: (if probed (indicatorVisible w) chatButton
                                 then ("chatButton", chatButton)
                                      :: (if probed (indicatorVisible w) videoButton
                                          then [("videoButton", videoButton)]
                                          else [])
                                 else if probed (indicatorVisible w) videoButton
                                      then [("videoButton", videoButton)]
                                      else [])
                        else if probed (indicatorVisible w) chatButton
                             then ("chatButton", chatButton)
                                  :: (if probed (indicatorVisible w) videoButton
                                      then [("videoButton", videoButton)]
                                      else [])
                             else if probed (indicatorVisible w) videoButton
                                  then [("videoButton", videoButton)]
                                  else [])
               else if probed (indicatorVisible w) participantsButton
                    then ("participantsButton", participantsButton)
                         :: (if probed (indicatorVisible w) chatButton
                             then ("chatButton", chatButton)
                                  :: (if probed (indicatorVisible w) videoButton
                                      then [("videoButton", videoButton)]
                                      else [])
                             else if probed (indicatorVisible w) videoButton
                                  then [("videoButton", videoButton)]
                                  else [])
                    else if probed (indicatorVisible w) chatButton
                         then ("chatButton", chatButton)
                              :: (if probed (indicatorVisible w) videoButton
                                  then [("videoButton", videoButton)]
                                  else [])
                         else if probed (indicatorVisible w) videoButton
                              then [("videoButton", videoButton)]
                              else [])) = true).
    { cbn [List.filter] in Hvisible.
      destruct (probed (indicatorVisible w) joinAudioButton),
               (probed (indicatorVisible w) participantsButton),
               (probed (indicatorVisible w) chatButton),
               (probed (indicatorVisible w) videoButton);
        cbn in Hvisible |- *; try reflexivity; lia. }
    rewrite Hle. reflexivity. }
  split; [exact Hrun|].
  intros l timeout. rewrite Hrun. cbn.
  intros Hin. repeat destruct Hin as [Hin|Hin]; try discriminate; exact Hin.
Qed.

(* ================================================================== *)
(** * Facts about strings and addresses *)
(* ================================================================== *)

#[local] Arguments String.append !_ _ / : simpl nomatch.

Lemma append_assoc (a b c : string) : (a +:+ b) +:+ c = a +:+ b +:+ c.
Proof. induction a as [|x a IH]; cbn; [reflexivity|]. f_equal. exact IH. Qed.

Lemma append_empty_r (a : string) : a +:+ EmptyString = a.
Proof. induction a as [|x a IH]; cbn; [reflexivity|]. f_equal. exact IH. Qed.



Lemma slice_append (pat post : string) :
  slice (String.length pat) (pat +:+ post) = post.
Proof. induction pat as [|x pat IH]; cbn; [destruct post|]; auto. Qed.




(** ** The web-client rewrite *)



(* ================================================================== *)
(** * Facts about the workflow *)
(* ================================================================== *)

Lemma tryLeave_total (strategies : list (M Event unit)) :
  forall i, exists left, result (tryLeave i strategies) = Ok left.
Proof.
  induction strategies as [|strategy rest IH]; intros i; [exists false; reflexivity|].
  cbn [tryLeave]. rewrite result_tryCatch, !result_bind.
  destruct (result strategy) as [[]|e].
  - exists true. reflexivity.
  - rewrite ?result_bind. cbn [result logAt emit snd]. apply IH.
Qed.

(** Leaving is best effort: no failed click or key press makes
    [leaveMeeting] throw. *)
Lemma leaveMeeting_ok (cfg : AppConfig) (w : LeaveWorld) (stored : option Locator) :
  result (leaveMeeting cfg w stored) = Ok tt.
Proof.
  unfold leaveMeeting. rewrite !result_bind. cbn [result log emit snd].
  rewrite result_waitForTimeout.
  match goal with
  | |- context [tryLeave 0 ?l] => destruct (tryLeave_total l 0) as [left Hleft]
  end.
  rewrite Hleft. destruct left; [|reflexivity].
  rewrite result_tryCatch.
  destruct (result (confirmLeave w confirmButtons)) as [[]|e]; reflexivity.
Qed.

(** ** Leaving after monitoring *)

(** Splits on how the stage that runs [m] ends. *)
Ltac stage_of m :=
  let t := fresh "t" in
  let r := fresh "r" in
  destruct m as [t [r|r]];
  cbn [stage flat trace result fst snd bind tryCatch throw ret app
       List.map stages].

Ltac failed_run :=
  cbn;
  repeat split; unfold not; intros;
  repeat match goal with
         | H : _ \/ _ |- _ => destruct H
         | H : List.In _ _ |- _ => cbn in H
         end;
  try discriminate; try contradiction; try congruence; auto 15.

(** C1, amended. When the monitoring stage is entered and
    [monitorChatMessages] throws, the workflow throws the same error, the
    leave stage is not entered, and the last thing it does is the failure
    screenshot of its handler, or nothing more when the page is closed.
    The leave stage is entered only when monitoring is disabled or has
    returned normally, and every run that completes has entered it. *)
Theorem leave_skipped_on_monitoring_error `{StringOps}
  (cfg : AppConfig) (w : SessionWorld) :
  (forall e,
     List.In MonitorChatMessages (stages (joinAndChat cfg w)) ->
     result (monitorChatMessages cfg (polls w)) = Err e ->
     result (joinAndChat cfg w) = Err e /\
     ~ List.In LeaveMeeting (stages (joinAndChat cfg w)) /\
     last (stages (joinAndChat cfg w))
     = Some (if pageIsClosed w then MonitorChatMessages else FailureCapture)) /\
  (List.In LeaveMeeting (stages (joinAndChat cfg w)) ->
   monitorMessages cfg = false \/
   result (monitorChatMessages cfg (polls w)) = Ok Returned) /\
  (result (joinAndChat cfg w) = Ok Completed ->
   List.In LeaveMeeting (stages (joinAndChat cfg w))).
Proof.
  pose proof (leaveMeeting_ok cfg (leave w)) as Hleave.
  unfold joinAndChat, stages.
  stage_of (await (Goto (webClientUrl cfg) (navigationTimeoutMs cfg)) (gotoOk w));
    [|destruct (pageIsClosed w), (failureScreenshot w); failed_run].
  stage_of (acceptCookies (cookieClick w));
    [|destruct (pageIsClosed w), (failureScreenshot w); failed_run].
  stage_of (resolveSurface (surfaces w));
    [|destruct (pageIsClosed w), (failureScreenshot w); failed_run].
  stage_of (fillDisplayName cfg (nameWaitOk w) (nameFillOk w));
    [|destruct (pageIsClosed w), (failureScreenshot w); failed_run].
  stage_of (submitJoin (join w));
    [|destruct (pageIsClosed w), (failureScreenshot w); failed_run].
  stage_of (waitForAdmission cfg (admission w));
    [|destruct (pageIsClosed w), (failureScreenshot w); failed_run].
  stage_of (sendChatMessage cfg (chat w));
    [|destruct (pageIsClosed w), (failureScreenshot w); failed_run].
  rename r4 into stored.
  destruct (monitorMessages cfg).
  - destruct (monitorChatMessages cfg (polls w)) as [tm [[|seen errors]|err]];
      cbn [stage flat trace result fst snd bind tryCatch throw ret app
           List.map stages].
    + specialize (Hleave (Some stored)).
      destruct (leaveMeeting cfg (leave w) (Some stored)) as [tl rl].
      cbn in Hleave. subst rl. failed_run.
    + failed_run.
    + destruct (pageIsClosed w), (failureScreenshot w); failed_run.
  - cbn [stage flat trace result fst snd bind tryCatch throw ret app
         List.map stages].
    specialize (Hleave (Some stored)).
    destruct (leaveMeeting cfg (leave w) (Some stored)) as [tl rl].
    cbn in Hleave. subst rl. failed_run.
Qed.

(* ================================================================== *)
(** * The claims on concrete sessions *)
(* ================================================================== *)

(** ** Self-filter *)

(** Whatever the loop replies to is not one of the bot's own messages as
    [isBotOwnMessage] recognises them: by its sender, by the two reply
    tokens, or by the text [I'm in.]. *)
Lemma own_messages_not_replied `{StringOps} (cfg : AppConfig)
  (messages : list ChatMessage) :
  forall rw i seen msg token,
    (msg, token) ∈ replies (trace (processMessages cfg rw i seen messages)) ->
    isBotOwnMessage cfg msg = false.
Proof.
  induction messages as [|m rest IH]; intros rw i seen msg token.
  - cbn. intros Hin. inversion Hin.
  - cbn [processMessages]. case_bool_decide; [apply IH|].
    destruct (isBotOwnMessage cfg m) eqn:Hown.
    + rewrite trace_bind. cbn [result did log emit snd trace fst List.map].
      rewrite replies_app. cbn [replies app]. apply IH.
    + rewrite trace_bind. cbn [result did log emit snd trace fst List.map].
      rewrite replies_app. cbn [replies app].
      destruct (String.eqb _ _).
      * cbn. intros Hin. inversion Hin.
      * rewrite reply_branch. cbn [trace fst replies].
        intros Hin. apply elem_of_cons in Hin as [[= -> _]|Hin];
          [exact Hown|exact (IH _ _ _ _ _ Hin)].
Qed.

(** C2, on the code. The bot is configured to post [Hello everyone]; a
    poll shows that text under a sender name other than the bot's. The
    loop does not take the message for one of its own and replies
    [roger] to it: the text it compares with is the constant [I'm in.],
    not [messageText]. *)
Theorem configured_message_gets_reply :
  messageText friday = "Hello everyone" /\
  isBotOwnMessage friday (chatMessage "You" "Hello everyone") = false /\
  replies (trace (monitorChatMessages friday
                    [poll [chatMessage "You" "Hello everyone"]]))
  = [(chatMessage "You" "Hello everyone", "roger")].
Proof. repeat split. Qed.

(** ** Leaving after monitoring *)

(** C1, as stated, fails: ten rejected polls make the monitoring throw,
    the workflow throws the same error, and the leave stage was never
    entered. *)
Lemma monitoring_error_without_leave :
  result (monitorChatMessages friday (polls pollsRejected))
  = Err MonitoringFailed /\
  result (joinAndChat friday pollsRejected) = Err MonitoringFailed /\
  ~ List.In LeaveMeeting (stages (joinAndChat friday pollsRejected)).
Proof.
  split; [reflexivity|]. split; [reflexivity|].
  vm_compute. intros Hin.
  repeat (destruct Hin as [Hin|Hin]; [discriminate|]). exact Hin.
Qed.

Lemma leave_skipped_on_monitoring_error_witness :
  result (joinAndChat friday pollsRejected) = Err MonitoringFailed /\
  last (stages (joinAndChat friday pollsRejected)) = Some FailureCapture.
Proof.
  destruct (leave_skipped_on_monitoring_error friday pollsRejected)
    as (Hskip & _ & _).
  destruct (Hskip MonitoringFailed) as (Hres & _ & Hlast).
  - vm_compute. tauto.
  - reflexivity.
  - split; [exact Hres|exact Hlast].
Defined.

(** ** Resolver priority *)

Lemma resolver_priority_witness :
  findAmong structuralOnly (chatInputCandidates surface) =
  (List.map IsVisible (chatInputCandidates surface)
     ++ [LogAt info "Resolved chat input" 3],
   Ok (Some (locator surface "[contenteditable=true][role=textbox]"))) /\
  result (findAmong structuralLate (chatInputCandidates surface)) =
  Ok (Some (locator surface "[contenteditable=true][role=textbox]")) /\
  result (Timed.submitJoin joinByDataQa joinWaitsResolve) = Ok tt /\
  result (Timed.submitJoin joinLate joinWaitsResolve) = Ok tt.
Proof.
  split; [|split; [|split]].
  - apply (resolver_priority structuralOnly joinReady
             (chatInputCandidates surface) 3 _ eq_refl); reflexivity.
  - rewrite (proj1 (proj2 (resolver_priority structuralLate joinReady
                             (chatInputCandidates surface) 3 _ eq_refl)));
      reflexivity.
  - unfold Timed.submitJoin.
    rewrite (proj1 (proj2 (proj2 (resolver_priority inputReady joinByDataQa
                                    joinCandidates 2 _ eq_refl)))
               joinWaitsResolve);
      reflexivity.
  - unfold Timed.submitJoin.
    rewrite (proj2 (proj2 (proj2 (resolver_priority inputReady joinLate
                                    joinCandidates 2 _ eq_refl)))
               joinWaitsResolve);
      reflexivity.
Defined.

(** ** Deduplication *)

Lemma dedup_idempotence_witness :
  List.length
    (repliesTo "Ann" "hello"
       (trace (monitorChatMessages friday
                 [poll [chatMessage "Ann" "hello"; chatMessage "Ann" "hello"];
                  poll [chatMessage "Ann" "hello"]]))) <= 1 /\
  processMessages friday (fun _ => replyReady) 0 {[ "Ann:hello" ]}
    [chatMessage "Ann" "hello"]
  = processMessages friday (fun _ => replyReady) 1 {[ "Ann:hello" ]} [] /\
  (chatMessage "Ann" "hello", "roger")
  ∉ replies (trace (monitorLoop friday [poll [chatMessage "Ann" "hello"]]
                      {[ "Ann:hello" ]} 0)).
Proof.
  destruct (dedup_idempotence friday) as (Hone & Hskip & _ & Hnever).
  split; [apply Hone|]. split.
  - apply Hskip. apply elem_of_singleton. reflexivity.
  - apply Hnever. apply elem_of_singleton. reflexivity.
Defined.

(** ** Quit command *)


(** ** Mention and default replies *)


(** ** The admission shortcut *)

Lemma admission_shortcut_witness :
  result (waitForAdmission friday admitted) = Ok leaveButton.
Proof.
  destruct (admission_shortcut friday admitted) as [Hrun _].
  - vm_compute. lia.
  - rewrite Hrun. reflexivity.
Defined.

(** ** The ceiling on consecutive errors *)

Lemma error_ceiling_witness :
  result (Timed.monitorChatMessages friday
            ([polledThenWaits [chatMessage "Ann" "hello"]]
               ++ List.repeat rejectedThenWaits 10 ++ []))
  = Err MonitoringFailed /\
  result (Timed.monitorChatMessages friday
            ([rejectedThenWaits] ++ [rejectedThenWaits]))
  = Ok (Polling ∅ 2).
Proof.
  destruct (error_ceiling friday) as (_ & _ & Hstep & _ & _ & _ & Hten).
  split.
  - apply (Hten [polledThenWaits [chatMessage "Ann" "hello"]]
             (List.repeat rejectedThenWaits 10) [] ({[ "Ann:hello" ]} ∪ ∅) 0);
      [reflexivity|reflexivity| |]; repeat constructor.
  - apply (Hstep [rejectedThenWaits] rejectedThenWaits ∅ 1); reflexivity.
Defined.

(** ** Modal dismissal *)

Lemma dismissBlockingModals_best_effort_witness :
  Timed.dismissBlockingModals noModals modalWaitsResolve "before-join"
  = ([Count overlayLocator], Ok tt).
Proof.
  apply (dismissBlockingModals_best_effort noModals modalWaitsResolve
           "before-join").
  reflexivity.
Defined.

(** ** The web-client rewrite *)



(* ================================================================== *)
(** * Further properties: chat input resolution *)
(* ================================================================== *)

Lemma find_checksFrom isVisible (candidates : list Locator) :
  forall i,
    match List.find visible (checksFrom isVisible i candidates) with
    | Some r => List.find (probed isVisible) candidates = Some (checked r)
    | None => List.find (probed isVisible) candidates = None
    end.
Proof.
  induction candidates as [|l rest IH]; intros i; [reflexivity|].
  cbn [checksFrom List.find visible].
  destruct (probed isVisible l); [reflexivity|apply IH].
Qed.

Lemma waitForEach_outcome (w : InputWorld) (candidates : list Locator) :
  forall i,
    result (waitForEach w i candidates) = Ok (List.find (inputAppears w) candidates)
    /\ forallb observes (trace (waitForEach w i candidates)) = true.
Proof.
  induction candidates as [|l rest IH]; intros i; [split; reflexivity|].
  cbn [waitForEach List.find].
  rewrite result_tryCatch, trace_tryCatch, !result_bind, !trace_bind,
    result_await, trace_await.
  destruct (inputAppears w l); cbn; [split; reflexivity|].
  destruct (IH (S i)) as [Hr Ht]. rewrite Hr, Ht. split; reflexivity.
Qed.

Lemma forallb_observes_probes (candidates : list Locator) :
  forallb observes (List.map IsVisible candidates) = true.
Proof. induction candidates; cbn; auto. Qed.

Lemma findAmong_outcome (w : InputWorld) (candidates : list Locator) :
  result (findAmong w candidates) = Ok (pick w candidates) /\
  forallb observes (trace (findAmong w candidates)) = true.
Proof.
  unfold findAmong, visibilityChecks, pick.
  rewrite visibilityChecksFrom_run. cbn [bind].
  pose proof (find_checksFrom (inputVisible w) candidates 0) as Hfind.
  destruct (List.find visible (checksFrom (inputVisible w) 0 candidates)) as [r|].
  - rewrite Hfind. cbn. rewrite forallb_app, forallb_observes_probes.
    split; reflexivity.
  - rewrite Hfind. destruct (waitForEach_outcome w candidates 0) as [Hr Ht].
    destruct (waitForEach w 0 candidates) as [t r]. cbn in Hr, Ht |- *.
    rewrite forallb_app, forallb_observes_probes, Ht, Hr. split; reflexivity.
Qed.

(** X1. [findChatInputCandidates] never throws. It returns the first
    candidate the parallel check saw visible, else the first one that
    appears during the fallback, else nothing: a locator it returns is
    one of its candidates, and it returns nothing exactly when no
    candidate was seen visible and none appeared. All it does is probe,
    wait and log. *)
Theorem findChatInputCandidates_outcome (w : InputWorld) (host : ZoomSurface)
  (context : string) :
  result (findChatInputCandidates w host context)
  = Ok (pick w (chatInputCandidates host)) /\
  (forall c, pick w (chatInputCandidates host) = Some c ->
     List.In c (chatInputCandidates host) /\
     (probed (inputVisible w) c = true \/ inputAppears w c = true)) /\
  (pick w (chatInputCandidates host) = None <->
   none (probed (inputVisible w)) (chatInputCandidates host) = true /\
   none (inputAppears w) (chatInputCandidates host) = true) /\
  forallb observes (trace (findChatInputCandidates w host context)) = true.
Proof.
  assert (Hnone : forall (p : Locator -> bool) (l : list Locator),
            List.find p l = None <-> none p l = true).
  { intros p l. induction l as [|x l IH]; cbn; [tauto|].
    destruct (p x); cbn; [split; discriminate|exact IH]. }
  unfold findChatInputCandidates.
  destruct (findAmong_outcome w (chatInputCandidates host)) as [Hr Ht].
  split; [exact Hr|]. split; [|split; [|exact Ht]].
  - intros c. unfold pick.
    destruct (List.find (probed (inputVisible w)) (chatInputCandidates host))
      as [c'|] eqn:Hp.
    + intros [= <-]. apply List.find_some in Hp as [Hin Hv]. auto.
    + intros Ha. apply List.find_some in Ha as [Hin Hv]. auto.
  - unfold pick.
    destruct (List.find (probed (inputVisible w)) (chatInputCandidates host))
      as [c'|] eqn:Hp.
    + split; [discriminate|]. intros [Hv _]. apply Hnone in Hv. congruence.
    + apply Hnone in Hp. rewrite Hnone. tauto.
Qed.

Lemma searchFrames_outcome (w : InputWorld) (frames : list string) :
  result (searchFrames w frames) = Ok (pickFrame w frames) /\
  forallb observes (trace (searchFrames w frames)) = true.
Proof.
  induction frames as [|f rest IH]; [split; reflexivity|].
  cbn [searchFrames pickFrame]. unfold findChatInputCandidates.
  rewrite result_bind, trace_bind.
  destruct (findAmong_outcome w (chatInputCandidates (otherFrame f))) as [Hr Ht].
  rewrite Hr. destruct (pick w (chatInputCandidates (otherFrame f))).
  - cbn. rewrite app_nil_r. auto.
  - destruct IH as [Hr' Ht']. rewrite forallb_app, Ht, Ht'. auto.
Qed.

Lemma resolveChatInput_run (w : ResolveWorld) :
  result (resolveChatInput w) =
  Ok (match pick (inputs w) (chatInputCandidates surface) with
      | Some p => Some p
      | None => pickFrame (inputs w) (otherFrames w)
      end) /\
  forallb observes (trace (resolveChatInput w)) = true.
Proof.
  unfold resolveChatInput, findChatInputCandidates.
  rewrite !result_bind, !trace_bind. cbn [result trace log emit fst snd].
  destruct (findAmong_outcome (inputs w) (chatInputCandidates surface))
    as [Hr Ht].
  rewrite Hr. destruct (pick (inputs w) (chatInputCandidates surface)).
  - cbn. rewrite app_nil_r. auto.
  - rewrite !result_bind, !trace_bind. cbn [result trace log emit fst snd].
    destruct (searchFrames_outcome (inputs w) (otherFrames w)) as [Hr' Ht'].
    rewrite Hr'. destruct (pickFrame (inputs w) (otherFrames w)).
    + cbn. rewrite app_nil_r, forallb_app, Ht. cbn. rewrite Ht'. auto.
    + rewrite !result_bind, !trace_bind. cbn [result trace log emit fst snd].
      rewrite result_tryCatch, trace_tryCatch, result_bind, trace_bind,
        result_await, trace_await.
      split.
      * destruct (analysisOk w); reflexivity.
      * cbn. rewrite forallb_app, Ht. cbn. rewrite forallb_app, Ht'.
        destruct (analysisOk w); reflexivity.
Qed.

(** X2. [resolveChatInput] never throws: it returns the input resolved
    on the primary surface when there is one, else the input of the first
    other frame, in the order of [page.frames()], in which one is
    resolved, else nothing, whether or not the analysis of the chat panel
    succeeds. It only probes, waits, evaluates and logs: it never clicks,
    fills or presses a key. *)
Theorem resolveChatInput_outcome (w : ResolveWorld) :
  result (resolveChatInput w) =
  Ok (match pick (inputs w) (chatInputCandidates surface) with
      | Some p => Some p
      | None => pickFrame (inputs w) (otherFrames w)
      end) /\
  forallb observes (trace (resolveChatInput w)) = true.
Proof. exact (resolveChatInput_run w). Qed.

(** X3. [sendQuickReply] never throws. It fills nothing but its message,
    and only into the chat input that [resolveChatInput] returned; it
    presses nothing but Enter, only on that input and only after the
    fill succeeded. When no input is resolved it neither fills nor
    presses. *)
Theorem sendQuickReply_outcome (w : ReplyWorld) (message : string) :
  result (sendQuickReply w message) = Ok tt /\
  (forall l v,
     List.In (Fill l v) (trace (sendQuickReply w message)) ->
     v = message /\ result (resolveChatInput (replyResolve w)) = Ok (Some l)) /\
  (forall l key,
     List.In (Press l key) (trace (sendQuickReply w message)) ->
     key = "Enter" /\ replyFill w = true /\
     result (resolveChatInput (replyResolve w)) = Ok (Some l)).
Proof.
  split; [apply sendQuickReply_ok|].
  destruct (resolveChatInput_run (replyResolve w)) as [Hr Ht].
  assert (Hobs : forall ev, List.In ev (trace (resolveChatInput (replyResolve w))) ->
                            observes ev = true).
  { intros ev Hin. rewrite forallb_forall in Ht. apply Ht, Hin. }
  unfold sendQuickReply.
  set (input := match pick (inputs (replyResolve w)) (chatInputCandidates surface)
                with Some p => Some p
                | None => pickFrame (inputs (replyResolve w))
                            (otherFrames (replyResolve w)) end) in *.
  set (r := resolveChatInput (replyResolve w)) in *. clearbody r input.
  clear Ht. rewrite trace_tryCatch, !result_bind, !trace_bind, Hr.
  destruct input as [input|];
    [rewrite !result_bind, !trace_bind, !result_await, !trace_await;
     destruct (replyFill w), (replyPress w)|];
    cbn [app trace result log emit fst snd];
    (split; intros l x Hin;
     repeat match goal with
            | H : List.In _ (_ ++ _) |- _ => apply in_app_or in H
            | H : _ \/ _ |- _ => destruct H
            | H : List.In _ (_ :: _) |- _ => cbn [List.In] in H
            | H : List.In _ [] |- _ => contradiction
            | H : False |- _ => contradiction
            | H : List.In _ (trace r) |- _ => apply Hobs in H; discriminate
            end;
     try discriminate;
     match goal with
     | H : _ = _ |- _ => injection H as <- <-; auto
     end).
Qed.

(* ================================================================== *)
(** * Further properties: the activation ladder *)
(* ================================================================== *)

Lemma result_strategy (failed : string) (body : M Event bool) :
  result (strategy failed body) = Ok (succeeded body).
Proof.
  unfold strategy, succeeded. rewrite result_tryCatch.
  destruct (result body); reflexivity.
Qed.

Lemma succeeded_await op ok (m : M Event bool) :
  succeeded (await op ok ;; m) = ok && succeeded m.
Proof.
  unfold succeeded. rewrite result_bind, result_await. destruct ok; reflexivity.
Qed.

Lemma succeeded_wait ms (m : M Event bool) :
  succeeded (waitForTimeout ms ;; m) = succeeded m.
Proof. unfold succeeded. rewrite result_bind. reflexivity. Qed.

Lemma succeeded_log level message (m : M Event bool) :
  succeeded (log level message ;; m) = succeeded m.
Proof. unfold succeeded. rewrite result_bind. reflexivity. Qed.

Lemma succeeded_strategy failed (body : M Event bool) :
  succeeded (strategy failed body) = succeeded body.
Proof. unfold succeeded at 1. rewrite result_strategy. reflexivity. Qed.

Lemma succeeded_search (w : InputWorld) (context done : string) :
  succeeded (input <- findChatInputCandidates w surface context ;;
             found done input)
  = resolved (pick w (chatInputCandidates surface)).
Proof.
  unfold succeeded. rewrite result_bind. unfold findChatInputCandidates.
  destruct (findAmong_outcome w (chatInputCandidates surface)) as [-> _].
  destruct (pick w (chatInputCandidates surface)); reflexivity.
Qed.

Lemma result_scanTextareas (all : Locator) (l : list Textarea) :
  forall i, result (scanTextareas all i l) = Ok (existsb usableTextarea l).
Proof.
  induction l as [|t rest IH]; intros i; [reflexivity|].
  cbn [scanTextareas existsb]. rewrite result_bind, isVisibleOrFalse_run.
  cbn [result snd]. unfold usableTextarea at 1. unfold probed.
  destruct (textareaVisible t) as [[]|]; cbn [andb orb]; try apply IH.
  rewrite !result_bind. cbn [result emit logAt snd].
  destruct (textareaAttrs t) as [[id className]|]; [|apply IH].
  destruct (negb (includes className "hideme") && negb (includes id "email"));
    [|apply IH].
  rewrite result_bind. reflexivity.
Qed.

Lemma succeeded_textareas (r : Settled (list Textarea)) :
  succeeded (allTextareas <- awaitValue (LocatorAll (locator surface "textarea")) r ;;
             log debug "Found textareas" ;;
             scanTextareas (locator surface "textarea") 0 allTextareas)
  = match r with
    | Fulfilled all => existsb usableTextarea all
    | Rejected => false
    end.
Proof.
  unfold succeeded. rewrite result_bind, result_awaitValue.
  destruct r as [all|]; [|reflexivity].
  rewrite result_bind. cbn [result log emit snd].
  rewrite result_scanTextareas. reflexivity.
Qed.

Lemma succeeded_editable (r : Settled bool) (l : Locator) :
  succeeded (isVisible <- isVisibleOrFalse (fun _ => r) l ;;
             if (isVisible : bool)
             then log info "Strategy 5 found contenteditable" ;; ret true
             else ret false)
  = probed (fun _ => r) l.
Proof.
  unfold succeeded. rewrite result_bind, isVisibleOrFalse_run.
  cbn [result snd]. destruct (probed (fun _ => r) l); reflexivity.
Qed.

Lemma result_ladder (rungs : list (M Event bool)) :
  Forall (fun rung => exists b, result rung = Ok b) rungs ->
  result (ladder rungs) = Ok (existsb succeeded rungs).
Proof.
  induction 1 as [|rung rest [b Hb] _ IH]; [reflexivity|].
  cbn [ladder existsb]. rewrite result_bind. unfold succeeded at 1. rewrite Hb.
  destruct b; [reflexivity|exact IH].
Qed.

Lemma last_ladder (rungs : list (M Event bool)) :
  Forall (fun rung => exists b, result rung = Ok b) rungs ->
  result (ladder rungs) = Ok false ->
  last (trace (ladder rungs))
  = Some (Log warn "All activation strategies failed").
Proof.
  induction 1 as [|rung rest [b Hb] _ IH]; [reflexivity|].
  cbn [ladder]. rewrite result_bind, trace_bind, Hb.
  destruct b; [discriminate|]. intros Hr. rewrite last_app, (IH Hr).
  reflexivity.
Qed.

Lemma tryActivateChatInput_run (w : ActivationWorld) :
  result (tryActivateChatInput w) = Ok (activates w) /\
  (activates w = false ->
   last (trace (tryActivateChatInput w))
   = Some (Log warn "All activation strategies failed")).
Proof.
  assert (Hrungs :
    Forall (fun rung : M Event bool => exists b, result rung = Ok b)
      [ log info "Strategy 1: Clicking inside chat panel area" ;;
        strategy "Strategy 1 failed"
          (await (Click (locator surface "[id*=chat i], [class*=chat i]") 500)
                 (panelClick w) ;;
           waitForTimeout 200 ;;
           input1 <- findChatInputCandidates (afterPanelClick w) surface
                       "after-panel-click" ;;
           found "Strategy 1 successful" input1);
        log info "Strategy 2: Using Tab key to focus chat input" ;;
        strategy "Strategy 2 failed"
          (await (Press body "Tab") (tabPress w 0) ;;
           waitForTimeout 100 ;;
           await (Press body "Tab") (tabPress w 1) ;;
           waitForTimeout 100 ;;
           await (Press body "Tab") (tabPress w 2) ;;
           waitForTimeout 200 ;;
           input2 <- findChatInputCandidates (afterTabKeys w) surface
                       "after-tab-keys" ;;
           found "Strategy 2 successful" input2);
        log info "Strategy 3: Clicking chat button again (toggle)" ;;
        strategy "Strategy 3 failed"
          (await (Click chatButton 500) (toggleClick w 0) ;;
           waitForTimeout 200 ;;
           await (Click chatButton 500) (toggleClick w 1) ;;
           waitForTimeout 300 ;;
           input3 <- findChatInputCandidates (afterToggle w) surface
                       "after-toggle" ;;
           found "Strategy 3 successful" input3);
        log info "Strategy 4: Waiting longer for lazy loading" ;;
        strategy "Strategy 4 failed"
          (waitForTimeout 1000 ;;
           input4 <- findChatInputCandidates (afterLongWait w) surface
                       "after-long-wait" ;;
           found "Strategy 4 successful" input4);
        log info "Strategy 5: Searching for ANY visible contenteditable" ;;
        strategy "Strategy 5 failed"
          (isVisible <- isVisibleOrFalse (fun _ => editableVisible w)
                          (locator surface "[contenteditable=true]") ;;
           if (isVisible : bool)
           then log info "Strategy 5 found contenteditable" ;; ret true
           else ret false);
        log info "Strategy 6: Checking all visible textareas" ;;
        strategy "Strategy 6 failed"
          (allTextareas <- awaitValue (LocatorAll (locator surface "textarea"))
                             (textareas w) ;;
           log debug "Found textareas" ;;
           scanTextareas (locator surface "textarea") 0 allTextareas);
        log info "Strategy 7: Trying keyboard shortcut Ctrl+T (chat focus)" ;;
        strategy "Strategy 7 failed"
          (await (Press body "Control+T") (controlT w) ;;
           waitForTimeout 300 ;;
           input7 <- findChatInputCandidates (afterControlT w) surface
                       "after-ctrl-t" ;;
           found "Strategy 7 successful" input7) ]).
  { repeat constructor; rewrite result_bind; cbn [result log emit snd];
      rewrite result_strategy; eauto. }
  assert (Hresult : result (tryActivateChatInput w) = Ok (activates w)).
  { unfold tryActivateChatInput. rewrite (result_ladder _ Hrungs).
    cbn [existsb]. f_equal. unfold activates. cbn zeta.
    rewrite !succeeded_log, !succeeded_strategy, !succeeded_await,
      !succeeded_wait, !succeeded_await, !succeeded_wait, !succeeded_await,
      !succeeded_wait, !succeeded_search, succeeded_editable,
      succeeded_textareas.
    rewrite orb_false_r, !orb_assoc, !andb_assoc. reflexivity. }
  split; [exact Hresult|].
  intros Hnone. unfold tryActivateChatInput in *.
  apply (last_ladder _ Hrungs). rewrite Hresult, Hnone. reflexivity.
Qed.

(** X4. [tryActivateChatInput] never throws, whatever click or key press
    fails. It returns [true] exactly when one of its seven strategies
    succeeds: an input is resolved after the panel click, after three
    Tab presses, after the chat button was toggled, after the long wait
    or after Ctrl+T (each action having succeeded), or a content-editable
    element is visible, or some visible textarea has readable attributes
    without [hideme] in its class and [email] in its id. When it returns
    [false] the last thing it did is to log that all strategies
    failed. *)
Theorem tryActivateChatInput_outcome (w : ActivationWorld) :
  result (tryActivateChatInput w) = Ok (activates w) /\
  (activates w = false ->
   last (trace (tryActivateChatInput w))
   = Some (Log warn "All activation strategies failed")).
Proof. exact (tryActivateChatInput_run w). Qed.

(* ================================================================== *)
(** * Further properties: the leave sequence *)
(* ================================================================== *)

Lemma last_cons_some {A} (x : A) (l : list A) (y : A) :
  last l = Some y -> last (x :: l) = Some y.
Proof. destruct l; [discriminate|intros Hl; exact Hl]. Qed.

Lemma last_confirmLeave (w : LeaveWorld) :
  let confirm := tryCatch (confirmLeave w confirmButtons)
                   (fun _ => log debug "Leave confirmation attempt failed") in
  last (trace confirm) = Some (Log info "Confirmed leave meeting") \/
  last (trace confirm) = Some (Log debug "No leave confirmation dialog found").
Proof.
  cbn zeta. unfold confirmButtons. cbn [confirmLeave].
  destruct (confirmClick w (getByRole surface "button" "/Leave Meeting/i")),
           (confirmClick w (locator surface "button:has-text(Leave Meeting)")),
           (confirmClick w (locator surface "button:has-text(Leave)"));
    cbn; auto.
Qed.

(** X5. [leaveMeeting] throws nothing but the rejection of the wait it
    starts with, after which it does nothing more.  When that wait
    resolves, its strategies are tried in order: a strategy whose action
    fails is logged as failed; the first one whose action succeeds and
    whose wait resolves ends the loop and is followed by the confirmation
    attempt.  A strategy whose action succeeds but whose wait is rejected
    is logged as failed too and the loop goes on, yet the confirmation is
    still attempted: the warning that all strategies failed is the last
    thing logged exactly when no action succeeded. *)
Theorem leaveMeeting_outcome (cfg : AppConfig) (w : LeaveWorld)
  (t : Timed.LeaveWaits) (stored : option Locator) :
  (Timed.afterDelay t = false ->
   Timed.leaveMeeting cfg w t stored =
   ([Log info "Leaving meeting"; WaitForTimeout (postLeaveDelayMs cfg)],
    Err (Rejection (WaitForTimeout (postLeaveDelayMs cfg))))) /\
  (Timed.afterDelay t = true ->
   result (Timed.leaveMeeting cfg w t stored) = Ok tt /\
   (forall k,
      k < 4 ->
      leaveStrategy w k = true ->
      (forall j, j < k -> leaveStrategy w j = false) ->
      Timed.afterStrategy t k = true ->
      trace (Timed.leaveMeeting cfg w t stored) =
      [Log info "Leaving meeting"; WaitForTimeout (postLeaveDelayMs cfg)]
        ++ failedLeaves stored k
        ++ [leaveAction stored k; Log debug (leaveDone k); WaitForTimeout 300]
        ++ trace (tryCatch (confirmLeave w confirmButtons)
                    (fun _ => log debug "Leave confirmation attempt failed"))) /\
   ((forall j, j < 4 -> leaveStrategy w j = false) ->
    trace (Timed.leaveMeeting cfg w t stored) =
    [Log info "Leaving meeting"; WaitForTimeout (postLeaveDelayMs cfg)]
      ++ failedLeaves stored 4
      ++ [Log warn "All leave strategies failed, meeting may not be exited cleanly"]) /\
   (last (trace (Timed.leaveMeeting cfg w t stored))
    = Some (Log warn "All leave strategies failed, meeting may not be exited cleanly")
    <-> anyLeaves w = false)).
Proof.
  split.
  - intros Hdelay. unfold Timed.leaveMeeting, Timed.waitForTimeout.
    rewrite Hdelay. reflexivity.
  - intros Hdelay.
    pose proof (last_confirmLeave w) as Hlast. cbn zeta in Hlast.
    pose proof (tryCatch_total (confirmLeave w confirmButtons)
                  (fun _ => log debug "Leave confirmation attempt failed"))
      as Htotal.
    unfold Timed.leaveMeeting, Timed.waitForTimeout, anyLeaves.
    rewrite Hdelay.
    set (confirm := tryCatch (confirmLeave w confirmButtons)
                      (fun _ => log debug "Leave confirmation attempt failed"))
      in *.
    assert (Hconfirm : result confirm = Ok tt).
    { unfold confirm. rewrite result_tryCatch.
      destruct (result (confirmLeave w confirmButtons)) as [[]|e]; reflexivity. }
    clearbody confirm. destruct confirm as [tc rc].
    cbn [trace result fst snd] in *. subst rc.
    split; [|split; [|split]].
    + cbn [existsb Timed.tryLeave].
      destruct (leaveStrategy w 0), (leaveStrategy w 1), (leaveStrategy w 2),
        (leaveStrategy w 3), (Timed.afterStrategy t 0),
        (Timed.afterStrategy t 1), (Timed.afterStrategy t 2),
        (Timed.afterStrategy t 3); reflexivity.
    + intros k Hk Hok Hfail Hwait.
      destruct k as [|[|[|[|k]]]]; try lia; cbn [Timed.tryLeave].
      * rewrite Hok, Hwait. reflexivity.
      * rewrite Hok, Hwait, (Hfail 0) by lia. reflexivity.
      * rewrite Hok, Hwait, (Hfail 0), (Hfail 1) by lia. reflexivity.
      * rewrite Hok, Hwait, (Hfail 0), (Hfail 1), (Hfail 2) by lia.
        reflexivity.
    + intros Hfail. cbn [Timed.tryLeave].
      rewrite (Hfail 0), (Hfail 1), (Hfail 2), (Hfail 3) by lia. reflexivity.
    + cbn [existsb Timed.tryLeave].
      destruct (leaveStrategy w 0), (leaveStrategy w 1), (leaveStrategy w 2),
        (leaveStrategy w 3), (Timed.afterStrategy t 0),
        (Timed.afterStrategy t 1), (Timed.afterStrategy t 2),
        (Timed.afterStrategy t 3);
        cbn [orb];
        try (split; [intros _|intros _]; reflexivity);
        (split; [|discriminate]);
        cbn [Timed.settle await emit bind ret throw log logAt trace result
             fst snd app];
        intros Hwarn;
        destruct Hlast as [Hlast|Hlast];
        match type of Hwarn with
        | last ?l = _ =>
            assert (Hend : last l = last tc)
              by (rewrite Hlast; repeat apply last_cons_some; exact Hlast)
        end;
        congruence.
Qed.

(* ================================================================== *)
(** * Further properties: the lobby *)
(* ================================================================== *)

Lemma waits_app t1 t2 : waits (t1 ++ t2) = waits t1 + waits t2.
Proof. unfold waits. rewrite List.filter_app, List.length_app. reflexivity. Qed.

Lemma waits_captureDomSnapshot ok reason :
  waits (trace (captureDomSnapshot ok reason)) = 0.
Proof. destruct ok; reflexivity. Qed.

Lemma waits_captureDebugScreenshot page label :
  waits (trace (captureDebugScreenshot page label)) = 0.
Proof. destruct page as [[]|]; reflexivity. Qed.

(** One attempt of the lobby loop. *)
Lemma lobbyLoop_attempt (cfg : AppConfig) (w : AdmissionWorld) (n a : nat) :
  lobbyLoop cfg w (S n) a =
  if leaveAppears w a then
    ([WaitFor leaveButton pollInterval;
      LogAt info "Meeting joined successfully" a], Ok tt)
  else if errorSeen w a then
    (WaitFor leaveButton pollInterval
       :: trace (captureDomSnapshot (snapshotOk w a) "lobby-wait-attempt")
       ++ [LogAt debug "Still waiting for admission" a; IsVisible errorText]
       ++ trace (captureDebugScreenshot (admissionPage w) "meeting-error-state"),
     Err MeetingErrorState)
  else
    (WaitFor leaveButton pollInterval
       :: trace (captureDomSnapshot (snapshotOk w a) "lobby-wait-attempt")
       ++ [LogAt debug "Still waiting for admission" a; IsVisible errorText]
       ++ trace (lobbyLoop cfg w n (S a)),
     result (lobbyLoop cfg w n (S a))).
Proof.
  cbn [lobbyLoop]. unfold errorSeen.
  destruct (leaveAppears w a); [reflexivity|].
  rewrite isVisibleOrFalse_run.
  destruct (snapshotOk w a), (probed (fun _ => errorVisible w a) errorText),
    (admissionPage w) as [[]|];
    cbn; try reflexivity;
    destruct (lobbyLoop cfg w n (S a)); reflexivity.
Qed.

Lemma lobbyLoop_waits_bound (cfg : AppConfig) (w : AdmissionWorld) (n : nat) :
  forall a, waits (trace (lobbyLoop cfg w n a)) <= n.
Proof.
  induction n as [|n IH]; intros a.
  - cbn [lobbyLoop]. rewrite trace_bind.
    destruct (result (captureDebugScreenshot _ _));
      rewrite ?waits_app, waits_captureDebugScreenshot; cbn; lia.
  - rewrite lobbyLoop_attempt.
    destruct (leaveAppears w a); [cbn; lia|].
    destruct (errorSeen w a); cbn [trace fst];
      change (?x :: ?t) with ([x] ++ t);
      rewrite !waits_app, waits_captureDomSnapshot,
        ?waits_captureDebugScreenshot; cbn; [lia|].
    specialize (IH (S a)). lia.
Qed.

Lemma lobbyLoop_admitted (cfg : AppConfig) (w : AdmissionWorld) (k : nat) :
  forall n a,
    k < n ->
    leaveAppears w (a + k) = true ->
    (forall j, j < k ->
       leaveAppears w (a + j) = false /\ errorSeen w (a + j) = false) ->
    result (lobbyLoop cfg w n a) = Ok tt /\
    waits (trace (lobbyLoop cfg w n a)) = S k /\
    last (trace (lobbyLoop cfg w n a))
    = Some (LogAt info "Meeting joined successfully" (a + k)).
Proof.
  induction k as [|k IH]; intros n a Hk Hok Hbefore;
    (destruct n as [|n]; [lia|]); rewrite lobbyLoop_attempt.
  - rewrite Nat.add_0_r in Hok. rewrite Hok, Nat.add_0_r. auto.
  - destruct (Hbefore 0 ltac:(lia)) as [Hl He]. rewrite Nat.add_0_r in Hl, He.
    rewrite Hl, He. cbn [trace result fst snd].
    destruct (IH n (S a)) as (Hr & Hw & Hlast).
    + lia.
    + rewrite <- Hok. f_equal. lia.
    + intros j Hj. replace (S a + j) with (a + S j) by lia.
      apply Hbefore. lia.
    + split; [exact Hr|]. split.
      * change (?x :: ?t) with ([x] ++ t).
        rewrite !waits_app, waits_captureDomSnapshot, Hw. reflexivity.
      * change (?x :: ?t) with ([x] ++ t).
        rewrite !app_assoc, last_app, Hlast. f_equal. f_equal. lia.
Qed.

Lemma lobbyLoop_terminal (cfg : AppConfig) (w : AdmissionWorld) (k : nat) :
  forall n a,
    k < n ->
    errorSeen w (a + k) = true ->
    (forall j, j <= k -> leaveAppears w (a + j) = false) ->
    (forall j, j < k -> errorSeen w (a + j) = false) ->
    result (lobbyLoop cfg w n a) = Err MeetingErrorState /\
    waits (trace (lobbyLoop cfg w n a)) = S k.
Proof.
  induction k as [|k IH]; intros n a Hk Herr Hleave Hbefore;
    (destruct n as [|n]; [lia|]); rewrite lobbyLoop_attempt;
    pose proof (Hleave 0 ltac:(lia)) as Hl; rewrite Nat.add_0_r in Hl;
    rewrite Hl.
  - rewrite Nat.add_0_r in Herr. rewrite Herr. split; [reflexivity|].
    cbn [trace fst]. change (?x :: ?t) with ([x] ++ t).
    rewrite !waits_app, waits_captureDomSnapshot, waits_captureDebugScreenshot.
    reflexivity.
  - pose proof (Hbefore 0 ltac:(lia)) as He. rewrite Nat.add_0_r in He.
    rewrite He. cbn [trace result fst snd].
    destruct (IH n (S a)) as (Hr & Hw).
    + lia.
    + rewrite <- Herr. f_equal. lia.
    + intros j Hj. replace (S a + j) with (a + S j) by lia. apply Hleave. lia.
    + intros j Hj. replace (S a + j) with (a + S j) by lia. apply Hbefore. lia.
    + split; [exact Hr|].
      change (?x :: ?t) with ([x] ++ t).
      rewrite !waits_app, waits_captureDomSnapshot, Hw. reflexivity.
Qed.

Lemma lobbyLoop_timeout (cfg : AppConfig) (w : AdmissionWorld) (n : nat) :
  forall a,
    (forall j, j < n ->
       leaveAppears w (a + j) = false /\ errorSeen w (a + j) = false) ->
    result (lobbyLoop cfg w n a) = Err (LobbyTimeout (lobbyTimeoutMs cfg)) /\
    waits (trace (lobbyLoop cfg w n a)) = n.
Proof.
  induction n as [|n IH]; intros a Hall.
  - cbn [lobbyLoop]. rewrite result_bind, trace_bind.
    destruct (admissionPage w) as [[]|]; split; reflexivity.
  - rewrite lobbyLoop_attempt.
    destruct (Hall 0 ltac:(lia)) as [Hl He]. rewrite Nat.add_0_r in Hl, He.
    rewrite Hl, He. cbn [trace result fst snd].
    destruct (IH (S a)) as [Hr Hw].
    + intros j Hj. replace (S a + j) with (a + S j) by lia. apply Hall. lia.
    + split; [exact Hr|].
      change (?x :: ?t) with ([x] ++ t).
      rewrite !waits_app, waits_captureDomSnapshot, Hw. reflexivity.
Qed.

(** Without the shortcut, [waitForAdmission] is the lobby loop after the
    probes. *)
Lemma waitForAdmission_lobby (cfg : AppConfig) (w : AdmissionWorld) :
  inMeetingSeen w < 2 ->
  result (waitForAdmission cfg w) =
  match result (lobbyLoop cfg w (maxAttempts cfg) 1) with
  | Ok _ => Ok leaveButton
  | Err e => Err e
  end /\
  waits (trace (waitForAdmission cfg w))
  = waits (trace (lobbyLoop cfg w (maxAttempts cfg) 1)) /\
  (forall ev,
     result (lobbyLoop cfg w (maxAttempts cfg) 1) = Ok tt ->
     last (trace (lobbyLoop cfg w (maxAttempts cfg) 1)) = Some ev ->
     last (trace (waitForAdmission cfg w)) = Some ev).
Proof.
  intros Hfew. unfold waitForAdmission. rewrite probeIndicators_run.
  cbn [bind log emit waitForTimeout app List.map snd stateIndicators].
  rewrite inMeetingButtons_length.
  assert (Hlen :
    List.length
      (List.filter (fun i => existsb (String.eqb (fst i)) inMeetingNames
                             && probed (indicatorVisible w) (snd i))
                   stateIndicators) = inMeetingSeen w).
  { unfold inMeetingSeen. cbn.
    destruct (probed (indicatorVisible w) joinAudioButton),
             (probed (indicatorVisible w) participantsButton),
             (probed (indicatorVisible w) chatButton),
             (probed (indicatorVisible w) videoButton); reflexivity. }
  rewrite Hlen. apply Nat.leb_gt in Hfew. rewrite Hfew.
  destruct (lobbyLoop cfg w (maxAttempts cfg) 1) as [t [[]|e]];
    cbn [bind ret log emit app trace result fst snd].
  - split; [reflexivity|]. split.
    + rewrite app_nil_r. reflexivity.
    + intros ev _ Hev. rewrite app_nil_r.
      destruct t as [|ev' t]; [discriminate|exact Hev].
  - split; [reflexivity|]. split; [reflexivity|discriminate].
Qed.

Lemma waitForAdmission_shortcut_waits (cfg : AppConfig) (w : AdmissionWorld) :
  2 <= inMeetingSeen w -> waits (trace (waitForAdmission cfg w)) = 0.
Proof.
  intros Hmany. unfold waitForAdmission. rewrite probeIndicators_run.
  cbn [bind log emit waitForTimeout app List.map snd stateIndicators].
  rewrite inMeetingButtons_length.
  assert (Hlen :
    List.length
      (List.filter (fun i => existsb (String.eqb (fst i)) inMeetingNames
                             && probed (indicatorVisible w) (snd i))
                   stateIndicators) = inMeetingSeen w).
  { unfold inMeetingSeen. cbn.
    destruct (probed (indicatorVisible w) joinAudioButton),
             (probed (indicatorVisible w) participantsButton),
             (probed (indicatorVisible w) chatButton),
             (probed (indicatorVisible w) videoButton); reflexivity. }
  rewrite Hlen. apply Nat.leb_le in Hmany. rewrite Hmany. reflexivity.
Qed.

Lemma maxAttempts_ceiling (cfg : AppConfig) :
  (lobbyTimeoutMs cfg <= N.of_nat (maxAttempts cfg) * 1000
   /\ N.of_nat (maxAttempts cfg) * 1000 < lobbyTimeoutMs cfg + 1000)%N.
Proof.
  unfold maxAttempts, pollInterval. rewrite N2Nat.id.
  change (1000 - 1)%N with 999%N.
  pose proof (N.div_mod (lobbyTimeoutMs cfg + 999) 1000 ltac:(discriminate)) as Hd.
  pose proof (N.mod_lt (lobbyTimeoutMs cfg + 999) 1000 ltac:(discriminate)) as Hm.
  revert Hd Hm.
  generalize ((lobbyTimeoutMs cfg + 999) / 1000)%N,
             ((lobbyTimeoutMs cfg + 999) mod 1000)%N.
  generalize (lobbyTimeoutMs cfg). intros x q r Hd Hm. lia.
Qed.

(** X6 ([waitForAdmission], the lobby loop).  When fewer than two
    in-meeting controls are seen after the join, the bot polls for the
    Leave button: if it first appears at attempt [k + 1], within the
    attempts allowed, and no terminal-state text was seen before, the join
    succeeds after exactly [k + 1] waits and the last thing done is the log
    of a successful join with that attempt number. *)
Theorem admission_after_lobby (cfg : AppConfig) (w : AdmissionWorld) (k : nat) :
  inMeetingSeen w < 2 ->
  k < maxAttempts cfg ->
  leaveAppears w (S k) = true ->
  (forall j, j < k ->
     leaveAppears w (S j) = false /\ errorSeen w (S j) = false) ->
  result (waitForAdmission cfg w) = Ok leaveButton /\
  waits (trace (waitForAdmission cfg w)) = S k /\
  last (trace (waitForAdmission cfg w))
  = Some (LogAt info "Meeting joined successfully" (S k)).
Proof.
  intros Hfew Hk Hok Hbefore.
  destruct (waitForAdmission_lobby cfg w Hfew) as (Hr & Hw & Hlast).
  destruct (lobbyLoop_admitted cfg w k (maxAttempts cfg) 1 Hk Hok Hbefore)
    as (Hr' & Hw' & Hlast').
  rewrite Hr, Hr', Hw, Hw'. repeat split.
  apply Hlast; assumption.
Qed.

(** X7 ([waitForAdmission], terminal state).  In the lobby, the first
    attempt after which the text of an ended, closed or invalid meeting is
    visible aborts the join with the terminal-state error: no further wait
    is made, whatever the remaining lobby time. *)
Theorem admission_terminal_state (cfg : AppConfig) (w : AdmissionWorld) (k : nat) :
  inMeetingSeen w < 2 ->
  k < maxAttempts cfg ->
  errorSeen w (S k) = true ->
  (forall j, j <= k -> leaveAppears w (S j) = false) ->
  (forall j, j < k -> errorSeen w (S j) = false) ->
  result (waitForAdmission cfg w) = Err MeetingErrorState /\
  waits (trace (waitForAdmission cfg w)) = S k.
Proof.
  intros Hfew Hk Herr Hleave Hbefore.
  destruct (waitForAdmission_lobby cfg w Hfew) as (Hr & Hw & _).
  destruct (lobbyLoop_terminal cfg w k (maxAttempts cfg) 1 Hk Herr Hleave Hbefore)
    as (Hr' & Hw').
  rewrite Hr, Hr', Hw, Hw'. split; reflexivity.
Qed.

(** With a wait that resolves, the timed method is the one above. *)
Lemma timed_waitForAdmission_settled (cfg : AppConfig) (w : AdmissionWorld) :
  Timed.waitForAdmission cfg w true = waitForAdmission cfg w.
Proof. reflexivity. Qed.

(** X8 ([waitForAdmission], timeout).  When the wait that precedes the
    probes is rejected, the method throws that rejection at once, without
    a probe.  When it resolves, the Leave button never appears and no
    terminal state is seen, the join fails with the lobby timeout
    carrying the configured duration, after exactly
    [ceil(lobbyTimeoutMs / 1000)] waits of one second for the button. *)
Theorem admission_timeout (cfg : AppConfig) (w : AdmissionWorld)
  (settles : bool) :
  (settles = false ->
   Timed.waitForAdmission cfg w settles =
   ([Log info "Waiting to be admitted to the meeting"; WaitForTimeout 500],
    Err (Rejection (WaitForTimeout 500)))) /\
  (settles = true ->
   inMeetingSeen w < 2 ->
   (forall j, j < maxAttempts cfg ->
      leaveAppears w (S j) = false /\ errorSeen w (S j) = false) ->
   result (Timed.waitForAdmission cfg w settles)
   = Err (LobbyTimeout (lobbyTimeoutMs cfg)) /\
   waits (trace (Timed.waitForAdmission cfg w settles)) = maxAttempts cfg /\
   (lobbyTimeoutMs cfg <= N.of_nat (maxAttempts cfg) * 1000
    < lobbyTimeoutMs cfg + 1000)%N).
Proof.
  split.
  - intros ->. reflexivity.
  - intros -> Hfew Hnever. rewrite timed_waitForAdmission_settled.
    destruct (waitForAdmission_lobby cfg w Hfew) as (Hr & Hw & _).
    destruct (lobbyLoop_timeout cfg w (maxAttempts cfg) 1 Hnever) as (Hr' & Hw').
    rewrite Hr, Hr', Hw, Hw'. repeat split; apply maxAttempts_ceiling.
Qed.

(** X9 ([waitForAdmission], bound).  Whatever the page does, the wait for
    admission makes at most [ceil(lobbyTimeoutMs / 1000)] one-second waits
    for the Leave button, so it waits for less than the configured lobby
    time plus one second; none at all when two in-meeting controls are
    already visible. *)
Theorem admission_waits_bounded (cfg : AppConfig) (w : AdmissionWorld) :
  waits (trace (waitForAdmission cfg w)) <= maxAttempts cfg /\
  (N.of_nat (waits (trace (waitForAdmission cfg w))) * 1000
   < lobbyTimeoutMs cfg + 1000)%N /\
  (2 <= inMeetingSeen w -> waits (trace (waitForAdmission cfg w)) = 0).
Proof.
  assert (Hle : waits (trace (waitForAdmission cfg w)) <= maxAttempts cfg).
  { destruct (le_lt_dec 2 (inMeetingSeen w)) as [Hmany|Hfew].
    - rewrite waitForAdmission_shortcut_waits by exact Hmany. lia.
    - destruct (waitForAdmission_lobby cfg w Hfew) as (_ & Hw & _).
      rewrite Hw. apply lobbyLoop_waits_bound. }
  split; [exact Hle|]. split.
  - pose proof (maxAttempts_ceiling cfg). lia.
  - apply waitForAdmission_shortcut_waits.
Qed.

(* ================================================================== *)
(** * Further properties: overlays and the Join button *)
(* ================================================================== *)

Lemma clicked_app t1 t2 : clicked (t1 ++ t2) = clicked t1 ++ clicked t2.
Proof.
  induction t1 as [|ev t1 IH]; [reflexivity|].
  destruct ev; cbn [app clicked]; rewrite ?IH; reflexivity.
Qed.

Lemma logged_app message t1 t2 :
  logged message (t1 ++ t2) = logged message t1 + logged message t2.
Proof. unfold logged. rewrite List.filter_app, List.length_app. reflexivity. Qed.

Lemma evaluates_app script t1 t2 :
  evaluates script (t1 ++ t2) = evaluates script t1 || evaluates script t2.
Proof. apply existsb_app. Qed.

(** The parallel dismiss clicks: every selector is clicked, whether or
    not an earlier click succeeded. *)
Lemma dismissClicks_run (w : ModalWorld) (selectors : list string) :
  let clicks :=
    forEach selectors (fun selector =>
      tryCatch
        (await (Click (locator surface selector) 300) (dismissClick w selector) ;;
         log info "Clicked modal dismiss control")
        (fun _ => ret tt)) in
  result clicks = Ok tt /\
  clicked (trace clicks) = List.map (locator surface) selectors /\
  logged "Clicked modal dismiss control" (trace clicks)
  = List.length (List.filter (dismissClick w) selectors) /\
  evaluates "remove .ReactModalPortal" (trace clicks) = false /\
  logged "Blocking overlay dismissed" (trace clicks) = 0.
Proof.
  induction selectors as [|s rest IH]; [repeat split|].
  cbn zeta in *. destruct IH as (Hr & Hc & Hl & He & Hd).
  cbn [forEach List.map List.filter].
  rewrite result_bind, trace_bind, result_tryCatch, trace_tryCatch,
    result_bind, trace_bind, result_await, trace_await.
  destruct (dismissClick w s); cbn beta iota;
    rewrite ?trace_log, ?result_log, ?trace_ret, ?result_ret, ?app_nil_r;
    cbn beta iota;
    rewrite ?clicked_app, ?logged_app, ?evaluates_app, Hr, Hc, Hl, He, Hd;
    repeat split.
Qed.

(** X10 ([dismissBlockingModals], overlays present).  When the first count
    finds overlays, every one of the nine dismiss controls is clicked once,
    in the order of the list, whether or not an earlier click succeeded;
    one click is logged per click that succeeded; the portals are removed
    by script exactly when the second count still finds an overlay, and the
    overlay is reported dismissed exactly when that count is zero. *)
Theorem dismissBlockingModals_clicks_all
  (w : ModalWorld) (context : string) (n : nat) :
  initialCount w = Fulfilled (S n) ->
  clicked (trace (dismissBlockingModals w context))
  = List.map (locator surface) dismissSelectors /\
  logged "Clicked modal dismiss control" (trace (dismissBlockingModals w context))
  = List.length (List.filter (dismissClick w) dismissSelectors) /\
  (evaluates "remove .ReactModalPortal" (trace (dismissBlockingModals w context))
   = true <-> exists r, remainingCount w = Fulfilled (S r)) /\
  (logged "Blocking overlay dismissed" (trace (dismissBlockingModals w context))
   = 1 <-> remainingCount w = Fulfilled 0).
Proof.
  intros Hn. unfold dismissBlockingModals.
  destruct (dismissClicks_run w dismissSelectors) as (Hr & Hc & Hl & He & Hd).
  cbn zeta in Hr, Hc, Hl, He, Hd.
  set (clicks := forEach dismissSelectors _) in *.
  rewrite Hn, trace_bind, result_awaitValue, trace_awaitValue.
  cbn [Nat.eqb]. cbn beta iota.
  rewrite trace_bind, result_log, trace_log. cbn beta iota.
  rewrite trace_bind, Hr. cbn beta iota.
  set (rest := bind (tryCatch (await (Press body "Escape") (escapePress w)) _) _).
  assert (Hrest :
    clicked (trace rest) = [] /\
    logged "Clicked modal dismiss control" (trace rest) = 0 /\
    (evaluates "remove .ReactModalPortal" (trace rest) = true
     <-> exists r, remainingCount w = Fulfilled (S r)) /\
    (logged "Blocking overlay dismissed" (trace rest) = 1
     <-> remainingCount w = Fulfilled 0)).
  { unfold rest.
    destruct (escapePress w), (remainingCount w) as [[|r]|],
      (forceRemove w) as [removed|];
      cbn; repeat split; intros H; try discriminate H;
      try (destruct H; discriminate); eauto. }
  destruct Hrest as (Hc' & Hl' & He' & Hd').
  change (?x :: ?t) with ([x] ++ t).
  rewrite !clicked_app, !logged_app, !evaluates_app, Hc, Hc', Hl, Hl', He, Hd.
  assert (P1 : forall m, logged m [Count overlayLocator] = 0) by reflexivity.
  assert (P2 : logged "Clicked modal dismiss control"
                 [Log warn "Blocking overlay detected"] = 0) by reflexivity.
  assert (P3 : logged "Blocking overlay dismissed"
                 [Log warn "Blocking overlay detected"] = 0) by reflexivity.
  rewrite !P1, P2, P3.
  cbn [clicked app orb plus evaluates existsb].
  rewrite app_nil_r, Nat.add_0_r. repeat split; try apply He'; try apply Hd'.
Qed.

Lemma timed_clickEach_none (w : JoinWorld) (t : Timed.JoinWaits)
  (candidates : list Locator) :
  forall i,
    none (joinClickFallback w) candidates = true ->
    Timed.clickEach w t i candidates =
    (List.map (fun l => Click l 1000) candidates
       ++ [Log warn "Join button not found via selectors, sending Enter key fallback";
           Press body "Enter"]
       ++ (if enterPress w then [WaitForTimeout 200] else []),
     if enterPress w then
       if Timed.afterEnter t then Ok tt
       else Err (Rejection (WaitForTimeout 200))
     else Err (Rejection (Press body "Enter"))).
Proof.
  induction candidates as [|l rest IH]; intros i Hnone.
  - cbn. destruct (enterPress w), (Timed.afterEnter t); reflexivity.
  - cbn in Hnone. apply andb_true_iff in Hnone as [Hl Hnone].
    apply negb_true_iff in Hl. cbn [Timed.clickEach]. rewrite Hl.
    cbn [await emit bind throw tryCatch app]. rewrite (IH (S i) Hnone).
    reflexivity.
Qed.

(** X11 ([submitJoin], failures).  With [modals] the dismissal that opens
    [submitJoin]: if the dismissal throws, so does [submitJoin], before any
    Join button is probed.  Otherwise, a button seen visible whose click
    is rejected ends [submitJoin] with that rejection, and the fallback
    clicks are not tried; so does the rejection of the wait that follows
    a successful click on it.  When no button is seen visible and every
    fallback click is rejected, each candidate has been clicked once, in
    order, and Enter is pressed on the body: [submitJoin] throws the
    rejection of that key press, else that of the wait that follows it,
    and succeeds when both resolve. *)
Theorem submitJoin_failures (w : JoinWorld) (t : Timed.JoinWaits) :
  let modals :=
    Timed.dismissBlockingModals (joinModals w) (Timed.joinModalWaits t)
      "before-join" in
  (forall e, result modals = Err e ->
     Timed.submitJoin w t = (trace modals, Err e)) /\
  (result modals = Ok tt ->
   (forall k c,
      joinCandidates !! k = Some c ->
      probed (joinVisible w) c = true ->
      none (probed (joinVisible w)) (take k joinCandidates) = true ->
      joinClick w c = false ->
      Timed.submitJoin w t =
      (trace modals ++ List.map IsVisible joinCandidates ++ [Click c 1000],
       Err (Rejection (Click c 1000)))) /\
   (forall k c,
      joinCandidates !! k = Some c ->
      probed (joinVisible w) c = true ->
      none (probed (joinVisible w)) (take k joinCandidates) = true ->
      joinClick w c = true ->
      Timed.afterJoinClick t = false ->
      Timed.submitJoin w t =
      (trace modals ++ List.map IsVisible joinCandidates
         ++ [Click c 1000; LogAt info "Clicked Join button" k;
             WaitForTimeout 200],
       Err (Rejection (WaitForTimeout 200)))) /\
   (none (probed (joinVisible w)) joinCandidates = true ->
    none (joinClickFallback w) joinCandidates = true ->
    Timed.submitJoin w t =
    (trace modals ++ List.map IsVisible joinCandidates
       ++ List.map (fun l => Click l 1000) joinCandidates
       ++ [Log warn "Join button not found via selectors, sending Enter key fallback";
           Press body "Enter"]
       ++ (if enterPress w then [WaitForTimeout 200] else []),
     if enterPress w then
       if Timed.afterEnter t then Ok tt
       else Err (Rejection (WaitForTimeout 200))
     else Err (Rejection (Press body "Enter"))))).
Proof.
  cbn zeta. unfold Timed.submitJoin, Timed.submitJoinAmong, visibilityChecks.
  rewrite visibilityChecksFrom_run.
  destruct (Timed.dismissBlockingModals (joinModals w) (Timed.joinModalWaits t)
              "before-join") as [tm r].
  cbn [trace result fst snd]. split; [|intros ->; split; [|split]].
  - intros e ->. reflexivity.
  - intros k c Hk Hc Hnone Hclick.
    cbn [bind ret app].
    rewrite (find_checksFrom_at _ _ 0 k c Hk Hc Hnone).
    cbn [checked index await emit bind throw]. rewrite Hclick. reflexivity.
  - intros k c Hk Hc Hnone Hclick Hwait.
    cbn [bind ret app].
    rewrite (find_checksFrom_at _ _ 0 k c Hk Hc Hnone).
    unfold Timed.waitForTimeout.
    cbn [checked index await emit bind throw]. rewrite Hclick, Hwait.
    reflexivity.
  - intros Hnone Hfail.
    cbn [bind ret app].
    rewrite (find_checksFrom_none _ _ 0 Hnone),
      (timed_clickEach_none w t _ 0 Hfail).
    destruct (enterPress w), (Timed.afterEnter t); reflexivity.
Qed.

(* ================================================================== *)
(** * Further properties: the chat message *)
(* ================================================================== *)

Lemma result_clickVisible (click : Locator -> bool) isVisible
  (candidates : list Locator) :
  forall i,
    result (clickVisible click (checksFrom isVisible i candidates))
    = Ok (existsb (fun c => probed isVisible c && click c) candidates).
Proof.
  induction candidates as [|l rest IH]; intros i; [reflexivity|].
  cbn [checksFrom clickVisible visible checked index existsb].
  destruct (probed isVisible l); cbn [andb orb]; [|apply IH].
  rewrite result_tryCatch, !result_bind, result_await.
  destruct (click l); cbn [orb]; [reflexivity|apply IH].
Qed.

Lemma result_resolveChatInput (w : ResolveWorld) :
  result (resolveChatInput w) = Ok (resolution w).
Proof. apply resolveChatInput_run. Qed.

Lemma result_tryActivateChatInput (w : ActivationWorld) :
  result (tryActivateChatInput w) = Ok (activates w).
Proof. apply tryActivateChatInput_run. Qed.

Lemma result_captureDomSnapshot ok reason :
  result (captureDomSnapshot ok reason) = Ok tt.
Proof. destruct ok; reflexivity. Qed.

Lemma result_captureDebugScreenshot page label :
  result (captureDebugScreenshot page label) = Ok tt.
Proof. destruct page as [[]|]; reflexivity. Qed.

(** The part of [sendChatMessage] after the chat panel was opened. *)
Lemma sendChatMessage_tail (cfg : AppConfig) (w : ChatSendWorld) :
  result
    (resolvedInput <- resolveChatInput (firstResolve w) ;;
     match resolvedInput with
     | Some _ => ret tt
     | None =>
         log warn "Chat input not found, trying activation strategies" ;;
         activated <- tryActivateChatInput (activation w) ;;
         if (activated : bool) then log info "Chat input successfully activated"
         else
           captureDomSnapshot (missingSnapshotOk w) "chat-input-missing" ;;
           captureDebugScreenshot (chatPage w) "chat-input-missing" ;;
           throw ChatInputMissing
     end ;;
     log info "Filling chat input" ;;
     finalInput <- match resolvedInput with
                   | Some i => ret (Some i)
                   | None => resolveChatInput (secondResolve w)
                   end ;;
     match finalInput with
     | None => throw ChatInputDisappeared
     | Some input =>
         await (Fill input (messageText cfg)) (messageFill w) ;;
         await (Press input "Enter") (messagePress w) ;;
         log info "Chat message sent"
     end)
  = match resolution (firstResolve w) with
    | Some input => typed cfg w input
    | None =>
        if activates (activation w) then
          match resolution (secondResolve w) with
          | Some input => typed cfg w input
          | None => Err ChatInputDisappeared
          end
        else Err ChatInputMissing
    end.
Proof.
  assert (Htyped : forall input,
    result (await (Fill input (messageText cfg)) (messageFill w) ;;
            await (Press input "Enter") (messagePress w) ;;
            log info "Chat message sent") = typed cfg w input).
  { intros input. unfold typed. rewrite !result_bind, !result_await.
    destruct (messageFill w); [|reflexivity]. cbn beta iota.
    rewrite ?result_bind, ?result_await. destruct (messagePress w); reflexivity. }
  rewrite result_bind, result_resolveChatInput. cbn beta iota.
  destruct (resolution (firstResolve w)) as [input|].
  - rewrite result_bind, result_ret. cbn beta iota.
    rewrite result_bind, result_log. cbn beta iota.
    rewrite result_bind, result_ret. cbn beta iota. apply Htyped.
  - rewrite result_bind, result_bind, result_log. cbn beta iota.
    rewrite result_bind, result_tryActivateChatInput. cbn beta iota.
    destruct (activates (activation w)).
    + rewrite result_log. cbn beta iota.
      rewrite result_bind, result_log. cbn beta iota.
      rewrite result_bind, result_resolveChatInput. cbn beta iota.
      destruct (resolution (secondResolve w)) as [input|]; [apply Htyped|].
      reflexivity.
    + rewrite result_bind, result_captureDomSnapshot. cbn beta iota.
      rewrite result_bind, result_captureDebugScreenshot. reflexivity.
Qed.

Lemma timed_sendChatMessage_run (cfg : AppConfig) (w : ChatSendWorld)
  (t : Timed.ChatWaits) :
  messageText cfg <> EmptyString ->
  result (Timed.sendChatMessage cfg w t) =
  match result (Timed.dismissBlockingModals (chatModals w)
                  (Timed.chatModalWaits t) "before-chat-open") with
  | Err e => Err e
  | Ok _ =>
      if clicksChatButton w || altH w then
        if Timed.afterOpen t then
          match resolution (firstResolve w) with
          | Some input => typed cfg w input
          | None =>
              if activates (activation w) then
                match resolution (secondResolve w) with
                | Some input => typed cfg w input
                | None => Err ChatInputDisappeared
                end
              else Err ChatInputMissing
          end
        else Err (Rejection (WaitForTimeout 300))
      else Err (Rejection (Press body "Alt+H"))
  end.
Proof.
  intros Hmsg. apply String.eqb_neq in Hmsg.
  unfold Timed.sendChatMessage, visibilityChecks, clicksChatButton, typed,
    Timed.waitForTimeout.
  rewrite Hmsg, visibilityChecksFrom_run.
  rewrite !result_bind, result_log. cbn beta iota.
  destruct (result (Timed.dismissBlockingModals _ _ _)) as [[]|e];
    [|reflexivity].
  cbn [result snd]. rewrite result_bind, result_clickVisible. cbn beta iota.
  destruct (existsb _ chatButtons); cbn [orb].
  2: { rewrite result_bind, result_bind, result_log. cbn beta iota.
       rewrite result_bind, result_await.
       destruct (altH w); [|reflexivity]. cbn beta iota.
       rewrite result_await.
       destruct (Timed.afterOpen t); [|reflexivity]. cbn beta iota.
       apply sendChatMessage_tail. }
  rewrite result_bind, result_await.
  destruct (Timed.afterOpen t); [|reflexivity]. cbn beta iota.
  apply sendChatMessage_tail.
Qed.

Lemma suffix_bind {A B} (m : M Event A) (k : A -> M Event B) (b : B) :
  result (bind m k) = Ok b ->
  exists a, result m = Ok a /\ result (k a) = Ok b /\
            forall s, s `suffix_of` trace (k a) -> s `suffix_of` trace (bind m k).
Proof.
  rewrite result_bind, trace_bind. destruct (result m) as [a|e]; [|discriminate].
  intros Hk. exists a. repeat split; [exact Hk|].
  intros s Hs. apply suffix_app_r, Hs.
Qed.

Lemma sendChatMessage_typed (cfg : AppConfig) (w : ChatSendWorld)
  (input : Locator) :
  result (await (Fill input (messageText cfg)) (messageFill w) ;;
          await (Press input "Enter") (messagePress w) ;;
          log info "Chat message sent") = Ok tt ->
  [Fill input (messageText cfg); Press input "Enter";
   Log info "Chat message sent"]
  `suffix_of` trace (await (Fill input (messageText cfg)) (messageFill w) ;;
                     await (Press input "Enter") (messagePress w) ;;
                     log info "Chat message sent").
Proof.
  destruct (messageFill w), (messagePress w); try discriminate.
  intros _. exists []. reflexivity.
Qed.

(** X12 ([sendChatMessage], how it ends).  With an empty message nothing
    is done but one log.  Otherwise a failure of the overlay dismissal is
    thrown on; the chat must be opened by a visible chat button whose
    click succeeds or, failing that, by Alt+H, whose rejection is thrown;
    the wait that follows is awaited unguarded, and its rejection is
    thrown; then the message is typed into the input resolved first, or,
    when none is and the activation succeeds, into the input resolved
    after it.  A failed activation ends in the missing-input error, an
    input that is gone after a successful activation in the
    disappeared-input error, and a rejected fill or Enter key in that
    rejection. *)
Theorem sendChatMessage_outcome (cfg : AppConfig) (w : ChatSendWorld)
  (t : Timed.ChatWaits) :
  (messageText cfg = EmptyString ->
   Timed.sendChatMessage cfg w t
   = ([Log info "MESSAGE_TEXT is empty, skipping chat"], Ok tt)) /\
  (messageText cfg <> EmptyString ->
   result (Timed.sendChatMessage cfg w t) =
   match result (Timed.dismissBlockingModals (chatModals w)
                   (Timed.chatModalWaits t) "before-chat-open") with
   | Err e => Err e
   | Ok _ =>
       if clicksChatButton w || altH w then
         if Timed.afterOpen t then
           match resolution (firstResolve w) with
           | Some input => typed cfg w input
           | None =>
               if activates (activation w) then
                 match resolution (secondResolve w) with
                 | Some input => typed cfg w input
                 | None => Err ChatInputDisappeared
                 end
               else Err ChatInputMissing
           end
         else Err (Rejection (WaitForTimeout 300))
       else Err (Rejection (Press body "Alt+H"))
   end).
Proof.
  split; [|apply timed_sendChatMessage_run].
  intros Hempty. unfold Timed.sendChatMessage. rewrite Hempty. reflexivity.
Qed.

(** X13 ([sendChatMessage], success).  When [sendChatMessage] returns
    normally with a message to send, the last things it did are to fill
    the configured message into a chat input, press Enter on that input
    and log that the message was sent; the input is the one resolved
    first or, when there was none, the one resolved after a successful
    activation. *)
Theorem sendChatMessage_sends (cfg : AppConfig) (w : ChatSendWorld) :
  messageText cfg <> EmptyString ->
  result (sendChatMessage cfg w) = Ok tt ->
  exists input before,
    (resolution (firstResolve w) = Some input \/
     (resolution (firstResolve w) = None /\
      activates (activation w) = true /\
      resolution (secondResolve w) = Some input)) /\
    trace (sendChatMessage cfg w)
    = before ++ [Fill input (messageText cfg); Press input "Enter";
                 Log info "Chat message sent"].
Proof.
  intros Hmsg Hok. apply String.eqb_neq in Hmsg.
  enough (exists input,
    (resolution (firstResolve w) = Some input \/
     (resolution (firstResolve w) = None /\
      activates (activation w) = true /\
      resolution (secondResolve w) = Some input)) /\
    [Fill input (messageText cfg); Press input "Enter";
     Log info "Chat message sent"] `suffix_of` trace (sendChatMessage cfg w))
    as (input & Hin & before & Ht) by (exists input, before; auto).
  unfold sendChatMessage in *. rewrite Hmsg in *.
  apply suffix_bind in Hok as (? & _ & Hok & S1).
  apply suffix_bind in Hok as (? & _ & Hok & S2).
  apply suffix_bind in Hok as (? & _ & Hok & S3).
  apply suffix_bind in Hok as (? & _ & Hok & S4).
  apply suffix_bind in Hok as (? & _ & Hok & S5).
  apply suffix_bind in Hok as (resolvedInput & Hfirst & Hok & S6).
  rewrite result_resolveChatInput in Hfirst. injection Hfirst as <-.
  apply suffix_bind in Hok as (? & Hact & Hok & S7).
  apply suffix_bind in Hok as (? & _ & Hok & S8).
  apply suffix_bind in Hok as (finalInput & Hfinal & Hok & S9).
  destruct (resolution (firstResolve w)) as [input|].
  - rewrite result_ret in Hfinal. injection Hfinal as <-.
    exists input. split; [left; reflexivity|].
    apply S1, S2, S3, S4, S5, S6, S7, S8, S9, sendChatMessage_typed, Hok.
  - rewrite result_resolveChatInput in Hfinal. injection Hfinal as <-.
    destruct (resolution (secondResolve w)) as [input|]; [|discriminate].
    exists input. split.
    + right. repeat split.
      apply suffix_bind in Hact as (? & _ & Hact & _).
      apply suffix_bind in Hact as (activated & Hladder & Hact & _).
      rewrite result_tryActivateChatInput in Hladder. injection Hladder as <-.
      destruct (activates (activation w)); [reflexivity|].
      apply suffix_bind in Hact as (? & _ & Hact & _).
      apply suffix_bind in Hact as (? & _ & Hact & _). discriminate.
    + apply S1, S2, S3, S4, S5, S6, S7, S8, S9, sendChatMessage_typed, Hok.
Qed.

(* ================================================================== *)
(** * Further properties: what the monitoring replies to *)
(* ================================================================== *)

Section ReplyFacts.
Context `{StringOps}.
Variable cfg : AppConfig.

Lemma processMessages_sound (messages : list ChatMessage) :
  forall rw i seen,
    (forall msg token,
       (msg, token) ∈ replies (trace (processMessages cfg rw i seen messages)) ->
       msg ∈ messages /\ isBotOwnMessage cfg msg = false /\
       isQuit msg = false /\ token = answer cfg msg) /\
    (result (processMessages cfg rw i seen messages) = Ok None ->
     exists msg, msg ∈ messages /\ isBotOwnMessage cfg msg = false /\
                 isQuit msg = true).
Proof.
  induction messages as [|m rest IH]; intros rw i seen.
  - cbn. split; [intros msg token Hin; inversion Hin|discriminate].
  - assert (Hrest : forall seen',
      (forall msg token,
         (msg, token) ∈ replies (trace (processMessages cfg rw (S i) seen' rest)) ->
         msg ∈ m :: rest /\ isBotOwnMessage cfg msg = false /\
         isQuit msg = false /\ token = answer cfg msg) /\
      (result (processMessages cfg rw (S i) seen' rest) = Ok None ->
       exists msg, msg ∈ m :: rest /\ isBotOwnMessage cfg msg = false /\
                   isQuit msg = true)).
    { intros seen'. destruct (IH rw (S i) seen') as [Hreplies Hquit]. split.
      - intros msg token Hin. destruct (Hreplies msg token Hin) as (? & ? & ? & ?).
        repeat split; auto. apply elem_of_cons. auto.
      - intros Hnone. destruct (Hquit Hnone) as (msg & ? & ? & ?).
        exists msg. repeat split; auto. apply elem_of_cons. auto. }
    cbn [processMessages]. case_bool_decide; [apply Hrest|].
    destruct (isBotOwnMessage cfg m) eqn:Hown.
    + rewrite trace_bind, result_bind.
      cbn [result did log emit snd trace fst List.map].
      rewrite replies_app. cbn [replies app]. apply Hrest.
    + rewrite trace_bind, result_bind.
      cbn [result did log emit snd trace fst List.map].
      rewrite replies_app. cbn [replies app].
      destruct (String.eqb (trim (toLowerCase (text m))) "quit") eqn:Hq.
      * split; [cbn; intros msg token Hin; inversion Hin|].
        intros _. exists m. repeat split; [apply elem_of_cons; auto|exact Hown|].
        exact Hq.
      * rewrite reply_branch. cbn [trace result fst snd replies].
        destruct (Hrest ({[messageKey m]} ∪ seen)) as [Hreplies Hquit].
        split; [|exact Hquit].
        intros msg token Hin. apply elem_of_cons in Hin as [[= -> ->]|Hin];
          [|exact (Hreplies _ _ Hin)].
        repeat split; [apply elem_of_cons; auto|exact Hown|exact Hq].
Qed.

Lemma elem_of_polledMessages_here p rest messages msg :
  polled p = Fulfilled messages -> msg ∈ messages ->
  msg ∈ polledMessages (p :: rest).
Proof.
  intros Hp Hin. unfold polledMessages. cbn [List.map List.concat].
  rewrite Hp. apply elem_of_app. left. exact Hin.
Qed.

Lemma elem_of_polledMessages_later p rest msg :
  msg ∈ polledMessages rest -> msg ∈ polledMessages (p :: rest).
Proof.
  intros Hin. unfold polledMessages. cbn [List.map List.concat].
  apply elem_of_app. right. exact Hin.
Qed.

Lemma monitorLoop_sound (polls : list PollStep) :
  forall seen e,
    (forall msg token,
       (msg, token) ∈ replies (trace (monitorLoop cfg polls seen e)) ->
       msg ∈ polledMessages polls /\ isBotOwnMessage cfg msg = false /\
       isQuit msg = false /\ token = answer cfg msg) /\
    (result (monitorLoop cfg polls seen e) = Ok Returned ->
     exists msg, msg ∈ polledMessages polls /\
                 isBotOwnMessage cfg msg = false /\ isQuit msg = true).
Proof.
  induction polls as [|p rest IH]; intros seen e.
  - cbn. split; [intros msg token Hin; inversion Hin|discriminate].
  - destruct (polled p) as [messages|] eqn:Hp.
    + destruct (processMessages_total cfg (replyWorld p) 0 seen messages)
        as [o Ho].
      destruct (processMessages_sound messages (replyWorld p) 0 seen)
        as [Hreplies Hquit].
      rewrite (monitorLoop_fulfilled cfg _ _ _ _ _ _ Hp Ho).
      destruct o as [seen'|]; cbn [trace result fst snd].
      * destruct (IH seen' 0) as [Hreplies' Hquit']. split.
        -- change (Did ?x :: ?t ++ Did ?y :: ?t')
             with ([Did x] ++ t ++ [Did y] ++ t').
           rewrite !replies_app. cbn [replies app].
           intros msg token Hin. apply elem_of_app in Hin as [Hin|Hin].
           ++ destruct (Hreplies _ _ Hin) as (? & ? & ? & ?).
              repeat split; auto.
              eapply elem_of_polledMessages_here; eauto.
           ++ destruct (Hreplies' _ _ Hin) as (? & ? & ? & ?).
              repeat split; auto.
              apply elem_of_polledMessages_later. assumption.
        -- intros Hret. destruct (Hquit' Hret) as (msg & ? & ? & ?).
           exists msg. repeat split; auto.
           apply elem_of_polledMessages_later. assumption.
      * split.
        -- cbn [replies]. intros msg token Hin.
           destruct (Hreplies _ _ Hin) as (? & ? & ? & ?).
           repeat split; auto. eapply elem_of_polledMessages_here; eauto.
        -- intros _. destruct (Hquit Ho) as (msg & ? & ? & ?).
           exists msg. repeat split; auto.
           eapply elem_of_polledMessages_here; eauto.
    + rewrite (monitorLoop_rejected cfg _ _ _ _ Hp).
      destruct (maxConsecutiveErrors <=? S e); cbn [trace result fst snd].
      * split; [cbn; intros msg token Hin; inversion Hin|discriminate].
      * destruct (IH seen (S e)) as [Hreplies' Hquit']. split.
        -- cbn [replies]. intros msg token Hin.
           destruct (Hreplies' _ _ Hin) as (? & ? & ? & ?).
           repeat split; auto. apply elem_of_polledMessages_later. assumption.
        -- intros Hret. destruct (Hquit' Hret) as (msg & ? & ? & ?).
           exists msg. repeat split; auto.
           apply elem_of_polledMessages_later. assumption.
Qed.

Lemma replies_monitorChatMessages polls :
  replies (trace (monitorChatMessages cfg polls))
  = replies (trace (monitorLoop cfg polls ∅ 0)).
Proof.
  unfold monitorChatMessages. rewrite trace_bind.
  cbn [result did log emit snd trace fst List.map]. rewrite replies_app.
  reflexivity.
Qed.

End ReplyFacts.

(** X14 ([monitorChatMessages], replies).  Whatever the polls yield, every
    reply of a monitoring session answers a message that some poll
    yielded, that is not one of the bot's own (not under the bot's name,
    and not the text [roger], [dong] or [I'm in.]) and that is not the
    quit command; the reply is [dong] when the text, lower-cased and
    trimmed, contains the lower-cased bot name, and [roger] otherwise. *)
Theorem replies_sound `{StringOps} (cfg : AppConfig) (polls : list PollStep)
  (msg : ChatMessage) (token : string) :
  (msg, token) ∈ replies (trace (monitorChatMessages cfg polls)) ->
  msg ∈ polledMessages polls /\
  isBotOwnMessage cfg msg = false /\
  isQuit msg = false /\
  token = answer cfg msg.
Proof.
  rewrite replies_monitorChatMessages. apply monitorLoop_sound.
Qed.

(** X15 ([monitorChatMessages], normal return).  The monitoring returns
    normally only on a quit command: some poll yielded a message whose
    text, lower-cased and trimmed, is [quit] and that is not one of the
    bot's own. *)
Theorem returns_only_on_quit `{StringOps} (cfg : AppConfig)
  (polls : list PollStep) :
  result (monitorChatMessages cfg polls) = Ok Returned ->
  exists msg, msg ∈ polledMessages polls /\
              isBotOwnMessage cfg msg = false /\ isQuit msg = true.
Proof.
  rewrite result_monitorChatMessages. apply monitorLoop_sound.
Qed.

(** X16 ([monitorChatMessages], key collisions).  The key of a message
    joins sender and text with a colon, so two different messages can
    share a key, as a sender [a:b] writing [c] and a sender [a] writing
    [b:c] do.  Of two different messages with the same key at most one is
    ever answered in a session. *)
Theorem key_collision `{StringOps} (cfg : AppConfig) (polls : list PollStep)
  (m1 m2 : ChatMessage) (token1 token2 : string) :
  messageKey m1 = messageKey m2 ->
  m1 <> m2 ->
  ~ ((m1, token1) ∈ replies (trace (monitorChatMessages cfg polls)) /\
     (m2, token2) ∈ replies (trace (monitorChatMessages cfg polls))).
Proof.
  intros Hkey Hneq [H1 H2]. rewrite replies_monitorChatMessages in H1, H2.
  destruct (monitorLoop_keys cfg polls ∅ 0) as [Hnd _].
  unfold repliedKeys in Hnd.
  apply Hneq.
  assert (Heq : (m1, token1) = (m2, token2)).
  { revert Hnd H1 H2 Hkey.
    generalize (replies (trace (monitorLoop cfg polls ∅ 0))).
    induction l as [|r l IH]; intros Hnd H1 H2 Hkey; [inversion H1|].
    cbn [List.map] in Hnd. apply NoDup_cons in Hnd as [Hnotin Hnd].
    apply elem_of_cons in H1 as [H1|H1], H2 as [H2|H2].
    - congruence.
    - exfalso. apply Hnotin. subst r. cbn [fst]. rewrite Hkey.
      apply (list_elem_of_fmap_2 (fun r => messageKey (fst r)) _ _ H2).
    - exfalso. apply Hnotin. subst r. cbn [fst]. rewrite <- Hkey.
      apply (list_elem_of_fmap_2 (fun r => messageKey (fst r)) _ _ H1).
    - apply IH; assumption. }
  congruence.
Qed.

(* ================================================================== *)
(** * Further properties: the order of the workflow *)
(* ================================================================== *)

(** A run that stopped after [k] stages. *)
Ltac stopped_after w k :=
  exists k;
  destruct (pageIsClosed w), (failureScreenshot w); cbn;
  (split; [lia|]); (split; [reflexivity|]);
  split; intros; discriminate.

(** X17 ([joinAndChat], order of the stages).  A run enters the stages in
    the order navigation, cookies, surface, display name, join, admission,
    chat message, monitoring (when enabled), leave, completion, and stops
    at the first one that throws: the stages entered are an initial part
    of that sequence, followed by the failure screenshot exactly when the
    run throws and the page is not closed.  The run completes exactly
    when it went through the whole sequence. *)
Theorem workflow_order `{StringOps} (cfg : AppConfig) (w : SessionWorld) :
  exists n,
    1 <= n /\
    stages (joinAndChat cfg w)
    = take n (pipeline cfg) ++ captured w (result (joinAndChat cfg w)) /\
    (result (joinAndChat cfg w) = Ok Completed
     <-> n = List.length (pipeline cfg)).
Proof.
  pose proof (leaveMeeting_ok cfg (leave w)) as Hleave.
  unfold joinAndChat, stages, pipeline, captured.
  destruct (monitorMessages cfg).
  all: stage_of (await (Goto (webClientUrl cfg) (navigationTimeoutMs cfg))
                   (gotoOk w)); [|stopped_after w 1].
  all: stage_of (acceptCookies (cookieClick w)); [|stopped_after w 2].
  all: stage_of (resolveSurface (surfaces w)); [|stopped_after w 3].
  all: stage_of (fillDisplayName cfg (nameWaitOk w) (nameFillOk w));
    [|stopped_after w 4].
  all: stage_of (submitJoin (join w)); [|stopped_after w 5].
  all: stage_of (waitForAdmission cfg (admission w)); [|stopped_after w 6].
  all: stage_of (sendChatMessage cfg (chat w)); [|stopped_after w 7].
  - destruct (monitorChatMessages cfg (polls w)) as [tm [[|seen errors]|err]];
      cbn [stage flat trace result fst snd bind tryCatch throw ret app
           List.map stages].
    + specialize (Hleave (Some r4)).
      destruct (leaveMeeting cfg (leave w) (Some r4)) as [tl rl].
      cbn in Hleave. subst rl. exists 10. cbn. repeat split; lia.
    + exists 8. cbn. repeat split; try lia; intros; discriminate.
    + stopped_after w 8.
  - cbn [stage flat trace result fst snd bind tryCatch throw ret app
         List.map stages].
    specialize (Hleave (Some r4)).
    destruct (leaveMeeting cfg (leave w) (Some r4)) as [tl rl].
    cbn in Hleave. subst rl. exists 9. cbn. repeat split; lia.
Qed.

(** X18 ([joinAndChat], handler).  The handler of the workflow changes
    neither whether the run throws nor what it throws: the run ends the
    same way whether the page is closed or not and whether the failure
    screenshot succeeds or is rejected. *)
Theorem workflow_error_unchanged `{StringOps} (cfg : AppConfig)
  (w : SessionWorld) (closed screenshotOk : bool) :
  result (joinAndChat cfg (withHandler w closed screenshotOk))
  = result (joinAndChat cfg w).
Proof.
  unfold joinAndChat, withHandler.
  cbn [gotoOk cookieClick surfaces nameWaitOk nameFillOk join admission chat
       polls leave pageIsClosed failureScreenshot].
  rewrite !result_tryCatch.
  match goal with
  | |- match result ?m with _ => _ end = _ => destruct (result m) as [end_|e]
  end; [reflexivity|].
  destruct closed, screenshotOk, (pageIsClosed w), (failureScreenshot w);
    reflexivity.
Qed.

(* ================================================================== *)
(** * Further properties: the logger *)
(* ================================================================== *)

Lemma emit_nil (l : Logger.Logger) now level message context :
  Logger.emit l now level message context = []
  <-> Logger.belowThreshold level (Logger.minLevel l) = true.
Proof.
  unfold Logger.emit. destruct (Logger.belowThreshold _ _); split;
    intros; try discriminate; reflexivity.
Qed.

Lemma ownLevel_levelName (level : LogLevel) :
  Logger.ownLevel (Logger.levelName level) = Some level.
Proof. destruct level; reflexivity. Qed.

Lemma ownLevel_inLevelWeight (key : string) (level : LogLevel) :
  Logger.ownLevel key = Some level -> Logger.inLevelWeight key = true.
Proof. unfold Logger.inLevelWeight. intros ->. reflexivity. Qed.

Lemma levelName_nonempty (level : LogLevel) :
  String.eqb (Logger.levelName level) EmptyString = false.
Proof. destruct level; reflexivity. Qed.

(** X19 ([Logger.emit], threshold).  Whatever its minimum level, a logger
    that writes a level writes every heavier level too, and it never
    drops an error. *)
Theorem log_threshold (l : Logger.Logger) (now message : string)
  (a b : LogLevel) (context : option (gmap string JsValue)) :
  Logger.levelWeight a <= Logger.levelWeight b ->
  (Logger.emit l now a message context <> [] ->
   Logger.emit l now b message context <> []) /\
  Logger.emit l now error message context <> [].
Proof.
  intros Hab. rewrite !emit_nil. unfold Logger.belowThreshold.
  destruct (Logger.ownLevel (Logger.minLevel l)) as [m|];
    [|split; [auto|discriminate]].
  split.
  - intros Ha Hb. apply Ha. apply Nat.ltb_lt in Hb. apply Nat.ltb_lt. lia.
  - intros Hm. apply Nat.ltb_lt in Hm. destruct m; cbn in Hm; lia.
Qed.

(** X20 ([normalizeLevel], [createLogger]).  When [LOG_LEVEL] names a
    level in any letter case, the loggers created drop exactly the levels
    lighter than it.  When [LOG_LEVEL] is unset, or its lower-cased value
    is no property of the weight table, they behave as for [info]: only
    [debug] is dropped. *)
Theorem log_level_from_environment `{StringOps}
  (logLevel : option string) (childScope now message : string)
  (level : LogLevel) (context : option (gmap string JsValue)) :
  (forall s named,
     logLevel = Some s ->
     toLowerCase s = Logger.levelName named ->
     (Logger.emit (Logger.createLogger logLevel childScope)
        now level message context = []
      <-> Logger.levelWeight level < Logger.levelWeight named)) /\
  ((logLevel = None \/
    exists s, logLevel = Some s /\
              Logger.inLevelWeight (toLowerCase s) = false) ->
   (Logger.emit (Logger.createLogger logLevel childScope)
      now level message context = []
    <-> level = debug)).
Proof.
  split.
  - intros s named -> Hs. rewrite emit_nil.
    unfold Logger.createLogger, Logger.child, Logger.rootLogger,
      Logger.normalizeLevel, Logger.belowThreshold.
    cbn [Logger.minLevel]. cbn zeta.
    rewrite Hs, levelName_nonempty,
      (ownLevel_inLevelWeight _ named (ownLevel_levelName named)).
    cbn [negb andb]. rewrite ownLevel_levelName. apply Nat.ltb_lt.
  - intros Hfallback. rewrite emit_nil.
    assert (Hmin : Logger.normalizeLevel logLevel = "info").
    { destruct Hfallback as [->|(s & -> & Hs)]; [reflexivity|].
      unfold Logger.normalizeLevel. cbn zeta. rewrite Hs.
      rewrite andb_false_r. reflexivity. }
    unfold Logger.createLogger, Logger.child, Logger.rootLogger,
      Logger.belowThreshold.
    cbn [Logger.minLevel]. rewrite Hmin.
    destruct level; cbn; split; intros; try discriminate; reflexivity.
Qed.

Lemma payload_context (l : Logger.Logger) now level message
  (context : gmap string JsValue) payload key v :
  context !! key = Some v ->
  List.In (Logger.Console level payload)
    (Logger.emit l now level message (Some context)) ->
  payload !! key = Some v.
Proof.
  intros Hkey. unfold Logger.emit.
  destruct (Logger.belowThreshold _ _); [intros []|].
  intros [[= <-]|[]]. cbn [default].
  apply lookup_union_Some_l, Hkey.
Qed.

(** X21 ([Logger.emit], [Logger.error]).  The fields of the context
    replace the fields of the same name that the logger sets itself.  In
    particular, when [error] is given an [Error] object, the line written
    carries the message of that object in its [message] field, and the
    message argument of the call has no effect on what is written. *)
Theorem context_overrides (l : Logger.Logger) (now : string) :
  (forall level message context payload key v,
     context !! key = Some v ->
     List.In (Logger.Console level payload)
       (Logger.emit l now level message (Some context)) ->
     payload !! key = Some v) /\
  (forall message e payload,
     List.In (Logger.Console error payload)
       (Logger.error l now message (Some (inr e))) ->
     payload !! "message" = Some (JString (errorMessage e))) /\
  (forall message message' e,
     Logger.error l now message (Some (inr e))
     = Logger.error l now message' (Some (inr e))).
Proof.
  split; [|split].
  - intros level message context payload key v.
    apply payload_context.
  - intros message e payload. unfold Logger.error.
    apply payload_context. reflexivity.
  - intros message message' e. unfold Logger.error, Logger.emit.
    destruct (Logger.belowThreshold _ _); [reflexivity|].
    f_equal.
Qed.


(* ================================================================== *)
(** * Further properties: flags of the configuration *)
(* ================================================================== *)

(** X22 ([loadConfig], [monitorMessages]).  The object handed to the
    schema never has an entry [monitorMessages], whatever the overrides
    and the environment: the schema falls back to its default, and the
    loaded configuration has monitoring enabled even when the overrides
    ask to disable it. *)
Theorem monitoring_always_enabled (overrides : ConfigOverrides.t)
  (env : gmap string string) :
  rawConfig overrides env !! "monitorMessages" = None /\
  parsedMonitorMessages (rawConfig overrides env) = true.
Proof.
  assert (Hnone : rawConfig overrides env !! "monitorMessages" = None).
  { unfold rawConfig.
    repeat (rewrite lookup_insert_ne by discriminate). apply lookup_empty. }
  split; [exact Hnone|].
  unfold parsedMonitorMessages. rewrite Hnone. reflexivity.
Qed.

(** X23 ([parseCliOverrides], [loadConfig], [headless]).  The headed flag
    wins over the headless flag, and either wins over the environment.
    Without a flag the variable [HEADLESS] decides by its truthiness as a
    string, so every non-empty value, [false] and [0] included, gives
    headless mode; an empty value gives headed mode, and an unset variable
    the default, headless. *)
Theorem headless_resolution (opts : CliOptions.t) (env : gmap string string) :
  parsedHeadless (rawConfig (parseCliOverrides opts) env) =
  if truthy (CliOptions.headed opts) then false
  else if truthy (CliOptions.headless opts) then true
  else match env !! "HEADLESS" with
       | Some s => negb (String.eqb s EmptyString)
       | None => true
       end.
Proof.
  unfold parsedHeadless, rawConfig.
  repeat (rewrite lookup_insert_ne by discriminate).
  rewrite lookup_insert_eq. unfold parseCliOverrides.
  cbn [ConfigOverrides.headless].
  destruct (truthy (CliOptions.headed opts)); [reflexivity|].
  destruct (truthy (CliOptions.headless opts)); [reflexivity|].
  cbn [fmap option_fmap option_map orEnv].
  destruct (env !! "HEADLESS"); reflexivity.
Qed.

(* ================================================================== *)
(** * Further properties: the run *)
(* ================================================================== *)

(** X24 ([run]).  When the launch is rejected, [run] throws that rejection
    and does nothing more.  Otherwise, once the block is left, however it
    is left, the signal handlers are removed and the browser is closed,
    exactly once and after everything else; [run] then ends as the block
    did, whether or not the browser closed cleanly: with the rejection of
    the context or of the page, with what the workflow threw, or
    normally. *)
Theorem run_closes_browser `{StringOps} (cfg : AppConfig) (w : RunWorld) :
  (launchOk w = false ->
   run cfg w = ([RunLog info "Launching Chromium"; Launch (headless cfg)],
                inl (BrowserRejected (Launch (headless cfg))))) /\
  (launchOk w = true ->
   blockEnd cfg w <> inr StillMonitoring ->
   exists before,
     snd (run cfg w) = blockEnd cfg w /\
     closes (fst (run cfg w)) = 1 /\
     fst (run cfg w)
     = before ++ [RemoveSignalHandlers; CloseBrowser]
         ++ (if closeOk w then []
             else [RunLog warn "Failed to close browser cleanly"]) /\
     closes before = 0).
Proof.
  unfold run, blockEnd. split.
  - intros ->. reflexivity.
  - intros ->.
    destruct (newContextOk w); cbn [negb].
    2: { intros _.
         exists [RunLog info "Launching Chromium"; Launch (headless cfg);
                 RegisterSignalHandlers; NewContext].
         destruct (closeOk w); cbn; repeat split. }
    destruct (newPageOk w); cbn [negb].
    2: { intros _.
         exists [RunLog info "Launching Chromium"; Launch (headless cfg);
                 RegisterSignalHandlers; NewContext;
                 SetDefaultTimeout
                   (N.max (navigationTimeoutMs cfg) (lobbyTimeoutMs cfg));
                 NewPage].
         destruct (closeOk w); cbn; repeat split. }
    intros Hend.
    exists [RunLog info "Launching Chromium"; Launch (headless cfg);
            RegisterSignalHandlers; NewContext;
            SetDefaultTimeout
              (N.max (navigationTimeoutMs cfg) (lobbyTimeoutMs cfg));
            NewPage; JoinAndChat (trace (joinAndChat cfg (session w)))].
    destruct (result (joinAndChat cfg (session w))) as [[]|e];
      try (exfalso; apply Hend; reflexivity);
      destruct (closeOk w); cbn; repeat split.
Qed.

(* ================================================================== *)
(** * The further properties on concrete sessions *)
(* ================================================================== *)

Lemma findChatInputCandidates_outcome_witness :
  pick structuralOnly (chatInputCandidates surface)
  = Some (locator surface "[contenteditable=true][role=textbox]") /\
  List.In (locator surface "[contenteditable=true][role=textbox]")
    (chatInputCandidates surface) /\
  (probed (inputVisible structuralOnly)
     (locator surface "[contenteditable=true][role=textbox]") = true \/
   inputAppears structuralOnly
     (locator surface "[contenteditable=true][role=textbox]") = true).
Proof.
  split; [reflexivity|].
  apply (proj1 (proj2 (findChatInputCandidates_outcome structuralOnly surface
                         "surface"))).
  reflexivity.
Defined.

Lemma sendQuickReply_outcome_witness :
  List.In (Fill (getByRole surface "textbox" "/Chat Input/i") "roger")
    (trace (sendQuickReply replyReady "roger")) /\
  "roger" = "roger" /\
  result (resolveChatInput (replyResolve replyReady))
  = Ok (Some (getByRole surface "textbox" "/Chat Input/i")).
Proof.
  assert (Hin : List.In (Fill (getByRole surface "textbox" "/Chat Input/i") "roger")
                  (trace (sendQuickReply replyReady "roger"))).
  { vm_compute. repeat first [left; reflexivity | right]. }
  split; [exact Hin|].
  apply (proj1 (proj2 (sendQuickReply_outcome replyReady "roger")) _ _ Hin).
Defined.

Lemma tryActivateChatInput_outcome_witness :
  activates activationStuck = false /\
  last (trace (tryActivateChatInput activationStuck))
  = Some (Log warn "All activation strategies failed").
Proof.
  split; [reflexivity|].
  apply (proj2 (tryActivateChatInput_outcome activationStuck)). reflexivity.
Defined.

Lemma leaveMeeting_outcome_witness :
  Timed.afterDelay leaveWaitsResolve = true /\
  leaveStrategy leaveByShortcut 3 = true /\
  trace (Timed.leaveMeeting friday leaveByShortcut leaveWaitsResolve None) =
  [Log info "Leaving meeting"; WaitForTimeout (postLeaveDelayMs friday)]
    ++ failedLeaves None 3
    ++ [leaveAction None 3; Log debug (leaveDone 3); WaitForTimeout 300]
    ++ trace (tryCatch (confirmLeave leaveByShortcut confirmButtons)
                (fun _ => log debug "Leave confirmation attempt failed")).
Proof.
  split; [reflexivity|]. split; [reflexivity|].
  apply (proj1 (proj2 (proj2 (leaveMeeting_outcome friday leaveByShortcut
                                leaveWaitsResolve None) eq_refl)) 3);
    [lia|reflexivity| |reflexivity].
  intros j Hj. destruct j as [|[|[|j]]]; [reflexivity|reflexivity|reflexivity|lia].
Defined.

Lemma admission_after_lobby_witness :
  inMeetingSeen lobbyThenAdmitted < 2 /\
  2 < maxAttempts friday /\
  result (waitForAdmission friday lobbyThenAdmitted) = Ok leaveButton /\
  waits (trace (waitForAdmission friday lobbyThenAdmitted)) = 3 /\
  last (trace (waitForAdmission friday lobbyThenAdmitted))
  = Some (LogAt info "Meeting joined successfully" 3).
Proof.
  assert (Hfew : inMeetingSeen lobbyThenAdmitted < 2) by (vm_compute; lia).
  assert (Hk : 2 < maxAttempts friday) by (vm_compute; lia).
  split; [exact Hfew|]. split; [exact Hk|].
  apply (admission_after_lobby friday lobbyThenAdmitted 2 Hfew Hk);
    [reflexivity|].
  intros j Hj. destruct j as [|[|j]]; [split; reflexivity|split; reflexivity|lia].
Defined.

Lemma admission_terminal_state_witness :
  inMeetingSeen lobbyThenEnded < 2 /\
  1 < maxAttempts friday /\
  errorSeen lobbyThenEnded 2 = true /\
  result (waitForAdmission friday lobbyThenEnded) = Err MeetingErrorState /\
  waits (trace (waitForAdmission friday lobbyThenEnded)) = 2.
Proof.
  assert (Hfew : inMeetingSeen lobbyThenEnded < 2) by (vm_compute; lia).
  assert (Hk : 1 < maxAttempts friday) by (vm_compute; lia).
  split; [exact Hfew|]. split; [exact Hk|]. split; [reflexivity|].
  apply (admission_terminal_state friday lobbyThenEnded 1 Hfew Hk);
    [reflexivity| |].
  - intros j Hj. reflexivity.
  - intros j Hj. destruct j as [|j]; [reflexivity|lia].
Defined.

Lemma admission_timeout_witness :
  inMeetingSeen lobbyForever < 2 /\
  result (Timed.waitForAdmission friday lobbyForever true)
  = Err (LobbyTimeout (lobbyTimeoutMs friday)) /\
  waits (trace (Timed.waitForAdmission friday lobbyForever true))
  = maxAttempts friday /\
  (lobbyTimeoutMs friday <= N.of_nat (maxAttempts friday) * 1000
   < lobbyTimeoutMs friday + 1000)%N.
Proof.
  assert (Hfew : inMeetingSeen lobbyForever < 2) by (vm_compute; lia).
  split; [exact Hfew|].
  apply (proj2 (admission_timeout friday lobbyForever true) eq_refl Hfew).
  intros j Hj. split; reflexivity.
Defined.

Lemma admission_waits_bounded_witness :
  2 <= inMeetingSeen admitted /\
  waits (trace (waitForAdmission friday admitted)) = 0.
Proof.
  assert (Hmany : 2 <= inMeetingSeen admitted) by (vm_compute; lia).
  split; [exact Hmany|].
  apply (proj2 (proj2 (admission_waits_bounded friday admitted))), Hmany.
Defined.

Lemma dismissBlockingModals_clicks_all_witness :
  initialCount overlayStuck = Fulfilled 2 /\
  clicked (trace (dismissBlockingModals overlayStuck "before-join"))
  = List.map (locator surface) dismissSelectors /\
  logged "Clicked modal dismiss control"
    (trace (dismissBlockingModals overlayStuck "before-join"))
  = List.length (List.filter (dismissClick overlayStuck) dismissSelectors) /\
  (evaluates "remove .ReactModalPortal"
     (trace (dismissBlockingModals overlayStuck "before-join")) = true
   <-> exists r, remainingCount overlayStuck = Fulfilled (S r)) /\
  (logged "Blocking overlay dismissed"
     (trace (dismissBlockingModals overlayStuck "before-join")) = 1
   <-> remainingCount overlayStuck = Fulfilled 0).
Proof.
  split; [reflexivity|].
  apply (dismissBlockingModals_clicks_all overlayStuck "before-join" 1).
  reflexivity.
Defined.

Lemma submitJoin_failures_witness :
  none (probed (joinVisible joinStuck)) joinCandidates = true /\
  none (joinClickFallback joinStuck) joinCandidates = true /\
  Timed.submitJoin joinStuck joinWaitsResolve =
  (trace (Timed.dismissBlockingModals (joinModals joinStuck)
            (Timed.joinModalWaits joinWaitsResolve) "before-join")
     ++ List.map IsVisible joinCandidates
     ++ List.map (fun l => Click l 1000) joinCandidates
     ++ [Log warn "Join button not found via selectors, sending Enter key fallback";
         Press body "Enter"]
     ++ (if enterPress joinStuck then [WaitForTimeout 200] else []),
   if enterPress joinStuck then
     if Timed.afterEnter joinWaitsResolve then Ok tt
     else Err (Rejection (WaitForTimeout 200))
   else Err (Rejection (Press body "Enter"))).
Proof.
  split; [reflexivity|]. split; [reflexivity|].
  apply (proj2 (proj2 (proj2 (submitJoin_failures joinStuck joinWaitsResolve)
                         eq_refl)));
    reflexivity.
Defined.

Lemma sendChatMessage_outcome_witness :
  messageText friday <> EmptyString /\
  result (Timed.sendChatMessage friday chatSendReady chatWaitsResolve) =
  match result (Timed.dismissBlockingModals (chatModals chatSendReady)
                  (Timed.chatModalWaits chatWaitsResolve)
                  "before-chat-open") with
  | Err e => Err e
  | Ok _ =>
      if clicksChatButton chatSendReady || altH chatSendReady then
        if Timed.afterOpen chatWaitsResolve then
          match resolution (firstResolve chatSendReady) with
          | Some input => typed friday chatSendReady input
          | None =>
              if activates (activation chatSendReady) then
                match resolution (secondResolve chatSendReady) with
                | Some input => typed friday chatSendReady input
                | None => Err ChatInputDisappeared
                end
              else Err ChatInputMissing
          end
        else Err (Rejection (WaitForTimeout 300))
      else Err (Rejection (Press body "Alt+H"))
  end.
Proof.
  assert (Hmsg : messageText friday <> EmptyString) by discriminate.
  split; [exact Hmsg|].
  apply (proj2 (sendChatMessage_outcome friday chatSendReady chatWaitsResolve)
           Hmsg).
Defined.

Lemma sendChatMessage_sends_witness :
  exists input before,
    (resolution (firstResolve chatSendReady) = Some input \/
     (resolution (firstResolve chatSendReady) = None /\
      activates (activation chatSendReady) = true /\
      resolution (secondResolve chatSendReady) = Some input)) /\
    trace (sendChatMessage friday chatSendReady)
    = before ++ [Fill input (messageText friday); Press input "Enter";
                 Log info "Chat message sent"].
Proof.
  apply (sendChatMessage_sends friday chatSendReady);
    [discriminate|reflexivity].
Defined.

Lemma replies_sound_witness :
  chatMessage "You" "Hello everyone"
    ∈ polledMessages [poll [chatMessage "You" "Hello everyone"]] /\
  isBotOwnMessage friday (chatMessage "You" "Hello everyone") = false /\
  isQuit (chatMessage "You" "Hello everyone") = false /\
  "roger" = answer friday (chatMessage "You" "Hello everyone").
Proof.
  apply (replies_sound friday [poll [chatMessage "You" "Hello everyone"]]
           (chatMessage "You" "Hello everyone") "roger").
  vm_compute. constructor.
Defined.

Lemma returns_only_on_quit_witness :
  exists msg,
    msg ∈ polledMessages [poll [chatMessage "You" "Quit "]] /\
    isBotOwnMessage friday msg = false /\ isQuit msg = true.
Proof.
  apply (returns_only_on_quit friday [poll [chatMessage "You" "Quit "]]).
  reflexivity.
Defined.

Lemma key_collision_witness :
  ~ ((chatMessage "a:b" "c", "roger")
       ∈ replies (trace (monitorChatMessages friday
                           [poll [chatMessage "a:b" "c"; chatMessage "a" "b:c"]])) /\
     (chatMessage "a" "b:c", "roger")
       ∈ replies (trace (monitorChatMessages friday
                           [poll [chatMessage "a:b" "c"; chatMessage "a" "b:c"]]))).
Proof.
  apply (key_collision friday
           [poll [chatMessage "a:b" "c"; chatMessage "a" "b:c"]]
           (chatMessage "a:b" "c") (chatMessage "a" "b:c") "roger" "roger");
    [reflexivity|discriminate].
Defined.

Lemma log_threshold_witness :
  Logger.levelWeight info <= Logger.levelWeight warn /\
  (Logger.emit (Logger.rootLogger None) "2025-01-01T00:00:00.000Z" info
     "Sending chat message" None <> [] ->
   Logger.emit (Logger.rootLogger None) "2025-01-01T00:00:00.000Z" warn
     "Sending chat message" None <> []) /\
  Logger.emit (Logger.rootLogger None) "2025-01-01T00:00:00.000Z" error
    "Sending chat message" None <> [].
Proof.
  assert (Hle : Logger.levelWeight info <= Logger.levelWeight warn)
    by (cbn; lia).
  split; [exact Hle|].
  apply (log_threshold (Logger.rootLogger None) "2025-01-01T00:00:00.000Z"
           "Sending chat message" info warn None Hle).
Defined.

Lemma log_level_from_environment_witness :
  Logger.emit (Logger.createLogger (Some "WARN") "zoom-runner")
    "2025-01-01T00:00:00.000Z" info "Sending chat message" None = []
  <-> Logger.levelWeight info < Logger.levelWeight warn.
Proof.
  apply (proj1 (@log_level_from_environment ascii_ops (Some "WARN")
                  "zoom-runner" "2025-01-01T00:00:00.000Z"
                  "Sending chat message" info None)
           "WARN" warn eq_refl eq_refl).
Defined.

Lemma context_overrides_witness :
  (default ∅ (Some (<["name" := JString "TypeError"]>
                      (<["message" := JString "net::ERR_ABORTED"]>
                         (<["stack" := JUndefined]> ∅))))
     ∪ <["scope" := JString "zoom-runner"]>
         (<["level" := JString "error"]>
            (<["message" := JString "Fatal error while running Zoom bot"]>
               (<["timestamp" := JString "2025-01-01T00:00:00.000Z"]> ∅)))
   : gmap string JsValue) !! "message"
  = Some (JString "net::ERR_ABORTED").
Proof.
  apply (proj1 (proj2 (context_overrides
                         {| Logger.scope := "zoom-runner";
                            Logger.minLevel := "info" |}
                         "2025-01-01T00:00:00.000Z"))
           "Fatal error while running Zoom bot"
           {| errorName := "TypeError"; errorMessage := "net::ERR_ABORTED";
              errorStack := None |}).
  left. reflexivity.
Defined.

Lemma run_closes_browser_witness :
  exists before,
    snd (run friday browserReady) = blockEnd friday browserReady /\
    closes (fst (run friday browserReady)) = 1 /\
    fst (run friday browserReady)
    = before ++ [RemoveSignalHandlers; CloseBrowser]
        ++ (if closeOk browserReady then []
            else [RunLog warn "Failed to close browser cleanly"]) /\
    closes before = 0.
Proof.
  apply (proj2 (run_closes_browser friday browserReady));
    [reflexivity|vm_compute; discriminate].
Defined.

(* ================================================================== *)
(** * Waits that resolve *)
(* ================================================================== *)

(** When every wait resolves, the methods of [Timed] are the methods
    embedded for a surface whose waits resolve. *)

Lemma timed_waitForTimeout_resolved ms :
  Timed.waitForTimeout ms true = waitForTimeout ms.
Proof. reflexivity. Qed.

Lemma timed_dismissBlockingModals_resolved (w : ModalWorld) (context : string) :
  Timed.dismissBlockingModals w modalWaitsResolve context
  = dismissBlockingModals w context.
Proof. reflexivity. Qed.

Lemma timed_clickEach_resolved (w : JoinWorld) (candidates : list Locator) :
  forall i, Timed.clickEach w joinWaitsResolve i candidates
            = clickEach w i candidates.
Proof.
  induction candidates as [|l rest IH]; intros i; [reflexivity|].
  cbn [Timed.clickEach clickEach]. rewrite IH. reflexivity.
Qed.

Lemma timed_submitJoin_resolved (w : JoinWorld) :
  Timed.submitJoin w joinWaitsResolve = submitJoin w.
Proof.
  unfold Timed.submitJoin, submitJoin, Timed.submitJoinAmong, submitJoinAmong.
  rewrite timed_clickEach_resolved. reflexivity.
Qed.

Lemma timed_sendChatMessage_resolved (cfg : AppConfig) (w : ChatSendWorld) :
  Timed.sendChatMessage cfg w chatWaitsResolve = sendChatMessage cfg w.
Proof. reflexivity. Qed.

Lemma timed_monitorLoop_resolved `{StringOps} (cfg : AppConfig)
  (polls : list Timed.Poll) :
  Forall (fun p => Timed.afterBatch p = true /\ Timed.afterError p = true)
         polls ->
  forall seen errors,
    Timed.monitorLoop cfg polls seen errors
    = monitorLoop cfg (List.map Timed.observed polls) seen errors.
Proof.
  induction 1 as [|p rest [Hbatch Herror] _ IH]; intros seen errors;
    [reflexivity|].
  cbn [Timed.monitorLoop monitorLoop List.map]. unfold Timed.onError.
  rewrite Hbatch, Herror.
  destruct (polled (Timed.observed p)) as [messages|];
    cbn -[processMessages monitorLoop Timed.monitorLoop maxConsecutiveErrors
          Nat.leb].
  - destruct (processMessages_total cfg (replyWorld (Timed.observed p)) 0 seen
                messages) as [o Ho].
    destruct (processMessages cfg (replyWorld (Timed.observed p)) 0 seen
                messages) as [tr r].
    cbn in Ho. subst r. destruct o as [seen'|]; cbn; rewrite ?IH; reflexivity.
  - destruct (maxConsecutiveErrors <=? S errors); cbn; rewrite ?IH;
      reflexivity.
Qed.

Lemma timed_monitorChatMessages_resolved `{StringOps} (cfg : AppConfig)
  (polls : list Timed.Poll) :
  Forall (fun p => Timed.afterBatch p = true /\ Timed.afterError p = true)
         polls ->
  Timed.monitorChatMessages cfg polls
  = monitorChatMessages cfg (List.map Timed.observed polls).
Proof.
  intros Hpolls. unfold Timed.monitorChatMessages, monitorChatMessages.
  rewrite (timed_monitorLoop_resolved cfg polls Hpolls). reflexivity.
Qed.

Lemma timed_tryLeave_resolved (strategies : list (M Event unit)) :
  forall i,
    Timed.tryLeave leaveWaitsResolve i false strategies = tryLeave i strategies.
Proof.
  induction strategies as [|[tr [[]|e]] rest IH]; intros i; [reflexivity| |];
    cbn; rewrite ?IH; reflexivity.
Qed.

Lemma timed_leaveMeeting_resolved (cfg : AppConfig) (w : LeaveWorld)
  (stored : option Locator) :
  Timed.leaveMeeting cfg w leaveWaitsResolve stored = leaveMeeting cfg w stored.
Proof.
  unfold Timed.leaveMeeting, leaveMeeting.
  rewrite timed_tryLeave_resolved. reflexivity.
Qed.
